(** * File converter: validation, dispatch, pagination and placement

    A shallow embedding of the conversion pipeline of the file-conversion
    web application (TypeScript), followed by the properties established
    about it.

    Conventions of the embedding.
    - A JavaScript string is a [string]; each [ascii] stands for the UTF-16
      code unit of the same number, so the embedding covers strings whose
      code units are below 256.
    - A JavaScript [number] that holds a byte count or an index is an [N] or
      a [nat]; a number that holds a length, a ratio or a percentage is an
      exact rational [Q] in the converters.  The engine computes in
      binary64: the module [Binary64] holds the numeric kernels once more,
      over the kernel's floating-point numbers, and settles the inputs
      where rounding or a division by zero decides the result.  A statement
      about the exact model says only what binary64 gives as well, and
      carries the hypotheses that keep the engine away from zero sizes, NaN
      and Infinity.
    - A rejected promise or a thrown [Error] is [Throw msg]; [msg] is the
      error's message.
    - The browser and the third-party libraries (FileReader, Image decoding,
      JSZip, html2canvas, jsPDF's text splitting) are a [Host] record of
      functions. *)

From Stdlib Require Import List String Ascii Bool Arith NArith ZArith QArith Qround Qminmax Lia Lqa.
From Stdlib Require Import Numbers.DecimalString.
From Stdlib Require Import Qabs Qpower.
From Stdlib Require Import PrimFloat FloatOps FloatAxioms SpecFloat.
From Stdlib Require Uint63.
Set Warnings "-inexact-float".
Import ListNotations.

Close Scope Q_scope.
Open Scope nat_scope.
Open Scope list_scope.
Open Scope string_scope.

(* ================================================================= *)
(** ** Strings *)

Definition asciiN (c : ascii) : N := N_of_ascii c.

(** [String.prototype.toLowerCase] on one code unit below 256. *)
Definition lowerChar (c : ascii) : ascii :=
  let n := asciiN c in
  if ((65 <=? n) && (n <=? 90))%N
     || ((192 <=? n) && (n <=? 222) && negb (n =? 215))%N
  then ascii_of_N (n + 32) else c.

Fixpoint toLowerCase (s : string) : string :=
  match s with
  | EmptyString => EmptyString
  | String c r => String (lowerChar c) (toLowerCase r)
  end.

(** [s.split(sep)] for a one-character separator: the list is never empty. *)
Fixpoint split (sep : ascii) (s : string) : list string :=
  match s with
  | EmptyString => [EmptyString]
  | String c r =>
      if Ascii.eqb c sep then EmptyString :: split sep r
      else match split sep r with
           | [] => [String c EmptyString]
           | seg :: segs => String c seg :: segs
           end
  end.

(** [arr.pop()] as a value: the last element. *)
Definition pop (l : list string) : option string :=
  match rev l with
  | [] => None
  | x :: _ => Some x
  end.

(** [s.startsWith(p)] *)
Fixpoint startsWith (p s : string) : bool :=
  match p, s with
  | EmptyString, _ => true
  | String a p', String b s' => Ascii.eqb a b && startsWith p' s'
  | String _ _, EmptyString => false
  end.

(** [s.endsWith(p)] *)
Fixpoint endsWith (s p : string) : bool :=
  String.eqb s p ||
  match s with
  | EmptyString => false
  | String _ r => endsWith r p
  end.

Fixpoint dropChars (n : nat) (s : string) : string :=
  match n, s with
  | O, _ => s
  | S k, String _ r => dropChars k r
  | S _, EmptyString => EmptyString
  end.

(** [s.replace(pat, by)] for a string pattern: the first occurrence only. *)
Fixpoint replaceFirst (pat by_ s : string) : string :=
  if startsWith pat s then by_ ++ dropChars (String.length pat) s
  else match s with
       | EmptyString => EmptyString
       | String c r => String c (replaceFirst pat by_ r)
       end.

(** [s.replace(/\.[^.]+$/, '')]: the leftmost dot that is followed, up to
    the end of the string, by one or more characters none of which is a
    dot; the string is cut there. *)
Fixpoint noDot (s : string) : bool :=
  match s with
  | EmptyString => true
  | String c r => negb (Ascii.eqb c ".") && noDot r
  end.

Fixpoint stripExtension (s : string) : string :=
  match s with
  | EmptyString => EmptyString
  | String c r =>
      if Ascii.eqb c "." && negb (String.eqb r EmptyString) && noDot r
      then EmptyString
      else String c (stripExtension r)
  end.

(** The one-character string holding a double quote. *)
Definition dquote : string := String (ascii_of_nat 34) EmptyString.

(** Decimal rendering of a non-negative integer, as [String(n)] gives. *)
Definition showN (n : N) : string := NilZero.string_of_uint (N.to_uint n).

(** [array.join(sep)] *)
Fixpoint join (sep : string) (l : list string) : string :=
  match l with
  | [] => EmptyString
  | [x] => x
  | x :: r => x ++ sep ++ join sep r
  end.

(* ================================================================= *)
(** ** types.ts *)

Inductive FileType := image | text | html | markdown | docx | unknown.

Definition FileType_eq_dec (a b : FileType) : {a = b} + {a <> b}.
Proof. decide equality. Defined.

Definition FileType_eqb (a b : FileType) : bool :=
  if FileType_eq_dec a b then true else false.

(** The browser's [File]: its name, its declared MIME type, its size in
    bytes and its content. *)
Record File := mkFile {
  name : string;
  type : string;
  size : N;
  bytes : string
}.

Inductive PageSizeName := A4 | letter | fit.

Record ConversionOptions := mkOptions {
  pageSize : PageSizeName;
  quality : Q;
  margin : Q
}.

Record ValidationResult := mkValidation {
  valid : bool;
  error : option string;
  vtype : option FileType
}.

Definition SUPPORTED_MIME_TYPES : list (string * FileType) :=
  [ ("image/png", image);
    ("image/jpeg", image);
    ("image/jpg", image);
    ("image/gif", image);
    ("image/tiff", image);
    ("image/webp", image);
    ("text/plain", text);
    ("text/html", html);
    ("text/markdown", markdown);
    ("application/vnd.openxmlformats-officedocument.wordprocessingml.document", docx) ].

Definition EXTENSION_TO_TYPE : list (string * FileType) :=
  [ (".png", image);
    (".jpg", image);
    (".jpeg", image);
    (".gif", image);
    (".tiff", image);
    (".tif", image);
    (".webp", image);
    (".txt", text);
    (".html", html);
    (".htm", html);
    (".md", markdown);
    (".markdown", markdown);
    (".docx", docx) ].

(** Own-property lookup in one of the two tables.  A table is an object
    literal, so the engine's [table[key]] also finds what every object
    inherits ([constructor], [__proto__], ...), a value that is no
    [FileType]; [INHERITED_KEYS] lists those keys, and the statements on
    the verdict of the classifier keep the declared type away from them. *)
Fixpoint lookup (key : string) (table : list (string * FileType)) : option FileType :=
  match table with
  | [] => None
  | (k, v) :: rest => if String.eqb k key then Some v else lookup key rest
  end.

(** The property names of [Object.prototype], which every object literal
    inherits. *)
Definition INHERITED_KEYS : list string :=
  [ "constructor"; "__proto__"; "hasOwnProperty"; "isPrototypeOf";
    "propertyIsEnumerable"; "toLocaleString"; "toString"; "valueOf";
    "__defineGetter__"; "__defineSetter__"; "__lookupGetter__";
    "__lookupSetter__" ].

Definition MAX_FILE_SIZE : N := 10 * 1024 * 1024.
Definition MAX_TOTAL_SIZE : N := 50 * 1024 * 1024.

(* ================================================================= *)
(** ** utils/fileValidator.ts *)

Definition detectFileType (file : File) : FileType :=
  match (if String.eqb (type file) EmptyString then None
         else lookup (type file) SUPPORTED_MIME_TYPES) with
  | Some t => t
  | None =>
      let ext := "." ++ match pop (split "." (name file)) with
                        | Some seg => toLowerCase seg
                        | None => "undefined"
                        end in
      match lookup ext EXTENSION_TO_TYPE with
      | Some t => t
      | None => unknown
      end
  end.

(** [x.toFixed(1)] for [x = bytes / 2^k]: the quotient is exact, and the
    nearest tenth (ties upwards) is printed with one decimal. *)
Definition toFixed1 (bytes : N) (pow2 : N) : string :=
  let n := ((20 * bytes + pow2) / (2 * pow2))%N in
  showN (n / 10) ++ "." ++ showN (n mod 10).

Definition formatFileSize (b : N) : string :=
  if (b <? 1024)%N then showN b ++ " B"
  else if (b <? 1024 * 1024)%N then toFixed1 b 1024 ++ " KB"
  else toFixed1 b (1024 * 1024) ++ " MB".

Definition validateFile (file : File) : ValidationResult :=
  if (MAX_FILE_SIZE <? size file)%N then
    mkValidation false
      (Some ("File " ++ dquote ++ name file ++ dquote ++ " exceeds 10MB limit ("
             ++ formatFileSize (size file) ++ ")"))
      None
  else
    let t := detectFileType file in
    if FileType_eqb t unknown then
      mkValidation false (Some ("Unsupported file type: " ++ name file)) None
    else mkValidation true None (Some t).

(** The [for ... of] loop of [validateFiles]. *)
Fixpoint validateEach (files : list File) : ValidationResult :=
  match files with
  | [] => mkValidation true None None
  | file :: rest =>
      let result := validateFile file in
      if negb (valid result) then result else validateEach rest
  end.

Definition totalSize (files : list File) : N :=
  fold_left (fun sum f => (sum + size f)%N) files 0%N.

Definition validateFiles (files : list File) : ValidationResult :=
  if (MAX_TOTAL_SIZE <? totalSize files)%N then
    mkValidation false
      (Some ("Total file size exceeds 50MB limit ("
             ++ formatFileSize (totalSize files) ++ ")"))
      None
  else validateEach files.

Definition isImageFile (t : FileType) : bool := FileType_eqb t image.

Definition isTextFile (t : FileType) : bool :=
  FileType_eqb t text || FileType_eqb t html || FileType_eqb t markdown.

(* ================================================================= *)
(** ** Regular-expression replacement

    [String.prototype.replace] with a global regular expression walks the
    input from left to right; at each position it attempts the expression
    once, and after a match it resumes behind the matched text.  An
    attempt is a [Matcher]: it sees the code unit before the position (for
    the anchor [^]) and the rest of the input, and yields the number of
    code units matched together with the replacement text.  Every
    expression of the program consumes at least one code unit. *)

Definition Matcher := option ascii -> string -> option (nat * string).

Fixpoint replaceAllFrom (m : Matcher) (prev : option ascii) (skip : nat)
    (s : string) : string :=
  match s with
  | EmptyString => EmptyString
  | String c r =>
      match skip with
      | S k => replaceAllFrom m (Some c) k r
      | O =>
          match m prev s with
          | Some (len, out) => out ++ replaceAllFrom m (Some c) (Nat.pred len) r
          | None => String c (replaceAllFrom m (Some c) 0 r)
          end
      end
  end.

(** [s.replace(/re/g, ...)] *)
Definition replaceAll (m : Matcher) (s : string) : string :=
  replaceAllFrom m None 0 s.

(** [s.replace(/re/, ...)]: the leftmost match only. *)
Fixpoint replaceOnceFrom (m : Matcher) (prev : option ascii) (s : string) : string :=
  match s with
  | EmptyString => EmptyString
  | String c r =>
      match m prev s with
      | Some (len, out) => out ++ dropChars len s
      | None => String c (replaceOnceFrom m (Some c) r)
      end
  end.

Definition replaceOnce (m : Matcher) (s : string) : string :=
  replaceOnceFrom m None s.

Fixpoint takeChars (n : nat) (s : string) : string :=
  match n, s with
  | S k, String c r => String c (takeChars k r)
  | _, _ => EmptyString
  end.

(** [s.match(/re/g) || []]: the matched texts, in order. *)
Fixpoint matchAllFrom (m : Matcher) (prev : option ascii) (skip : nat)
    (s : string) : list string :=
  match s with
  | EmptyString => []
  | String c r =>
      match skip with
      | S k => matchAllFrom m (Some c) k r
      | O =>
          match m prev s with
          | Some (len, _) => takeChars len s :: matchAllFrom m (Some c) (Nat.pred len) r
          | None => matchAllFrom m (Some c) 0 r
          end
      end
  end.

Definition matchAll (m : Matcher) (s : string) : list string :=
  matchAllFrom m None 0 s.

Definition LF : ascii := ascii_of_nat 10.
Definition CR : ascii := ascii_of_nat 13.
Definition nl : string := String LF EmptyString.

(** Line terminators, which [.] does not match and after which [^] holds
    under the [m] flag. *)
Definition isLineTerminator (c : ascii) : bool :=
  Ascii.eqb c LF || Ascii.eqb c CR.

(** The class [\s]. *)
Definition isSpace (c : ascii) : bool :=
  let n := asciiN c in
  ((9 <=? n) && (n <=? 13) || (n =? 32) || (n =? 160))%N.

Definition atLineStart (prev : option ascii) : bool :=
  match prev with
  | None => true
  | Some c => isLineTerminator c
  end.

(** The longest prefix whose code units all satisfy [p]: a greedy
    [[class]*]. *)
Fixpoint spanWhile (p : ascii -> bool) (s : string) : string :=
  match s with
  | EmptyString => EmptyString
  | String c r => if p c then String c (spanWhile p r) else EmptyString
  end.

(** [.*] up to [$] under the [m] flag: the rest of the line. *)
Definition restOfLine (s : string) : string :=
  spanWhile (fun c => negb (isLineTerminator c)) s.

(** A lazy [(.*?)] (or [([\s\S]*?)] when [dotAll]) followed by the literal
    [close]: the shortest body after which [close] begins. *)
Fixpoint lazyUntil (dotAll : bool) (close : string) (s : string) : option string :=
  if startsWith close s then Some EmptyString
  else match s with
       | EmptyString => None
       | String c r =>
           if negb dotAll && isLineTerminator c then None
           else option_map (String c) (lazyUntil dotAll close r)
       end.

Definition isChar (a : ascii) (c : ascii) : bool := Ascii.eqb c a.
Definition notChar (a : ascii) (c : ascii) : bool := negb (Ascii.eqb c a).

(** [open(.*?)close], replaced by [left $1 right]. *)
Definition delimited (dotAll : bool) (open close left right : string) : Matcher :=
  fun _ s =>
    if startsWith open s then
      match lazyUntil dotAll close (dropChars (String.length open) s) with
      | Some body =>
          Some (String.length open + String.length body + String.length close,
                left ++ body ++ right)
      | None => None
      end
    else None.

(** A literal pattern. *)
Definition literal (pat out : string) : Matcher :=
  fun _ s => if startsWith pat s then Some (String.length pat, out) else None.

(* ================================================================= *)
(** ** converters/htmlToPdf.ts: the Markdown transpiler *)

(** [/^#{k} (.*$)/gm] replaced by [<hk>$1</hk>]; [marker] is the run of
    hashes with its blank. *)
Definition heading (marker tag : string) : Matcher :=
  fun prev s =>
    if atLineStart prev && startsWith marker s then
      let body := restOfLine (dropChars (String.length marker) s) in
      Some (String.length marker + String.length body,
            "<" ++ tag ++ ">" ++ body ++ "</" ++ tag ++ ">")
    else None.

(** [/`([^`]+)`/g] replaced by [<code>$1</code>]. *)
Definition inlineCode : Matcher :=
  fun _ s =>
    if startsWith "`" s then
      let r := dropChars 1 s in
      let body := spanWhile (notChar "`") r in
      if negb (String.eqb body EmptyString)
         && startsWith "`" (dropChars (String.length body) r)
      then Some (String.length body + 2, "<code>" ++ body ++ "</code>")
      else None
    else None.

(** [/\[([^\]]+)\]\(([^)]+)\)/g] replaced by [<a href="$2">$1</a>]. *)
Definition link : Matcher :=
  fun _ s =>
    if startsWith "[" s then
      let r := dropChars 1 s in
      let label := spanWhile (notChar "]") r in
      let r1 := dropChars (String.length label) r in
      if negb (String.eqb label EmptyString) && startsWith "](" r1 then
        let r2 := dropChars 2 r1 in
        let url := spanWhile (notChar ")") r2 in
        if negb (String.eqb url EmptyString)
           && startsWith ")" (dropChars (String.length url) r2)
        then Some (String.length label + String.length url + 4,
                   "<a href=" ++ dquote ++ url ++ dquote ++ ">" ++ label ++ "</a>")
        else None
      else None
    else None.

(** The list-item expression, multi-line and global: line start, [\s*],
    one of [-] and [*], [\s+], then the rest of the line as [$1]; replaced
    by [<li>$1</li>]. *)
Definition listItem : Matcher :=
  fun prev s =>
    if atLineStart prev then
      let lead := spanWhile isSpace s in
      match dropChars (String.length lead) s with
      | String c r1 =>
          if Ascii.eqb c "-" || Ascii.eqb c "*" then
            let gap := spanWhile isSpace r1 in
            if negb (String.eqb gap EmptyString) then
              let body := restOfLine (dropChars (String.length gap) r1) in
              Some (String.length lead + 1 + String.length gap + String.length body,
                    "<li>" ++ body ++ "</li>")
            else None
          else None
      | EmptyString => None
      end
    else None.

(** The list-wrapping expression is a greedy repetition, one or more
    times, of the group: [<li>], a lazy run of [.], [</li>], then [\s]
    zero or more times.  One repetition of the group: the number of code
    units it consumes. *)
Definition liGroup (s : string) : option nat :=
  if startsWith "<li>" s then
    match lazyUntil false "</li>" (dropChars 4 s) with
    | Some body =>
        let used := 4 + String.length body + 5 in
        Some (used + String.length (spanWhile isSpace (dropChars used s)))
    | None => None
    end
  else None.

(** The greedy repetition of the group; each repetition consumes at least
    nine code units, so [fuel] repetitions are enough when [fuel] is the
    length of the input. *)
Fixpoint liGroups (fuel : nat) (s : string) : nat :=
  match fuel with
  | O => O
  | S f =>
      match liGroup s with
      | Some n => n + liGroups f (dropChars n s)
      | None => O
      end
  end.

(** The list-wrapping expression, global, replaced by [<ul>$&</ul>]. *)
Definition listRun : Matcher :=
  fun _ s =>
    match liGroup s with
    | Some _ =>
        let n := liGroups (String.length s) s in
        Some (n, "<ul>" ++ takeChars n s ++ "</ul>")
    | None => None
    end.

Definition markdownToHtml (markdown : string) : string :=
  let html0 :=
    replaceAll (literal nl "<br>")
    (replaceAll (literal (nl ++ nl) "</p><p>")
    (replaceAll listItem
    (replaceAll link
    (replaceAll inlineCode
    (replaceAll (delimited true "```" "```" "<pre><code>" "</code></pre>")
    (replaceAll (delimited false "*" "*" "<em>" "</em>")
    (replaceAll (delimited false "**" "**" "<strong>" "</strong>")
    (replaceAll (delimited false "***" "***" "<strong><em>" "</em></strong>")
    (replaceAll (heading "# " "h1")
    (replaceAll (heading "## " "h2")
    (replaceAll (heading "### " "h3") markdown))))))))))) in
  let html1 := "<p>" ++ html0 ++ "</p>" in
  replaceAll listRun html1.

(* ================================================================= *)
(** ** Runs: progress reports and thrown errors

    An asynchronous function of the program reports progress through its
    callback and either returns or throws.  A [Run A] is the list of the
    values the run reported through the outermost callback, in the order
    of the calls, with its outcome. *)

Inductive outcome (A : Type) : Type :=
| Ok (a : A)
| Throw (msg : string).

Arguments Ok {A} a.
Arguments Throw {A} msg.

Definition Run (A : Type) : Type := (list Q * outcome A)%type.

Definition ret {A} (a : A) : Run A := ([], Ok a).

Definition throw {A} (msg : string) : Run A := ([], Throw msg).

Definition bind {A B} (m : Run A) (k : A -> Run B) : Run B :=
  match m with
  | (t, Ok a) => let (t', r) := k a in ((t ++ t')%list, r)
  | (t, Throw msg) => (t, Throw msg)
  end.

(** Awaiting a promise of the host: nothing is reported. *)
Definition await {A} (o : outcome A) : Run A := ([], o).

(** The outermost callback: the value is recorded. *)
Definition report (p : Q) : Run unit := ([p], Ok tt).

Arguments bind {A B} m k : simpl never.

Notation "x <- m ;; k" := (bind m (fun x => k))
  (at level 61, m at next level, right associativity).
Notation "m ;;; k" := (bind m (fun _ => k))
  (at level 61, right associativity).

Definition trace {A} (r : Run A) : list Q := fst r.
Definition outcomeOf {A} (r : Run A) : outcome A := snd r.

(** A progress callback, [(progress: number) => void]. *)
Definition Callback := Q -> Run unit.

(** JavaScript numbers from counters. *)
Definition ofNat (n : nat) : Q := inject_Z (Z.of_nat n).
Definition ofN (n : N) : Q := inject_Z (Z.of_N n).

Open Scope Q_scope.

(* ================================================================= *)
(** ** The output document (jsPDF)

    A document is its pages in order; drawing goes to the last page.
    Pixel data is opaque: an embedded image is recorded by its placement
    rectangle only. *)

Inductive PageFormat :=
| FormatA4
| FormatLetter
| FormatCustom (w h : Q).

Inductive Orientation := portrait | landscape.

Inductive DrawOp :=
| AddImage (x y w h : Q)
| DrawText (s : string) (x y : Q) (bold : bool).

Record Page := mkPage {
  pformat : option PageFormat;       (* [None]: as the page before *)
  porientation : option Orientation;
  ops : list DrawOp
}.

Record jsPDF := mkPdf {
  pages : list Page;
  fontBold : bool
}.

Definition newPdf (o : Orientation) (f : PageFormat) : jsPDF :=
  mkPdf [mkPage (Some f) (Some o) []] false.

Definition addPage (f : option PageFormat) (o : option Orientation) (pdf : jsPDF) : jsPDF :=
  mkPdf (pages pdf ++ [mkPage f o []])%list (fontBold pdf).

Fixpoint drawOnLast (op : DrawOp) (ps : list Page) : list Page :=
  match ps with
  | [] => []
  | [p] => [mkPage (pformat p) (porientation p) (ops p ++ [op])%list]
  | p :: rest => p :: drawOnLast op rest
  end.

(** [pdf.addImage] at a placement of numbers.  jsPDF rejects a placement
    that holds NaN; the image converter computes one only for an image
    without canvas ([hasCanvas] below), and the HTML converter only for a
    canvas without width. *)
Definition addImage (x y w h : Q) (pdf : jsPDF) : jsPDF :=
  mkPdf (drawOnLast (AddImage x y w h) (pages pdf)) (fontBold pdf).

Definition drawText (s : string) (x y : Q) (pdf : jsPDF) : jsPDF :=
  mkPdf (drawOnLast (DrawText s x y (fontBold pdf)) (pages pdf)) (fontBold pdf).

Definition setFont (bold : bool) (pdf : jsPDF) : jsPDF :=
  mkPdf (pages pdf) bold.

Record ConversionResult := mkResult {
  blob : jsPDF;
  filename : string;
  pageCount : Z
}.

(** [options.pageSize === 'fit' ? 'a4' : options.pageSize.toLowerCase()] *)
Definition paperFormat (options : ConversionOptions) : PageFormat :=
  match pageSize options with
  | A4 => FormatA4
  | letter => FormatLetter
  | fit => FormatA4
  end.

Record Dimensions := mkDim {
  width : Q;
  height : Q
}.

(** [PAGE_SIZES], in millimetres; the three converters declare the same
    table. *)
Definition PAGE_SIZES (p : PageSizeName) : Dimensions :=
  match p with
  | A4 => mkDim 210 297
  | letter => mkDim (2159 # 10) (2794 # 10)
  | fit => mkDim 210 297
  end.

(* ================================================================= *)
(** ** The host *)

(** One entry of a zip archive, read as text or as base64. *)
Record ZipObject := mkZipObject {
  asString : outcome string;
  asBase64 : outcome string
}.

(** A loaded archive: the file entries of [zip.files], by path. *)
Definition JSZip := list (string * ZipObject).

Record Host := mkHost {
  (** FileReader *)
  readAsText : File -> outcome string;
  readAsDataURL : File -> outcome string;
  readAsArrayBuffer : File -> outcome string;
  (** [loadImage]: the natural width and height of the decoded image *)
  loadImage : string -> outcome (N * N);
  (** whether a canvas of the given size yields a 2-D context *)
  getContext2d : Q -> Q -> bool;
  (** [JSZip.loadAsync] *)
  loadAsync : string -> outcome JSZip;
  (** [html2canvas] at scale 2, on a container of the given inner HTML and
      CSS width: the width and height of the canvas *)
  html2canvas : string -> Q -> outcome (N * N);
  (** [pdf.splitTextToSize] in 12-point Courier *)
  splitTextToSize : string -> Q -> list string
}.

(* ================================================================= *)
(** ** The image converter *)

Definition MAX_DIMENSION : Q := 4096.

Definition floorQ (q : Q) : Q := inject_Z (Qfloor q).
Definition ceilQ (q : Q) : Q := inject_Z (Qceiling q).

Definition Qleb (a b : Q) : bool := Qle_bool a b.
Definition Qltb (a b : Q) : bool := negb (Qle_bool b a).

(** Evaluated exactly.  The engine's value is [Binary64.constrainDimensions]:
    it is 4095 on the longer side where the product of the side and the
    ratio falls just below 4096. *)
Definition constrainDimensions (w h : Q) : Dimensions :=
  if Qleb w MAX_DIMENSION && Qleb h MAX_DIMENSION then mkDim w h
  else
    let ratio := Qmin (MAX_DIMENSION / w) (MAX_DIMENSION / h) in
    mkDim (floorQ (w * ratio)) (floorQ (h * ratio)).

(** [imageToCanvas]: the canvas has the constrained dimensions; a missing
    2-D context throws. *)
Definition imageToCanvas (host : Host) (img : N * N) : Run Dimensions :=
  let d := constrainDimensions (ofN (fst img)) (ofN (snd img)) in
  if getContext2d host (width d) (height d) then ret d
  else throw "Failed to get canvas context".

Record Placement := mkPlacement {
  px : Q;
  py : Q;
  pwidth : Q;
  pheight : Q
}.

(** Evaluated exactly, for an image and a content box with positive
    sides.  The engine's value is [Binary64.calculatePlacement]. *)
Definition calculatePlacement (imgWidth imgHeight pageWidth pageHeight margin : Q)
    : Placement :=
  let availWidth := pageWidth - margin * 2 in
  let availHeight := pageHeight - margin * 2 in
  let imgRatio := imgWidth / imgHeight in
  let pageRatio := availWidth / availHeight in
  let (w, h) :=
    if Qltb pageRatio imgRatio
    then (availWidth, availWidth / imgRatio)
    else (availHeight * imgRatio, availHeight) in
  let x := margin + (availWidth - w) / 2 in
  let y := margin + (availHeight - h) / 2 in
  mkPlacement x y w h.

(** The page of one image: the paper size, or in fit mode the image's
    ratio on a 297 mm long side plus the margins (for a canvas with
    positive sides). *)
Definition imagePage (options : ConversionOptions) (canvas : Dimensions) : Dimensions :=
  let pageSize0 := PAGE_SIZES (pageSize options) in
  match pageSize options with
  | fit =>
      let imgRatio := width canvas / height canvas in
      let (pageW, pageH) :=
        if Qltb 1 imgRatio then (297, 297 / imgRatio)
        else (297 * imgRatio, 297) in
      mkDim (pageW + margin options * 2) (pageH + margin options * 2)
  | _ => pageSize0
  end.

Definition imageFormat (options : ConversionOptions) (page : Dimensions) : PageFormat :=
  match pageSize options with
  | fit => FormatCustom (width page) (height page)
  | A4 => FormatA4
  | letter => FormatLetter
  end.

(** The body of the [for] loop of [imagesToPdf], from index [i] on. *)
Fixpoint imagesLoop (host : Host) (options : ConversionOptions)
    (onProgress : Callback) (n i : nat) (files : list File)
    (pdf : option jsPDF) : Run (option jsPDF) :=
  match files with
  | [] => ret pdf
  | file :: rest =>
      onProgress (ofNat i / ofNat n * 100) ;;;
      dataUrl <- await (readAsDataURL host file) ;;
      img <- await (loadImage host dataUrl) ;;
      canvas <- imageToCanvas host img ;;
      let page := imagePage options canvas in
      let orientation :=
        if Qltb (height page) (width page) then landscape else portrait in
      pdf1 <-
        (if Nat.eqb i 0 then ret (newPdf orientation (imageFormat options page))
         else match pdf with
              | Some doc =>
                  ret (addPage (Some (imageFormat options page)) (Some orientation) doc)
              | None => throw "Cannot read properties of null (reading 'addPage')"
              end) ;;
      let pl := calculatePlacement (width canvas) (height canvas)
                  (width page) (height page) (margin options) in
      let pdf2 := addImage (px pl) (py pl) (pwidth pl) (pheight pl) pdf1 in
      imagesLoop host options onProgress n (S i) rest (Some pdf2)
  end.

Definition imagesToPdf (host : Host) (files : list File)
    (options : ConversionOptions) (onProgress : Callback) : Run ConversionResult :=
  match files with
  | [] => throw "No images to convert"
  | _ =>
      pdf <- imagesLoop host options onProgress (List.length files) O files None ;;
      onProgress 100 ;;;
      match pdf with
      | Some doc =>
          ret (mkResult doc "converted-images.pdf" (Z.of_nat (List.length files)))
      | None => throw "Cannot read properties of null (reading 'output')"
      end
  end.

Definition imageToPdf (host : Host) (file : File)
    (options : ConversionOptions) (onProgress : Callback) : Run ConversionResult :=
  imagesToPdf host [file] options onProgress.

(* ================================================================= *)
(** ** The plain-text converter *)

Definition FONT_SIZE : Q := 12.
Definition LINE_HEIGHT : Q := 6.

(** The variables of the line loop: the document, the page counter and
    the vertical position. *)
Record TextState := mkTextState {
  doc : jsPDF;
  currentPage : nat;
  y : Q
}.

(** One pass of the line loop without its progress report: a page break
    when the line would pass the bottom margin, then the line at the
    baseline [y + LINE_HEIGHT]. *)
Definition placeLine (options : ConversionOptions) (line : string)
    (st : TextState) : TextState :=
  let pageSize0 := PAGE_SIZES (pageSize options) in
  let st1 :=
    if Qltb (height pageSize0 - margin options) (y st + LINE_HEIGHT)
    then mkTextState (addPage None None (doc st)) (S (currentPage st)) (margin options)
    else st in
  mkTextState
    (drawText line (margin options) (y st1 + LINE_HEIGHT) (doc st1))
    (currentPage st1)
    (y st1 + LINE_HEIGHT).

(** The [for] loop of [textToPdf], from index [i] on. *)
Fixpoint textLoop (options : ConversionOptions) (onProgress : Callback)
    (totalLines i : nat) (lines : list string) (st : TextState) : Run TextState :=
  match lines with
  | [] => ret st
  | line :: rest =>
      let st1 := placeLine options line st in
      (if Nat.eqb (i mod 50) 0
       then onProgress (50 + ofNat i / ofNat totalLines * 50)
       else ret tt) ;;;
      textLoop options onProgress totalLines (S i) rest st1
  end.

(** [linesPerPage] and [totalPages] are evaluated exactly here; the
    engine's values are [Binary64.linesPerPage] and [Binary64.totalPages],
    which differ at margins where the content height is a whole multiple
    of the line height only in exact arithmetic. *)
Definition textToPdf (host : Host) (file : File)
    (options : ConversionOptions) (onProgress : Callback) : Run ConversionResult :=
  onProgress 10 ;;;
  text <- await (readAsText host file) ;;
  onProgress 30 ;;;
  let pageSize0 := PAGE_SIZES (pageSize options) in
  let contentWidth := width pageSize0 - margin options * 2 in
  let contentHeight := height pageSize0 - margin options * 2 in
  let linesPerPage := floorQ (contentHeight / LINE_HEIGHT) in
  let pdf := setFont false (newPdf portrait (paperFormat options)) in
  let lines := splitTextToSize host text contentWidth in
  let totalLines := List.length lines in
  let totalPages := Qceiling (ofNat totalLines / linesPerPage) in
  onProgress 50 ;;;
  st <- textLoop options onProgress totalLines O lines
          (mkTextState pdf 1 (margin options)) ;;
  onProgress 100 ;;;
  ret (mkResult (doc st) (stripExtension (name file) ++ ".pdf") totalPages).

(** The inner [for ... of] loop of [textsToSinglePdf]. *)
Fixpoint textsLines (options : ConversionOptions) (lines : list string)
    (st : TextState) : TextState :=
  match lines with
  | [] => st
  | line :: rest => textsLines options rest (placeLine options line st)
  end.

(** The outer loop of [textsToSinglePdf], from index [fileIndex] on;
    [currentPage] holds [totalPages]. *)
Fixpoint textsLoop (host : Host) (options : ConversionOptions)
    (onProgress : Callback) (n fileIndex : nat) (files : list File)
    (isFirstFile : bool) (st : TextState) : Run TextState :=
  match files with
  | [] => ret st
  | file :: rest =>
      text <- await (readAsText host file) ;;
      let contentWidth := width (PAGE_SIZES (pageSize options)) - margin options * 2 in
      let lines := splitTextToSize host text contentWidth in
      onProgress (ofNat fileIndex / ofNat n * 100) ;;;
      let st1 :=
        if negb isFirstFile
        then mkTextState (addPage None None (doc st)) (S (currentPage st)) (margin options)
        else st in
      let header :=
        setFont false
          (drawText ("=== " ++ name file ++ " ===") (margin options)
             (y st1 + LINE_HEIGHT) (setFont true (doc st1))) in
      let st2 := mkTextState header (currentPage st1) (y st1 + LINE_HEIGHT * 2) in
      textsLoop host options onProgress n (S fileIndex) rest false
        (textsLines options lines st2)
  end.

Definition textsToSinglePdf (host : Host) (files : list File)
    (options : ConversionOptions) (onProgress : Callback) : Run ConversionResult :=
  match files with
  | [] => throw "No files to convert"
  | _ =>
      let pdf := setFont false (newPdf portrait (paperFormat options)) in
      st <- textsLoop host options onProgress (List.length files) O files true
              (mkTextState pdf 1 (margin options)) ;;
      onProgress 100 ;;;
      ret (mkResult (doc st) "converted-texts.pdf" (Z.of_nat (currentPage st)))
  end.

(* ================================================================= *)
(** ** The HTML and Markdown converter *)

(** Pixels per millimetre at 96 DPI. *)
Definition PX_PER_MM : Q := 96 / (254 # 10).

Definition BASE_STYLE : string :=
  "<style>
      h1 { font-size: 24px; margin: 0 0 16px; color: #111; }
      h2 { font-size: 20px; margin: 16px 0 12px; color: #222; }
      h3 { font-size: 16px; margin: 12px 0 8px; color: #333; }
      p { margin: 0 0 12px; }
      ul, ol { margin: 0 0 12px; padding-left: 24px; }
      li { margin: 4px 0; }
      code { background: #f4f4f4; padding: 2px 6px; border-radius: 3px; font-family: 'Consolas', monospace; }
      pre { background: #f4f4f4; padding: 12px; border-radius: 4px; overflow-x: auto; }
      pre code { padding: 0; background: none; }
      a { color: #0066cc; text-decoration: underline; }
      blockquote { margin: 0 0 12px; padding-left: 16px; border-left: 3px solid #ddd; color: #666; }
    </style>
    ".

(** The off-screen container: its inner HTML and its CSS width.  It is
    attached to the document body before rasterization and removed on
    both exits of the [try]; the body is not part of the embedding.  The
    template literal of the source puts a line break and blanks before
    the style block and after the content; the inner HTML is written here
    without that white space, which the rasterizer does not render. *)
Definition createRenderContainer (html_ : string) (w : Q) : string * Q :=
  (BASE_STYLE ++ html_, w).

Definition isMarkdownName (file : File) : bool :=
  endsWith (name file) ".md" || endsWith (name file) ".markdown".

(** The strip of the canvas that goes on page [page]: the height of the
    page canvas, which the canvas keeps as an integer (the value is
    positive). *)
Definition stripHeight (canvas : N * N) (contentHeightPx : Q) (page : nat) : Q :=
  floorQ (Qmin contentHeightPx (ofN (snd canvas) - ofNat page * contentHeightPx)).

(** The page loop of [htmlToPdf]: [k] pages remain from index [page] on. *)
Fixpoint htmlPages (host : Host) (options : ConversionOptions)
    (onProgress : Callback) (canvas : N * N) (contentWidthMm contentHeightPx : Q)
    (totalPages : Z) (k page : nat) (pdf : jsPDF) : Run jsPDF :=
  match k with
  | O => ret pdf
  | S k' =>
      let pdf1 := if Nat.ltb 0 page then addPage None None pdf else pdf in
      let w := ofN (fst canvas) in
      let h := stripHeight canvas contentHeightPx page in
      if getContext2d host w h then
        let imgHeight := h / w * contentWidthMm in
        let pdf2 := addImage (margin options) (margin options)
                      contentWidthMm imgHeight pdf1 in
        onProgress (70 + ofNat page / inject_Z totalPages * 30) ;;;
        htmlPages host options onProgress canvas contentWidthMm contentHeightPx
          totalPages k' (S page) pdf2
      else throw "Failed to get canvas context"
  end.

(** [totalPages] is evaluated exactly here; where the height of the
    canvas is a whole multiple of the content height the engine's
    quotient can fall on the other side of the whole number. *)
Definition htmlToPdf (host : Host) (file : File)
    (options : ConversionOptions) (onProgress : Callback) : Run ConversionResult :=
  onProgress 10 ;;;
  content <- await (readAsText host file) ;;
  onProgress 20 ;;;
  let html_ := if isMarkdownName file then markdownToHtml content else content in
  let pageSize0 := PAGE_SIZES (pageSize options) in
  let contentWidthMm := width pageSize0 - margin options * 2 in
  let contentWidthPx := contentWidthMm * PX_PER_MM in
  let container := createRenderContainer html_ contentWidthPx in
  onProgress 40 ;;;
  canvas <- await (html2canvas host (fst container) (snd container)) ;;
  onProgress 70 ;;;
  let contentHeightMm := height pageSize0 - margin options * 2 in
  let contentHeightPx := contentHeightMm * PX_PER_MM * 2 in
  let totalPages := Qceiling (ofN (snd canvas) / contentHeightPx) in
  let pdf := newPdf portrait (paperFormat options) in
  pdf' <- htmlPages host options onProgress canvas contentWidthMm contentHeightPx
            totalPages (Z.to_nat totalPages) O pdf ;;
  onProgress 100 ;;;
  ret (mkResult pdf' (stripExtension (name file) ++ ".pdf") totalPages).

(** The variables of the loops of [htmlsToSinglePdf]. *)
Record HtmlsState := mkHtmlsState {
  hpdf : option jsPDF;
  htotalPages : nat
}.

(** The page loop of [htmlsToSinglePdf]. *)
Fixpoint htmlsPages (host : Host) (options : ConversionOptions)
    (canvas : N * N) (contentWidthMm contentHeightPx : Q)
    (k page : nat) (st : HtmlsState) : Run HtmlsState :=
  match k with
  | O => ret st
  | S k' =>
      let pdf1 :=
        match hpdf st with
        | None => newPdf portrait (paperFormat options)
        | Some d => addPage None None d
        end in
      let w := ofN (fst canvas) in
      let h := stripHeight canvas contentHeightPx page in
      if getContext2d host w h then
        let imgHeight := h / w * contentWidthMm in
        let pdf2 := addImage (margin options) (margin options)
                      contentWidthMm imgHeight pdf1 in
        htmlsPages host options canvas contentWidthMm contentHeightPx
          k' (S page) (mkHtmlsState (Some pdf2) (S (htotalPages st)))
      else throw "Failed to get canvas context"
  end.

(** The file loop of [htmlsToSinglePdf], from index [fileIndex] on. *)
Fixpoint htmlsLoop (host : Host) (options : ConversionOptions)
    (onProgress : Callback) (n fileIndex : nat) (files : list File)
    (st : HtmlsState) : Run HtmlsState :=
  match files with
  | [] => ret st
  | file :: rest =>
      let pageSize0 := PAGE_SIZES (pageSize options) in
      let contentWidthMm := width pageSize0 - margin options * 2 in
      let contentWidthPx := contentWidthMm * PX_PER_MM in
      let contentHeightMm := height pageSize0 - margin options * 2 in
      let contentHeightPx := contentHeightMm * PX_PER_MM * 2 in
      content <- await (readAsText host file) ;;
      let html_ := if isMarkdownName file then markdownToHtml content else content in
      let container := createRenderContainer html_ contentWidthPx in
      canvas <- await (html2canvas host (fst container) (snd container)) ;;
      let fileTotalPages := Qceiling (ofN (snd canvas) / contentHeightPx) in
      st1 <- htmlsPages host options canvas contentWidthMm contentHeightPx
               (Z.to_nat fileTotalPages) O st ;;
      onProgress (ofNat (fileIndex + 1) / ofNat n * 100) ;;;
      htmlsLoop host options onProgress n (S fileIndex) rest st1
  end.

Definition htmlsToSinglePdf (host : Host) (files : list File)
    (options : ConversionOptions) (onProgress : Callback) : Run ConversionResult :=
  match files with
  | [] => throw "No files to convert"
  | _ =>
      st <- htmlsLoop host options onProgress (List.length files) O files
              (mkHtmlsState None O) ;;
      onProgress 100 ;;;
      match hpdf st with
      | Some d =>
          ret (mkResult d "converted-documents.pdf" (Z.of_nat (htotalPages st)))
      | None => throw "Cannot read properties of null (reading 'output')"
      end
  end.

(* ================================================================= *)
(** ** The DOCX converter *)

(** [/<[^:>]+:/g] replaced by [<]. *)
Definition nsOpen : Matcher :=
  fun _ s =>
    if startsWith "<" s then
      let r := dropChars 1 s in
      let run := spanWhile (fun c => notChar ":" c && notChar ">" c) r in
      if negb (String.eqb run EmptyString)
         && startsWith ":" (dropChars (String.length run) r)
      then Some ((String.length run + 2)%nat, "<")
      else None
    else None.

(** [/<\/[^:>]+:/g] replaced by [</]. *)
Definition nsClose : Matcher :=
  fun _ s =>
    if startsWith "</" s then
      let r := dropChars 2 s in
      let run := spanWhile (fun c => notChar ":" c && notChar ">" c) r in
      if negb (String.eqb run EmptyString)
         && startsWith ":" (dropChars (String.length run) r)
      then Some ((String.length run + 3)%nat, "</")
      else None
    else None.

(** [<tag[^>]*>], the opening of an element whose name begins with [tag]:
    the number of code units it takes. *)
Definition openTag (tag : string) (s : string) : option nat :=
  if startsWith ("<" ++ tag) s then
    let r := dropChars (S (String.length tag)) s in
    let attrs := spanWhile (notChar ">") r in
    if startsWith ">" (dropChars (String.length attrs) r)
    then Some (String.length tag + String.length attrs + 2)%nat
    else None
  else None.

(** [/<p[^>]*>[\s\S]*?<\/p>/g] *)
Definition paragraph : Matcher :=
  fun _ s =>
    match openTag "p" s with
    | Some n =>
        match lazyUntil true "</p>" (dropChars n s) with
        | Some body => Some ((n + String.length body + 4)%nat, EmptyString)
        | None => None
        end
    | None => None
    end.

(** The text-run expression, global: [<t[^>]*>], a group of [[^<]] zero
    or more times, then [</t>]. *)
Definition textRun : Matcher :=
  fun _ s =>
    match openTag "t" s with
    | Some n =>
        let body := spanWhile (notChar "<") (dropChars n s) in
        if startsWith "</t>" (dropChars (n + String.length body) s)
        then Some ((n + String.length body + 4)%nat, EmptyString)
        else None
    | None => None
    end.

(** [/<t[^>]*>/] replaced by the empty string. *)
Definition tOpen : Matcher :=
  fun _ s =>
    match openTag "t" s with
    | Some n => Some (n, EmptyString)
    | None => None
    end.

Fixpoint trimStart (s : string) : string :=
  match s with
  | EmptyString => EmptyString
  | String c r => if isSpace c then trimStart r else s
  end.

Fixpoint revString (acc s : string) : string :=
  match s with
  | EmptyString => acc
  | String c r => revString (String c acc) r
  end.

(** [s.trim()] *)
Definition trim (s : string) : string :=
  revString EmptyString (trimStart (revString EmptyString (trimStart s))).

Definition extractTextFromXml (xml : string) : string :=
  let cleanXml := replaceAll nsClose (replaceAll nsOpen xml) in
  let pMatches := matchAll paragraph cleanXml in
  let paragraphs :=
    map (fun pMatch =>
           let textMatches := matchAll textRun pMatch in
           let paragraphText :=
             join EmptyString
               (map (fun t => replaceOnce (literal "</t>" EmptyString)
                                (replaceOnce tOpen t))
                    textMatches) in
           if negb (String.eqb (trim paragraphText) EmptyString)
           then paragraphText else EmptyString)
        pMatches in
  join nl paragraphs.

(** [/\.(png|jpg|jpeg|gif|webp)$/i.test(name)] *)
Definition hasRasterExtension (path : string) : bool :=
  let p := toLowerCase path in
  endsWith p ".png" || endsWith p ".jpg" || endsWith p ".jpeg"
  || endsWith p ".gif" || endsWith p ".webp".

(** [zip.file(path)] *)
Fixpoint zipFile (path : string) (zip : JSZip) : option ZipObject :=
  match zip with
  | [] => None
  | (k, v) :: rest => if String.eqb k path then Some v else zipFile path rest
  end.

(** [extractImages]: the map from path to data URL, in insertion order; an
    entry whose decoding fails is skipped.  [zip.folder] always yields a
    folder object, so the early return for a missing folder is never
    taken. *)
Definition extractImages (zip : JSZip) : list (string * string) :=
  let imageFiles :=
    filter (fun p => startsWith "word/media/" p && hasRasterExtension p)
           (map fst zip) in
  flat_map
    (fun imagePath =>
       match zipFile imagePath zip with
       | Some file =>
           match asBase64 file with
           | Ok data =>
               let ext0 := match pop (split "." imagePath) with
                           | Some seg => toLowerCase seg
                           | None => EmptyString
                           end in
               let ext := if String.eqb ext0 EmptyString then "png" else ext0 in
               let mimeType := if String.eqb ext "jpg" then "jpeg" else ext in
               [(imagePath, "data:image/" ++ mimeType ++ ";base64," ++ data)]
           | Throw _ => []
           end
       | None => []
       end)
    imageFiles.

Definition contentToHtml (text_ : string) (images : list (string * string)) : string :=
  let escaped :=
    replaceAll (literal ">" "&gt;")
      (replaceAll (literal "<" "&lt;")
         (replaceAll (literal "&" "&amp;") text_)) in
  let html0 :=
    join nl
      (map (fun line =>
              "<p>" ++ (if String.eqb line EmptyString then "&nbsp;" else line) ++ "</p>")
           (split LF escaped)) in
  match images with
  | [] => html0
  | _ =>
      html0 ++ "<div style=" ++ dquote ++ "margin-top: 24px;" ++ dquote ++ ">"
      ++ "<h3>Extracted Images</h3>"
      ++ join EmptyString
           (map (fun kv =>
                   "<img src=" ++ dquote ++ snd kv ++ dquote
                   ++ " style=" ++ dquote ++ "max-width: 100%; margin: 8px 0;" ++ dquote
                   ++ " alt=" ++ dquote ++ "Extracted image" ++ dquote ++ " />")
                images)
      ++ "</div>"
  end.

(** The byte length of the UTF-8 encoding. *)
Fixpoint utf8Length (s : string) : N :=
  match s with
  | EmptyString => 0%N
  | String c r => ((if (asciiN c <? 128)%N then 1 else 2) + utf8Length r)%N
  end.

(** [new File([new Blob([html], ...)], name, { type: 'text/html' })] *)
Definition htmlFileOf (html_ fileName : string) : File :=
  mkFile fileName "text/html" (utf8Length html_) html_.

Definition docxToPdf (host : Host) (file : File)
    (options : ConversionOptions) (onProgress : Callback) : Run ConversionResult :=
  onProgress 10 ;;;
  arrayBuffer <- await (readAsArrayBuffer host file) ;;
  onProgress 20 ;;;
  zip <- await (loadAsync host arrayBuffer) ;;
  onProgress 30 ;;;
  match zipFile "word/document.xml" zip with
  | None => throw "Invalid DOCX file: missing document.xml"
  | Some documentXml =>
      xmlContent <- await (asString documentXml) ;;
      onProgress 40 ;;;
      let text_ := extractTextFromXml xmlContent in
      onProgress 50 ;;;
      let images := extractImages zip in
      onProgress 60 ;;;
      let html_ := contentToHtml text_ images in
      let htmlFile := htmlFileOf html_ (replaceFirst ".docx" ".html" (name file)) in
      res <- htmlToPdf host htmlFile options
               (fun progress => onProgress (60 + progress * (4 # 10))) ;;
      ret (mkResult (blob res) (replaceFirst ".docx" ".pdf" (name file)) (pageCount res))
  end.

(** The [for] loop of [docxsToSinglePdf], from index [i] on. *)
Fixpoint docxsLoop (host : Host) (onProgress : Callback) (n i : nat)
    (files : list File) (allHtmlParts : list string) : Run (list string) :=
  match files with
  | [] => ret allHtmlParts
  | file :: rest =>
      onProgress (ofNat i / ofNat n * 50) ;;;
      arrayBuffer <- await (readAsArrayBuffer host file) ;;
      zip <- await (loadAsync host arrayBuffer) ;;
      match zipFile "word/document.xml" zip with
      | None => docxsLoop host onProgress n (S i) rest allHtmlParts
      | Some documentXml =>
          xmlContent <- await (asString documentXml) ;;
          let text_ := extractTextFromXml xmlContent in
          let images := extractImages zip in
          docxsLoop host onProgress n (S i) rest
            (List.app allHtmlParts
               [ "<h1 style=" ++ dquote
                 ++ "border-bottom: 2px solid #ddd; padding-bottom: 8px;"
                 ++ dquote ++ ">" ++ name file ++ "</h1>";
                 contentToHtml text_ images;
                 "<div style=" ++ dquote ++ "page-break-after: always;"
                 ++ dquote ++ "></div>" ])
      end
  end.

Definition docxsToSinglePdf (host : Host) (files : list File)
    (options : ConversionOptions) (onProgress : Callback) : Run ConversionResult :=
  match files with
  | [] => throw "No files to convert"
  | _ =>
      allHtmlParts <- docxsLoop host onProgress (List.length files) O files [] ;;
      onProgress 50 ;;;
      let combinedHtml := join nl allHtmlParts in
      let htmlFile := htmlFileOf combinedHtml "combined.html" in
      res <- htmlToPdf host htmlFile options
               (fun progress => onProgress (50 + progress * (5 # 10))) ;;
      ret (mkResult (blob res) "converted-documents.pdf" (pageCount res))
  end.

(* ================================================================= *)
(** ** hooks/useFileConverter.ts: the orchestrator *)

Module Hook.

Inductive ConversionStatus := pending | converting | done | failed.

Record ConvertibleFile := mkConvertible {
  id : string;
  file : File;
  ftype : FileType;
  preview : option string;
  status : ConversionStatus;
  progress : Q
}.

Record FileConverterState := mkState {
  files : list ConvertibleFile;
  isConverting : bool;
  overallProgress : Q;
  result : option ConversionResult;
  error : option string
}.

(** [new Set(...)]: the distinct values in order of first insertion. *)
Fixpoint setAdd (t : FileType) (s : list FileType) : list FileType :=
  match s with
  | [] => [t]
  | u :: r => if FileType_eqb u t then s else u :: setAdd t r
  end.

Definition typeSet (fs : list ConvertibleFile) : list FileType :=
  fold_left (fun s f => setAdd (ftype f) s) fs [].

Definition filesOfType (p : FileType -> bool) (fs : list ConvertibleFile) : list File :=
  map file (filter (fun f => p (ftype f)) fs).

Definition isHtmlLike (t : FileType) : bool :=
  FileType_eqb t html || FileType_eqb t markdown.

(** The body of the [try] block of [convert]: the converter chosen for
    the queue, run with the callback that stores the overall progress. *)
Definition dispatch (host : Host) (fs : list ConvertibleFile)
    (options : ConversionOptions) (onProgress : Callback) : Run ConversionResult :=
  let imageFiles := filesOfType (FileType_eqb image) fs in
  let textFiles := filesOfType (FileType_eqb text) fs in
  let htmlFiles := filesOfType isHtmlLike fs in
  let docxFiles := filesOfType (FileType_eqb docx) fs in
  match typeSet fs with
  | [t] =>
      match t with
      | image => imagesToPdf host imageFiles options onProgress
      | text =>
          match textFiles with
          | [f] => textToPdf host f options onProgress
          | _ => textsToSinglePdf host textFiles options onProgress
          end
      | html | markdown =>
          match htmlFiles with
          | [f] => htmlToPdf host f options onProgress
          | _ => htmlsToSinglePdf host htmlFiles options onProgress
          end
      | docx =>
          match docxFiles with
          | [f] => docxToPdf host f options onProgress
          | _ => docxsToSinglePdf host docxFiles options onProgress
          end
      | unknown => throw "Unsupported file type"
      end
  | _ =>
      if Nat.ltb 0 (List.length imageFiles) then
        imagesToPdf host imageFiles options onProgress
      else if Nat.ltb 0 (List.length textFiles) then
        textsToSinglePdf host textFiles options onProgress
      else if Nat.ltb 0 (List.length htmlFiles) then
        htmlsToSinglePdf host htmlFiles options onProgress
      else
        docxsToSinglePdf host docxFiles options onProgress
  end.

Definition setStatus (s : ConversionStatus) (p : option Q) (f : ConvertibleFile)
    : ConvertibleFile :=
  mkConvertible (id f) (file f) (ftype f) (preview f) s
    (match p with Some q => q | None => progress f end).

(** [convert]: the values passed to the progress callback, in order, and
    the state when the promise settles.  The overall progress is 0 when
    the run starts, then the last value reported, and 100 after a
    successful run. *)
Definition convert (host : Host) (state : FileConverterState)
    (options : ConversionOptions) : list Q * FileConverterState :=
  match files state with
  | [] =>
      ([], mkState (files state) (isConverting state) (overallProgress state)
             (result state) (Some "No files to convert"))
  | _ =>
      match dispatch host (files state) options report with
      | (t, Ok res) =>
          (t, mkState (map (setStatus done (Some 100)) (files state))
                false 100 (Some res) None)
      | (t, Throw msg) =>
          (t, mkState (map (setStatus failed None) (files state))
                false (last t 0) None (Some msg))
      end
  end.

End Hook.

(* ================================================================= *)
(** ** hooks/useFileConverter.ts: the queue *)

(** [generateId] draws on [Math.random]; the identifier given to the file
    at each position of a dropped list is a parameter, [ids]. *)
Fixpoint convertibleFiles (host : Host) (ids : nat -> string) (k : nat)
    (newFiles : list File) : list Hook.ConvertibleFile :=
  match newFiles with
  | [] => []
  | file :: rest =>
      let t := detectFileType file in
      let preview :=
        if isImageFile t then
          match readAsDataURL host file with
          | Ok url => Some url
          | Throw _ => None
          end
        else None in
      Hook.mkConvertible (ids k) file t preview Hook.pending 0
      :: convertibleFiles host ids (S k) rest
  end.

(** [addFiles]: the state once the promise settles. *)
Definition addFiles (host : Host) (ids : nat -> string)
    (state : Hook.FileConverterState) (fileList : list File)
    : Hook.FileConverterState :=
  let validation := validateFiles fileList in
  if negb (valid validation) then
    Hook.mkState (Hook.files state) (Hook.isConverting state)
      (Hook.overallProgress state) (Hook.result state)
      (Some match error validation with
            | Some e => if String.eqb e EmptyString then "Validation failed" else e
            | None => "Validation failed"
            end)
  else
    Hook.mkState
      (Hook.files state ++ convertibleFiles host ids O fileList)%list
      (Hook.isConverting state) (Hook.overallProgress state) None None.

Definition removeFile (state : Hook.FileConverterState) (ident : string)
    : Hook.FileConverterState :=
  Hook.mkState
    (filter (fun f => negb (String.eqb (Hook.id f) ident)) (Hook.files state))
    (Hook.isConverting state) (Hook.overallProgress state)
    (Hook.result state) (Hook.error state).

Definition clearFiles (state : Hook.FileConverterState) : Hook.FileConverterState :=
  Hook.mkState [] (Hook.isConverting state) (Hook.overallProgress state) None None.

(** A [FileType] inside a template literal. *)
Definition typeName (t : FileType) : string :=
  match t with
  | image => "image"
  | text => "text"
  | html => "html"
  | markdown => "markdown"
  | docx => "docx"
  | unknown => "unknown"
  end.

Definition getSuggestion (state : Hook.FileConverterState) : string :=
  match Hook.files state with
  | [] => EmptyString
  | _ =>
      let types := Hook.typeSet (Hook.files state) in
      let fileCount := List.length (Hook.files state) in
      let plural := if Nat.ltb 1 fileCount then "s" else EmptyString in
      match types with
      | [t] =>
          if FileType_eqb t image then
            "Convert " ++ showN (N.of_nat fileCount) ++ " image" ++ plural
            ++ " to multi-page PDF"
          else
            "Convert " ++ showN (N.of_nat fileCount) ++ " " ++ typeName t
            ++ " file" ++ plural ++ " to PDF"
      | _ =>
          "Convert " ++ showN (N.of_nat fileCount) ++ " files (mixed types) to PDF"
      end
  end.

(** The state of the hook before any file is added. *)
Definition initialState : Hook.FileConverterState :=
  Hook.mkState [] false 0 None None.

(* ================================================================= *)
(** ** The numeric kernels in binary64

    The functions below are the arithmetic of the converters as the engine
    evaluates it: the same operations in the same order, on the kernel's
    binary64 numbers.  They run by computation. *)

Module Binary64.

Local Open Scope float_scope.

(** A whole number as a [number]; exact below 2^53. *)
Definition ofZ (z : Z) : float :=
  match z with
  | Z0 => 0
  | Zpos _ => of_uint63 (Uint63.of_Z z)
  | Zneg _ => - of_uint63 (Uint63.of_Z (- z))
  end.

Definition ofN (n : N) : float := ofZ (Z.of_N n).
Definition ofNat (n : nat) : float := ofZ (Z.of_nat n).

(** The rational that a finite number is. *)
Definition exact (x : float) : option Q :=
  match Prim2SF x with
  | S754_zero _ => Some 0%Q
  | S754_finite s m e =>
      let v := (inject_Z (Zpos m) * Qpower 2 e)%Q in
      Some (if s then Qopp v else v)
  | _ => None
  end.

(** [Number.isFinite] *)
Definition isFinite (x : float) : bool :=
  match Prim2SF x with
  | S754_zero _ | S754_finite _ _ _ => true
  | _ => false
  end.

(** [Math.floor]: the greatest whole number not above [x] (a zero result
    is written without its sign). *)
Definition floor (x : float) : float :=
  match Prim2SF x with
  | S754_finite s m e =>
      if (0 <=? e)%Z then x
      else
        let d := (2 ^ (- e))%Z in
        if s then ofZ (- ((Zpos m + d - 1) / d)) else ofZ (Zpos m / d)
  | _ => x
  end.

(** [Math.ceil]: the least whole number not below [x]. *)
Definition ceil (x : float) : float :=
  match Prim2SF x with
  | S754_finite s m e =>
      if (0 <=? e)%Z then x
      else
        let d := (2 ^ (- e))%Z in
        if s then ofZ (- (Zpos m / d)) else ofZ ((Zpos m + d - 1) / d)
  | _ => x
  end.

(** [Math.min] of two numbers. *)
Definition min (a b : float) : float :=
  if is_nan a then a else if is_nan b then b
  else if a <? b then a else b.

Record Dimensions := mkDim {
  width : float;
  height : float
}.

Definition PAGE_SIZES (p : PageSizeName) : Dimensions :=
  match p with
  | A4 => mkDim 210 297
  | letter => mkDim 215.9 279.4
  | fit => mkDim 210 297
  end.

(** *** The image converter *)

Definition MAX_DIMENSION : float := 4096.

Definition constrainDimensions (w h : float) : Dimensions :=
  if (w <=? MAX_DIMENSION) && (h <=? MAX_DIMENSION) then mkDim w h
  else
    let ratio := min (MAX_DIMENSION / w) (MAX_DIMENSION / h) in
    mkDim (floor (w * ratio)) (floor (h * ratio)).

Record Placement := mkPlacement {
  px : float;
  py : float;
  pwidth : float;
  pheight : float
}.

Definition calculatePlacement (imgWidth imgHeight pageWidth pageHeight margin : float)
    : Placement :=
  let availWidth := pageWidth - margin * 2 in
  let availHeight := pageHeight - margin * 2 in
  let imgRatio := imgWidth / imgHeight in
  let pageRatio := availWidth / availHeight in
  let (w, h) :=
    if pageRatio <? imgRatio
    then (availWidth, availWidth / imgRatio)
    else (availHeight * imgRatio, availHeight) in
  let x := margin + (availWidth - w) / 2 in
  let y := margin + (availHeight - h) / 2 in
  mkPlacement x y w h.

(** *** The plain-text converter *)

Definition LINE_HEIGHT : float := 6.

(** [linesPerPage] and [totalPages] of [textToPdf]. *)
Definition linesPerPage (pageSize : PageSizeName) (margin : float) : float :=
  floor ((height (PAGE_SIZES pageSize) - margin * 2) / LINE_HEIGHT).

Definition totalPages (pageSize : PageSizeName) (margin : float) (totalLines : nat)
    : float :=
  ceil (ofNat totalLines / linesPerPage pageSize margin).

(** The variables of the line loop that decide the page breaks. *)
Record LineState := mkLineState {
  currentPage : nat;
  y : float
}.

(** One pass of the line loop: the page break, then the advance. *)
Definition placeLine (pageSize : PageSizeName) (margin : float) (st : LineState)
    : LineState :=
  let st1 :=
    if height (PAGE_SIZES pageSize) - margin <? y st + LINE_HEIGHT
    then mkLineState (S (currentPage st)) margin
    else st in
  mkLineState (currentPage st1) (y st1 + LINE_HEIGHT).

(** The line loop on [totalLines] lines. *)
Fixpoint lineLoop (pageSize : PageSizeName) (margin : float) (totalLines : nat)
    (st : LineState) : LineState :=
  match totalLines with
  | O => st
  | S k => lineLoop pageSize margin k (placeLine pageSize margin st)
  end.

End Binary64.

(* ================================================================= *)
(** ** Vocabulary of the statements *)

(** A callback that returns normally. *)
Definition quiet (cb : Callback) : Prop :=
  forall p, outcomeOf (cb p) = Ok tt.

(** [pat] occurs in [s]. *)
Fixpoint occurs (pat s : string) : bool :=
  startsWith pat s ||
  match s with
  | EmptyString => false
  | String _ r => occurs pat r
  end.

(** The archive of [f] opens and has no entry [word/document.xml]. *)
Definition lacksDocument (host : Host) (f : File) : Prop :=
  exists buf zip,
    readAsArrayBuffer host f = Ok buf
    /\ loadAsync host buf = Ok zip
    /\ zipFile "word/document.xml" zip = None.

(** A queue entry as [addFiles] creates it, with a given identifier. *)
Definition queued (ident : string) (f : File) : Hook.ConvertibleFile :=
  Hook.mkConvertible ident f (detectFileType f) None Hook.pending 0.

(** A host on which every operation succeeds: files read back as their
    content, images decode to 800 by 600, the archive holds the main
    document only, the rasterized fragment is 1436 by 3000 pixels and text
    is split at line feeds. *)
Definition sampleHost : Host :=
  mkHost
    (fun f => Ok (bytes f))
    (fun f => Ok ("data:" ++ type f ++ ";base64," ++ bytes f))
    (fun f => Ok (bytes f))
    (fun _ => Ok (800%N, 600%N))
    (fun _ _ => true)
    (fun buf => Ok [("word/document.xml", mkZipObject (Ok buf) (Ok buf))])
    (fun _ _ => Ok (1436%N, 3000%N))
    (fun s _ => split LF s).

(** A host whose archives hold no main document. *)
Definition emptyArchiveHost : Host :=
  mkHost (readAsText sampleHost) (readAsDataURL sampleHost)
    (readAsArrayBuffer sampleHost) (loadImage sampleHost)
    (getContext2d sampleHost)
    (fun _ => Ok [("word/styles.xml", mkZipObject (Ok EmptyString) (Ok EmptyString))])
    (html2canvas sampleHost) (splitTextToSize sampleHost).

(** [defaultOptions] of the hook: A4, quality 0.9, margin 10 mm. *)
Definition defaultOptions : ConversionOptions := mkOptions A4 (9 # 10) 10.

(** The priority order of the specification: images first, then text, then
    HTML and Markdown together, then DOCX; [unknown] has no rank. *)
Definition spec_rank (t : FileType) : option nat :=
  match t with
  | image => Some 0%nat
  | text => Some 1%nat
  | html | markdown => Some 2%nat
  | docx => Some 3%nat
  | unknown => None
  end.

Definition spec_ranks (fs : list Hook.ConvertibleFile) : list nat :=
  flat_map (fun f => match spec_rank (Hook.ftype f) with
                     | Some k => [k]
                     | None => []
                     end) fs.

(** The rank of the highest-priority group present: the least rank. *)
Definition spec_best (fs : list Hook.ConvertibleFile) : option nat :=
  match spec_ranks fs with
  | [] => None
  | k :: r => Some (fold_right Nat.min k r)
  end.

(** The files of the highest-priority group present, in queue order. *)
Definition spec_group (fs : list Hook.ConvertibleFile) : list File :=
  match spec_best fs with
  | None => []
  | Some b =>
      map Hook.file
        (filter (fun f => match spec_rank (Hook.ftype f) with
                          | Some k => Nat.eqb k b
                          | None => false
                          end) fs)
  end.

(** The batch converter of a group. *)
Definition spec_batch_converter (rank : nat)
    : Host -> list File -> ConversionOptions -> Callback -> Run ConversionResult :=
  match rank with
  | 0%nat => imagesToPdf
  | 1%nat => textsToSinglePdf
  | 2%nat => htmlsToSinglePdf
  | _ => docxsToSinglePdf
  end.

(** The invariant of the options: the margin is not negative and less
    than half of the shorter side of the page. *)
Definition validMargin (options : ConversionOptions) : Prop :=
  0 <= margin options
  /\ margin options * 2
     < Qmin (width (PAGE_SIZES (pageSize options)))
            (height (PAGE_SIZES (pageSize options))).

(** The margin is a whole number of millimetres. *)
Definition wholeMargin (options : ConversionOptions) : Prop :=
  exists k : Z, margin options = inject_Z k.

(** A text of fifty lines. *)
Definition fiftyLines : string := join nl (repeat "a" 50).

(** The text lines drawn on a document, page after page, each with its
    baseline. *)
Definition opText (op : DrawOp) : list (string * Q) :=
  match op with
  | DrawText s _ b _ => [(s, b)]
  | AddImage _ _ _ _ => []
  end.

Definition docTexts (pdf : jsPDF) : list (string * Q) :=
  flat_map (fun p => flat_map opText (ops p)) (pages pdf).

Definition drawnLines (pdf : jsPDF) : list string := map fst (docTexts pdf).
Definition baselines (pdf : jsPDF) : list Q := map snd (docTexts pdf).

(** The position of the line loop: [c] lines are on the current page,
    which is page [q + 1]; the document has as many pages as the counter
    says and no baseline lies below the bottom margin. *)
Definition atPosition (options : ConversionOptions) (st : TextState) (q c : nat) : Prop :=
  let pageHeight := height (PAGE_SIZES (pageSize options)) in
  y st == margin options + ofNat c * LINE_HEIGHT
  /\ (Z.of_nat c <= Qfloor ((pageHeight - margin options * 2) / LINE_HEIGHT))%Z
  /\ currentPage st = S q
  /\ List.length (pages (doc st)) = currentPage st
  /\ Forall (fun b => b <= pageHeight - margin options) (baselines (doc st)).

(** A number of the engine taken exactly (0 for NaN and the
    infinities). *)
Definition exactly (x : float) : Q :=
  match Binary64.exact x with
  | Some q => q
  | None => 0
  end.

(** The insets of a placement in the content box, whose sides are
    [availWidth] and [availHeight] inside the margin: the distances on
    the left, on the right, at the top and at the bottom, from the
    numbers that the engine returns, each taken exactly. *)
Definition leftInset (pl : Binary64.Placement) (margin : float) : Q :=
  exactly (Binary64.px pl) - exactly margin.

Definition rightInset (pl : Binary64.Placement) (availWidth margin : float) : Q :=
  exactly margin + exactly availWidth
  - (exactly (Binary64.px pl) + exactly (Binary64.pwidth pl)).

Definition topInset (pl : Binary64.Placement) (margin : float) : Q :=
  exactly (Binary64.py pl) - exactly margin.

Definition bottomInset (pl : Binary64.Placement) (availHeight margin : float) : Q :=
  exactly margin + exactly availHeight
  - (exactly (Binary64.py pl) + exactly (Binary64.pheight pl)).

(** The value of a finite number in units of 2^-1074, the least positive
    number of binary64: a whole number. *)
Definition scaled (x : spec_float) : Z :=
  match x with
  | S754_finite s m e => cond_Zopp s (Zpos m * 2 ^ (e + 1074))%Z
  | _ => 0%Z
  end.

(** Zero, or a number whose exponent is one of binary64. *)
Definition finiteSF (x : spec_float) : Prop :=
  match x with
  | S754_zero _ => True
  | S754_finite _ _ e => (-1074 <= e)%Z
  | _ => False
  end.

(** The number 2. *)
Definition SFtwo : spec_float := S754_finite false 4503599627370496 (-51).

(** A finite number of magnitude at most 2^20: as a length in
    millimetres, up to a kilometre. *)
Definition moderate (x : float) : bool :=
  match Binary64.exact x with
  | Some q => Qle_bool (Qabs q) 1048576
  | None => false
  end.

(** A progress sequence that never decreases. *)
Fixpoint nondecreasing (t : list Q) : Prop :=
  match t with
  | [] => True
  | x :: r =>
      match r with
      | [] => True
      | x' :: _ => x <= x'
      end /\ nondecreasing r
  end.

(** A progress sequence of percentages. *)
Definition inRange (t : list Q) : Prop :=
  Forall (fun p => 0 <= p /\ p <= 100) t.

(** A sequence that climbs from [lo] to [hi]: it never decreases, starts
    at [lo] or above and ends at [hi] or below. *)
Fixpoint climbs (lo hi : Q) (t : list Q) : Prop :=
  match t with
  | [] => lo <= hi
  | x :: r => lo <= x /\ climbs x hi r
  end.

(** Two runs that differ only in that the first reports [g p] where the
    second reports [p]. *)
Definition rescaled {A} (g : Q -> Q) (m1 m2 : Run A) : Prop :=
  trace m1 = map g (trace m2) /\ outcomeOf m1 = outcomeOf m2.

(** The main document of the archive of [f] is read without error. *)
Definition documentReads (host : Host) (f : File) (zip : JSZip) (xml : string) : Prop :=
  exists buf entry,
    readAsArrayBuffer host f = Ok buf
    /\ loadAsync host buf = Ok zip
    /\ zipFile "word/document.xml" zip = Some entry
    /\ asString entry = Ok xml.

(** The three HTML parts that [docxsToSinglePdf] collects for a file whose
    archive is [zip] and whose main document reads as [xml]. *)
Definition htmlPartsOf (f : File) (zip : JSZip) (xml : string) : list string :=
  [ "<h1 style=" ++ dquote
    ++ "border-bottom: 2px solid #ddd; padding-bottom: 8px;"
    ++ dquote ++ ">" ++ name f ++ "</h1>";
    contentToHtml (extractTextFromXml xml) (extractImages zip);
    "<div style=" ++ dquote ++ "page-break-after: always;"
    ++ dquote ++ "></div>" ].

(** What the batch loop finds in a file: the archive with its main
    document, or nothing when the archive has no main document. *)
Definition Found : Type := option (JSZip * string).

Definition opensAs (host : Host) (f : File) (d : Found) : Prop :=
  match d with
  | Some (zip, xml) => documentReads host f zip xml
  | None => lacksDocument host f
  end.

(** The HTML parts of the files of a batch, in order: three for a file
    with a main document, none for a file without. *)
Fixpoint collectedParts (files : list File) (ds : list Found) : list string :=
  match files, ds with
  | f :: files', d :: ds' =>
      (match d with
       | Some (zip, xml) => htmlPartsOf f zip xml
       | None => []
       end ++ collectedParts files' ds')%list
  | _, _ => []
  end.

(** A host on which a file whose content starts as markup is an archive
    around that main document, and any other file is an archive that
    holds a style sheet only. *)
Definition partialArchiveHost : Host :=
  mkHost (readAsText sampleHost) (readAsDataURL sampleHost)
    (readAsArrayBuffer sampleHost) (loadImage sampleHost)
    (getContext2d sampleHost)
    (fun buf =>
       if startsWith "<" buf then loadAsync sampleHost buf
       else loadAsync emptyArchiveHost buf)
    (html2canvas sampleHost) (splitTextToSize sampleHost).

(** Letters, digits and the blank. *)
Definition isPlain (c : ascii) : bool :=
  let n := asciiN c in
  ((48 <=? n) && (n <=? 57) || (65 <=? n) && (n <=? 90)
   || (97 <=? n) && (n <=? 122) || (n =? 32))%N.

(** Every code unit of [s] satisfies [p]. *)
Fixpoint allChars (p : ascii -> bool) (s : string) : bool :=
  match s with
  | EmptyString => true
  | String c r => p c && allChars p r
  end.

(** The code unit before the position that follows [s], when [p] is the one
    before [s]. *)
Fixpoint lastOr (p : option ascii) (s : string) : option ascii :=
  match s with
  | EmptyString => p
  | String c r => lastOr (Some c) r
  end.

(** The expression matches at no position of [s], when [s] is followed by
    [rest] and preceded by [p]. *)
Fixpoint neverMatchesIn (m : Matcher) (p : option ascii) (s rest : string) : Prop :=
  match s with
  | EmptyString => True
  | String c r => m p (String c (r ++ rest)) = None /\ neverMatchesIn m (Some c) r rest
  end.

(** The expression does not match at a plain code unit inside a line. *)
Definition quietOnPlain (m : Matcher) : Prop :=
  forall c r p, isPlain c = true -> atLineStart p = false -> m p (String c r) = None.

(** The number of pages of a document that may not exist yet. *)
Definition pagesOf (pdf : option jsPDF) : nat :=
  match pdf with
  | Some d => List.length (pages d)
  | None => O
  end.

(** A natural size of an image, as the browser gives it: a positive
    32-bit value. *)
Definition naturalSize (n : N) : Prop := (0 < n < 2 ^ 32)%N.

(** The canvas of an image is not empty: the natural sizes are 32-bit
    values, as the browser gives them, and both sides of the canvas that
    [constrainDimensions] computes in binary64 are positive.  An image
    without a side, or so flat that its short side is scaled below one
    pixel, has no such canvas: its ratio is then 0, Infinity or NaN, the
    page of fit mode and the placement on it come out as NaN, and jsPDF
    rejects them. *)
Definition hasCanvas (img : N * N) : bool :=
  (fst img <? 2 ^ 32)%N && (snd img <? 2 ^ 32)%N
  && (let d := Binary64.constrainDimensions
                 (Binary64.ofN (fst img)) (Binary64.ofN (snd img)) in
      PrimFloat.ltb 0 (Binary64.width d) && PrimFloat.ltb 0 (Binary64.height d)).

(** The image file is read and decoded without error, to an image with
    a canvas, and the host gives a drawing context to a canvas of any
    size. *)
Definition imageLoads (host : Host) (f : File) : Prop :=
  exists url img,
    readAsDataURL host f = Ok url
    /\ loadImage host url = Ok img
    /\ (forall w h, getContext2d host w h = true)
    /\ hasCanvas img = true.

(** The declared type of the file is no name that an object literal
    inherits, so that the look-up in [SUPPORTED_MIME_TYPES] finds an entry
    of the table or nothing. *)
Definition ownType (f : File) : Prop := ~ In (type f) INHERITED_KEYS.

(** A queue of two images around one text file. *)
Definition twoImagesOneText : list Hook.ConvertibleFile :=
  [ queued "a" (mkFile "one.png" "image/png" 2048 "one");
    queued "b" (mkFile "notes.txt" "text/plain" 12 "some text");
    queued "c" (mkFile "two.jpg" "image/jpeg" 4096 "two") ].

(** Five files of exactly the per-file ceiling: together exactly the
    aggregate ceiling. *)
Definition tenMiBPng (n : string) : File :=
  mkFile n "image/png" MAX_FILE_SIZE EmptyString.

Definition fullBatch : list File :=
  map tenMiBPng ["a.png"; "b.png"; "c.png"; "d.png"; "e.png"].

(** The states of the hook that its operations produce from the initial
    state, when the files added declare types of their own. *)
Inductive reachable (host : Host) : Hook.FileConverterState -> Prop :=
| reach_initial : reachable host initialState
| reach_add ids state fileList :
    Forall ownType fileList ->
    reachable host state -> reachable host (addFiles host ids state fileList)
| reach_remove state ident :
    reachable host state -> reachable host (removeFile state ident)
| reach_clear state :
    reachable host state -> reachable host (clearFiles state)
| reach_convert state options :
    reachable host state -> reachable host (snd (Hook.convert host state options)).

(** The bytes of the files in the queue. *)
Definition queueSize (state : Hook.FileConverterState) : N :=
  totalSize (map Hook.file (Hook.files state)).

(** A host whose rasterizer accepts a container only when its text
    holds no line that still starts with the Markdown heading mark. *)
Definition headingRejectingHost : Host :=
  mkHost (readAsText sampleHost) (readAsDataURL sampleHost)
    (readAsArrayBuffer sampleHost) (loadImage sampleHost)
    (getContext2d sampleHost) (loadAsync sampleHost)
    (fun html_ w =>
       if occurs "# " html_ then Throw "raw heading" else html2canvas sampleHost html_ w)
    (splitTextToSize sampleHost).

(** The pages of a document that may not exist yet. *)
Definition pageList (pdf : option jsPDF) : list Page :=
  match pdf with
  | Some d => pages d
  | None => []
  end.

(** A page of the image converter: it holds one drawing, an image, and
    outside fit mode it is an upright page of the paper format. *)
Definition holdsOneImage (options : ConversionOptions) (p : Page) : Prop :=
  (exists x y w h, ops p = [AddImage x y w h])
  /\ (pageSize options <> fit ->
      pformat p = Some (paperFormat options) /\ porientation p = Some portrait).



(** The file reads as text and the container made from it, with the
    Markdown transpiler applied by the name test, rasterizes to [canvas]. *)
Definition rendersAs (host : Host) (options : ConversionOptions)
    (f : File) (canvas : N * N) : Prop :=
  exists content,
    readAsText host f = Ok content
    /\ html2canvas host
         (BASE_STYLE ++ (if isMarkdownName f then markdownToHtml content else content))
         ((width (PAGE_SIZES (pageSize options)) - margin options * 2) * PX_PER_MM)
       = Ok canvas.

(** The number of page strips of a canvas: its height over the height of
    the content box in canvas pixels, rounded up. *)
Definition canvasPages (options : ConversionOptions) (canvas : N * N) : Z :=
  Qceiling (ofN (snd canvas)
            / ((height (PAGE_SIZES (pageSize options)) - margin options * 2)
               * PX_PER_MM * 2)).

(** A page of the HTML converter: it holds one drawing, a strip of the
    canvas at the margin on both axes, of width [w]. *)
Definition holdsStrip (options : ConversionOptions) (w : Q) (p : Page) : Prop :=
  exists h, ops p = [AddImage (margin options) (margin options) w h].

(** The invariant of the loops of [htmlsToSinglePdf]: the document exists
    exactly when a page has been counted, and has the counted pages. *)
Definition counted (st : HtmlsState) : Prop :=
  match hpdf st with
  | None => htotalPages st = O
  | Some d => List.length (pages d) = htotalPages st /\ (0 < htotalPages st)%nat
  end.

(** A host that rasterizes every container to a canvas without height. *)
Definition blankCanvasHost : Host :=
  mkHost (readAsText sampleHost) (readAsDataURL sampleHost)
    (readAsArrayBuffer sampleHost) (loadImage sampleHost)
    (getContext2d sampleHost) (loadAsync sampleHost)
    (fun _ _ => Ok (1436%N, 0%N))
    (splitTextToSize sampleHost).



(** The entity of a code unit of text placed in HTML: the three
    replacements of [contentToHtml] taken at once. *)
Definition escapeChar (c : ascii) : string :=
  if Ascii.eqb c "&" then "&amp;"
  else if Ascii.eqb c "<" then "&lt;"
  else if Ascii.eqb c ">" then "&gt;"
  else String c EmptyString.

Fixpoint escapeHtml (s : string) : string :=
  match s with
  | EmptyString => EmptyString
  | String c r => escapeChar c ++ escapeHtml r
  end.

(** Every occurrence of the code unit [a] replaced by [out]. *)
Fixpoint substChar (a : ascii) (out : string) (s : string) : string :=
  match s with
  | EmptyString => EmptyString
  | String c r => (if Ascii.eqb a c then out else String c EmptyString)
                  ++ substChar a out r
  end.

(** Letters, digits, blanks and line feeds. *)
Definition isTextual (c : ascii) : bool := isPlain c || Ascii.eqb c LF.

(** The line feeds of a text turned into HTML: two in a row end a
    paragraph and begin the next, a single one is a line break. *)
Fixpoint breaks (s : string) : string :=
  match s with
  | EmptyString => EmptyString
  | String c r =>
      if Ascii.eqb c LF then
        match r with
        | String c2 r2 =>
            if Ascii.eqb c2 LF then "</p><p>" ++ breaks r2 else "<br>" ++ breaks r
        | EmptyString => "<br>"
        end
      else String c (breaks r)
  end.

(* ================================================================= *)
(** * Properties *)

(* ================================================================= *)
(** ** The validator *)

Section Validator.

Lemma validateFile_accepts (f : File) :
  (size f <= MAX_FILE_SIZE)%N ->
  detectFileType f <> unknown ->
  validateFile f = mkValidation true None (Some (detectFileType f)).
Proof.
  intros Hsize Htype. unfold validateFile.
  destruct (N.ltb_spec MAX_FILE_SIZE (size f)) as [Hlt | _]; [lia |].
  unfold FileType_eqb.
  destruct (FileType_eq_dec (detectFileType f) unknown); [contradiction | reflexivity].
Qed.

Lemma validateFile_oversized (f : File) :
  (MAX_FILE_SIZE < size f)%N ->
  validateFile f =
    mkValidation false
      (Some ("File " ++ dquote ++ name f ++ dquote ++ " exceeds 10MB limit ("
             ++ formatFileSize (size f) ++ ")"))
      None.
Proof.
  intros Hlt. unfold validateFile.
  destruct (N.ltb_spec MAX_FILE_SIZE (size f)) as [_ | Hle]; [reflexivity | lia].
Qed.

Lemma validateFile_unsupported (f : File) :
  (size f <= MAX_FILE_SIZE)%N ->
  detectFileType f = unknown ->
  validateFile f =
    mkValidation false (Some ("Unsupported file type: " ++ name f)) None.
Proof.
  intros Hsize Htype. unfold validateFile.
  destruct (N.ltb_spec MAX_FILE_SIZE (size f)) as [Hlt | _]; [lia |].
  rewrite Htype. reflexivity.
Qed.

Lemma validateEach_all_valid (fs : list File) :
  (forall f, In f fs -> valid (validateFile f) = true) ->
  validateEach fs = mkValidation true None None.
Proof.
  induction fs as [| g rest IH]; intros Hall; simpl.
  - reflexivity.
  - rewrite (Hall g (or_introl eq_refl)). simpl.
    apply IH. intros f Hin. apply Hall. now right.
Qed.

Lemma validateEach_first_invalid (pre post : list File) (f : File) :
  (forall g, In g pre -> valid (validateFile g) = true) ->
  valid (validateFile f) = false ->
  validateEach (pre ++ f :: post) = validateFile f.
Proof.
  induction pre as [| g pre IH]; intros Hpre Hbad; simpl.
  - now rewrite Hbad.
  - rewrite (Hpre g (or_introl eq_refl)). simpl.
    apply IH; [| exact Hbad]. intros h Hin. apply Hpre. now right.
Qed.

Lemma validateEach_some_invalid (fs : list File) (f : File) :
  In f fs ->
  valid (validateFile f) = false ->
  valid (validateEach fs) = false.
Proof.
  induction fs as [| g rest IH]; intros Hin Hbad; simpl.
  - contradiction.
  - destruct (valid (validateFile g)) eqn:Hg; simpl.
    + destruct Hin as [-> | Hin]; [congruence | now apply IH].
    + exact Hg.
Qed.

Lemma validateFiles_within_total (fs : list File) :
  (totalSize fs <= MAX_TOTAL_SIZE)%N ->
  validateFiles fs = validateEach fs.
Proof.
  intros Hle. unfold validateFiles.
  destruct (N.ltb_spec MAX_TOTAL_SIZE (totalSize fs)); [lia | reflexivity].
Qed.

Lemma validateFiles_over_total (fs : list File) :
  (MAX_TOTAL_SIZE < totalSize fs)%N ->
  validateFiles fs =
    mkValidation false
      (Some ("Total file size exceeds 50MB limit ("
             ++ formatFileSize (totalSize fs) ++ ")"))
      None.
Proof.
  intros Hlt. unfold validateFiles.
  destruct (N.ltb_spec MAX_TOTAL_SIZE (totalSize fs)); [reflexivity | lia].
Qed.

(** C2.  A batch whose sizes add up to exactly the aggregate ceiling is
    not rejected by the aggregate check and passes when each of its files
    passes; a batch one byte over the ceiling fails with the aggregate
    message; a batch holding a file one byte over the per-file ceiling
    fails whatever its total. *)
Theorem validateFiles_boundaries (fs : list File) :
  (totalSize fs = MAX_TOTAL_SIZE ->
   validateFiles fs = validateEach fs /\
   ((forall f, In f fs ->
       (size f <= MAX_FILE_SIZE)%N /\ detectFileType f <> unknown) ->
    validateFiles fs = mkValidation true None None))
  /\ (totalSize fs = (MAX_TOTAL_SIZE + 1)%N ->
      validateFiles fs =
        mkValidation false
          (Some "Total file size exceeds 50MB limit (50.0 MB)") None)
  /\ (forall f, In f fs -> size f = (MAX_FILE_SIZE + 1)%N ->
      valid (validateFiles fs) = false).
Proof.
  repeat split.
  - apply validateFiles_within_total. lia.
  - intros Hall. rewrite validateFiles_within_total by lia.
    apply validateEach_all_valid. intros f Hin.
    destruct (Hall f Hin) as [Hs Ht].
    now rewrite validateFile_accepts.
  - intros Htot. rewrite validateFiles_over_total by lia.
    rewrite Htot. vm_compute. reflexivity.
  - intros f Hin Hsize.
    destruct (N.ltb_spec MAX_TOTAL_SIZE (totalSize fs)) as [Hlt | Hle].
    + now rewrite validateFiles_over_total.
    + rewrite validateFiles_within_total by exact Hle.
      apply validateEach_some_invalid with f; [exact Hin |].
      rewrite validateFile_oversized by lia. reflexivity.
Qed.

End Validator.

Lemma validateFiles_boundaries_witness :
  validateFiles fullBatch = mkValidation true None None
  /\ validateFiles (mkFile "f.png" "image/png" 1 EmptyString :: fullBatch) =
       mkValidation false
         (Some "Total file size exceeds 50MB limit (50.0 MB)") None
  /\ valid (validateFiles
              [mkFile "g.png" "image/png" (MAX_FILE_SIZE + 1) EmptyString]) = false.
Proof.
  split; [| split].
  - apply (proj1 (validateFiles_boundaries fullBatch)).
    + reflexivity.
    + intros f Hin. simpl in Hin.
      repeat (destruct Hin as [<- | Hin];
              [split; [vm_compute; discriminate | vm_compute; discriminate] |]).
      contradiction.
  - apply (proj1 (proj2 (validateFiles_boundaries
                           (mkFile "f.png" "image/png" 1 EmptyString :: fullBatch)))).
    reflexivity.
  - apply (proj2 (proj2 (validateFiles_boundaries
                           [mkFile "g.png" "image/png" (MAX_FILE_SIZE + 1) EmptyString]))
             (mkFile "g.png" "image/png" (MAX_FILE_SIZE + 1) EmptyString)).
    + left. reflexivity.
    + reflexivity.
Defined.

(** The earlier file is of unsupported type and small, the later file is
    a supported type and one byte over the per-file ceiling: the error
    reported is the one of the earlier file. *)
Lemma validateFiles_order_counterexample :
  let a := mkFile "notes.xyz" EmptyString 1 EmptyString in
  let b := mkFile "big.png" "image/png" (MAX_FILE_SIZE + 1) EmptyString in
  detectFileType a = unknown
  /\ (MAX_FILE_SIZE < size b)%N
  /\ detectFileType b = image
  /\ error (validateFiles [a; b]) = Some "Unsupported file type: notes.xyz"
  /\ error (validateFiles [a; b]) <> error (validateFile b).
Proof.
  vm_compute. repeat split; discriminate.
Qed.

(** C3, amended.  The aggregate ceiling is checked first.  Then the files
    are visited in list order, and for each file its size ceiling is
    checked before its type: the result is the one of the first file that
    fails either check.  So when the first failing file is of unsupported
    type, that is the error reported, also when an oversized file comes
    later in the list. *)
Theorem validateFiles_order (fs : list File) :
  ((MAX_TOTAL_SIZE < totalSize fs)%N ->
   error (validateFiles fs) =
     Some ("Total file size exceeds 50MB limit ("
           ++ formatFileSize (totalSize fs) ++ ")"))
  /\ ((totalSize fs <= MAX_TOTAL_SIZE)%N ->
      forall pre f post,
        fs = (pre ++ f :: post)%list ->
        (forall g, In g pre -> valid (validateFile g) = true) ->
        ((MAX_FILE_SIZE < size f)%N ->
         error (validateFiles fs) =
           Some ("File " ++ dquote ++ name f ++ dquote ++ " exceeds 10MB limit ("
                 ++ formatFileSize (size f) ++ ")"))
        /\ ((size f <= MAX_FILE_SIZE)%N ->
            detectFileType f = unknown ->
            forall mid big rest,
              post = (mid ++ big :: rest)%list ->
              (MAX_FILE_SIZE < size big)%N ->
              error (validateFiles fs) =
                Some ("Unsupported file type: " ++ name f))).
Proof.
  split.
  - intros Hlt. now rewrite validateFiles_over_total.
  - intros Hle pre f post -> Hpre. split.
    + intros Hbig. rewrite validateFiles_within_total by exact Hle.
      rewrite validateEach_first_invalid; try assumption;
        now rewrite validateFile_oversized.
    + intros Hsmall Hunk mid big rest _ _.
      rewrite validateFiles_within_total by exact Hle.
      rewrite validateEach_first_invalid; try assumption;
        now rewrite validateFile_unsupported.
Qed.

Lemma validateFiles_order_witness :
  let a := mkFile "notes.xyz" EmptyString 1 EmptyString in
  let b := mkFile "big.png" "image/png" (MAX_FILE_SIZE + 1) EmptyString in
  error (validateFiles [a; b]) = Some ("Unsupported file type: " ++ name a).
Proof.
  intros a b.
  refine (proj2 (proj2 (validateFiles_order [a; b]) _ [] a [b] eq_refl _) _ _ [] b [] eq_refl _).
  - vm_compute. discriminate.
  - intros g [].
  - vm_compute. discriminate.
  - reflexivity.
  - reflexivity.
Defined.

(** C10.  The validator accepts the empty list, and each batch converter
    throws on the empty list. *)
Theorem empty_batch (host : Host) (options : ConversionOptions) (onProgress : Callback) :
  validateFiles [] = mkValidation true None None
  /\ imagesToPdf host [] options onProgress = ([], Throw "No images to convert")
  /\ textsToSinglePdf host [] options onProgress = ([], Throw "No files to convert")
  /\ htmlsToSinglePdf host [] options onProgress = ([], Throw "No files to convert")
  /\ docxsToSinglePdf host [] options onProgress = ([], Throw "No files to convert").
Proof.
  repeat split.
Qed.

(* ================================================================= *)
(** ** Image placement *)

Lemma Qltb_lt (a b : Q) : Qltb a b = true <-> a < b.
Proof.
  unfold Qltb. rewrite negb_true_iff. split.
  - intros H. apply Qnot_le_lt. intros Hle.
    apply Qle_bool_iff in Hle. congruence.
  - intros H. destruct (Qle_bool b a) eqn:E; [| reflexivity].
    apply Qle_bool_iff in E. exfalso. exact (Qlt_not_le _ _ H E).
Qed.

Lemma Qltb_ge (a b : Q) : Qltb a b = false <-> b <= a.
Proof.
  unfold Qltb. rewrite negb_false_iff. apply Qle_bool_iff.
Qed.

(** A finite number minus itself is zero. *)
Lemma float_sub_diag (a : float) :
  Binary64.isFinite a = true -> (a - a)%float = 0%float.
Proof.
  intros Hfin. apply Prim2SF_inj. rewrite sub_spec.
  unfold Binary64.isFinite in Hfin.
  destruct (Prim2SF a) as [s | s | | s m e]; try discriminate Hfin.
  - destruct s; reflexivity.
  - unfold SF64sub, SFsub. cbv zeta. rewrite Z.sub_diag. reflexivity.
Qed.

Lemma SFcompare_refl (x : spec_float) :
  x <> S754_nan -> SFcompare x x = Some Eq.
Proof.
  destruct x as [s | s | | s m e]; intros H; try congruence; simpl.
  - reflexivity.
  - destruct s; reflexivity.
  - rewrite Z.compare_refl, Pos.compare_cont_refl. destruct s; reflexivity.
Qed.

(** Adding zero to a finite number gives a number equal to it. *)
Lemma float_add_zero (m : float) :
  Binary64.isFinite m = true -> (m + 0 =? m)%float = true.
Proof.
  intros Hfin. rewrite eqb_spec, add_spec.
  unfold Binary64.isFinite in Hfin.
  change (Prim2SF 0) with (S754_zero false).
  destruct (Prim2SF m) as [s | s | | s m' e] eqn:E; try discriminate Hfin.
  - unfold SF64add, SFadd, SFeqb. destruct s; reflexivity.
  - unfold SF64add, SFadd, SFeqb. rewrite SFcompare_refl; [reflexivity | discriminate].
Qed.

(** The offset on the axis on which the placement is as large as the
    box. *)
Lemma pinned_offset (margin avail : float) :
  Binary64.isFinite margin = true -> Binary64.isFinite avail = true ->
  (margin + (avail - avail) / 2 =? margin)%float = true.
Proof.
  intros Hm Ha. rewrite (float_sub_diag avail Ha).
  change (0 / 2)%float with 0%float. now apply float_add_zero.
Qed.

(** *** Rounding

    What binary64 loses in a sum, a difference and a halving, from the
    specification of the operations: the result of rounding lies within
    three units of the last place of the exact value. *)

Section Rounding.

Local Open Scope Z_scope.

(** The number of binary digits of a mantissa. *)
Lemma digits2_pos_bounds (p : positive) :
  2 ^ (Zpos (digits2_pos p) - 1) <= Zpos p < 2 ^ Zpos (digits2_pos p).
Proof.
  induction p as [p IH | p IH |]; cbn [digits2_pos].
  - rewrite Pos2Z.inj_succ, Pos2Z.inj_xI.
    replace (Z.succ (Zpos (digits2_pos p)) - 1) with (Z.succ (Zpos (digits2_pos p) - 1)) by lia.
    rewrite !Z.pow_succ_r by lia.
    revert IH. generalize (2 ^ (Zpos (digits2_pos p) - 1)) (2 ^ Zpos (digits2_pos p)).
    intros; lia.
  - rewrite Pos2Z.inj_succ, (Pos2Z.inj_xO p).
    replace (Z.succ (Zpos (digits2_pos p)) - 1) with (Z.succ (Zpos (digits2_pos p) - 1)) by lia.
    rewrite !Z.pow_succ_r by lia.
    revert IH. generalize (2 ^ (Zpos (digits2_pos p) - 1)) (2 ^ Zpos (digits2_pos p)).
    intros; lia.
  - simpl. lia.
Qed.

Lemma Zdigits2_le (m k : Z) : 0 <= m -> 0 <= k -> m < 2 ^ k -> Zdigits2 m <= k.
Proof.
  intros Hm Hk Hlt. destruct m as [| p | p]; [exact Hk | | lia].
  cbn [Zdigits2]. destruct (digits2_pos_bounds p) as [Hlo _].
  destruct (Z_le_gt_dec (Zpos (digits2_pos p)) k) as [H | H]; [exact H |].
  assert (2 ^ k <= 2 ^ (Zpos (digits2_pos p) - 1)) by (apply Z.pow_le_mono_r; lia).
  lia.
Qed.

Lemma Zdigits2_gt (m : Z) : 0 <= m -> m < 2 ^ Zdigits2 m.
Proof.
  intros Hm. destruct m as [| p | p]; [reflexivity | | lia].
  apply digits2_pos_bounds.
Qed.

(** Shifting the mantissa right drops its last digits. *)
Lemma shr_1_m (mrs : shr_record) :
  0 <= shr_m mrs -> shr_m (shr_1 mrs) = shr_m mrs / 2.
Proof.
  destruct mrs as [m r s]. cbn [shr_m]. intros Hm.
  destruct m as [| p | p]; [reflexivity | | lia].
  destruct p as [p | p |]; cbn [shr_1 shr_m].
  - apply Z.div_unique with 1; lia.
  - apply Z.div_unique with 0; lia.
  - reflexivity.
Qed.

Lemma iter_shr_m (p : positive) : forall mrs,
  0 <= shr_m mrs -> shr_m (SpecFloat.iter_pos shr_1 p mrs) = shr_m mrs / 2 ^ Zpos p.
Proof.
  assert (Hpos : forall a b, 0 <= a -> 0 < b -> 0 <= a / b)
    by (intros; apply Z.div_pos; lia).
  induction p as [p IH | p IH |]; intros mrs Hm; cbn [SpecFloat.iter_pos].
  - assert (H1 : 0 <= shr_m (shr_1 mrs)) by (rewrite shr_1_m by exact Hm; apply Hpos; lia).
    assert (H2 : 0 <= shr_m (SpecFloat.iter_pos shr_1 p (shr_1 mrs)))
      by (rewrite IH by exact H1; apply Hpos; [exact H1 | apply Z.pow_pos_nonneg; lia]).
    rewrite IH by exact H2. rewrite IH by exact H1. rewrite shr_1_m by exact Hm.
    rewrite !Z.div_div by (try apply Z.pow_pos_nonneg; lia).
    f_equal. rewrite (Pos2Z.inj_xI p).
    replace (2 * Zpos p + 1) with (1 + Zpos p + Zpos p) by lia.
    rewrite !Z.pow_add_r by lia. change (2 ^ 1) with 2. ring.
  - assert (H2 : 0 <= shr_m (SpecFloat.iter_pos shr_1 p mrs))
      by (rewrite IH by exact Hm; apply Hpos; [exact Hm | apply Z.pow_pos_nonneg; lia]).
    rewrite IH by exact H2. rewrite IH by exact Hm.
    rewrite !Z.div_div by (try apply Z.pow_pos_nonneg; lia).
    f_equal. rewrite (Pos2Z.inj_xO p).
    replace (2 * Zpos p) with (Zpos p + Zpos p) by lia.
    rewrite !Z.pow_add_r by lia. ring.
  - rewrite shr_1_m by exact Hm. reflexivity.
Qed.

Lemma shr_record_of_loc_m (m : Z) (l : location) : shr_m (shr_record_of_loc m l) = m.
Proof. destruct l as [| []]; reflexivity. Qed.

Lemma shr_fexp_spec (m e : Z) (l : location) :
  0 <= m ->
  let n := Z.max 0 (fexp prec emax (Zdigits2 m + e) - e) in
  snd (shr_fexp prec emax m e l) = e + n
  /\ shr_m (fst (shr_fexp prec emax m e l)) = m / 2 ^ n.
Proof.
  intros Hm n. subst n. unfold shr_fexp, shr.
  destruct (fexp prec emax (Zdigits2 m + e) - e) as [| p | p] eqn:E; cbn [fst snd].
  - rewrite shr_record_of_loc_m. change (Z.max 0 0) with 0. rewrite Z.div_1_r. lia.
  - rewrite iter_shr_m by (rewrite shr_record_of_loc_m; exact Hm).
    rewrite shr_record_of_loc_m. rewrite Z.max_r by lia. split; reflexivity.
  - rewrite shr_record_of_loc_m. rewrite Z.max_l by lia. rewrite Z.div_1_r. lia.
Qed.

(** Rounding to nearest keeps the mantissa or adds one. *)
Lemma round_nearest_even_bounds (m : Z) (l : location) :
  m <= round_nearest_even m l <= m + 1.
Proof.
  destruct l as [| []]; cbn [round_nearest_even]; try lia.
  destruct (Z.even m); lia.
Qed.

Lemma abs_cond_Zopp (b : bool) (a c : Z) :
  Z.abs (cond_Zopp b a - cond_Zopp b c) = Z.abs (a - c).
Proof. destruct b; cbn [cond_Zopp]; lia. Qed.

(** The rounding step of every operation: the mantissa is shifted to
    the exponent of the format, rounded, and shifted once more when the
    rounding carried.  With the exponent of the format at most [T], the
    result stays within three units of 2^T of the value rounded. *)
Lemma binary_round_aux_error (sx : bool) (mx ex : Z) (lx : location) (T : Z) :
  0 <= mx -> -1074 <= ex -> ex <= T ->
  fexp prec emax (Zdigits2 mx + ex) <= T -> T <= 900 ->
  let r := binary_round_aux prec emax sx mx ex lx in
  finiteSF r
  /\ Z.abs (scaled r - cond_Zopp sx (mx * 2 ^ (ex + 1074))) <= 3 * 2 ^ (T + 1074).
Proof.
  intros Hmx Hex HexT HfT HT r. subst r. unfold binary_round_aux.
  destruct (shr_fexp_spec mx ex lx Hmx) as [He' Hm1].
  destruct (shr_fexp prec emax mx ex lx) as [mrs' e']. cbn [fst snd] in He', Hm1.
  set (n1 := Z.max 0 (fexp prec emax (Zdigits2 mx + ex) - ex)) in *.
  set (m2 := round_nearest_even (shr_m mrs') (loc_of_shr_record mrs')).
  pose proof (round_nearest_even_bounds (shr_m mrs') (loc_of_shr_record mrs')) as Hm2.
  fold m2 in Hm2. rewrite Hm1 in Hm2.
  set (m1 := mx / 2 ^ n1) in *.
  assert (Hn1 : 0 <= n1) by (unfold n1; lia).
  assert (Ha : 0 < 2 ^ n1) by (apply Z.pow_pos_nonneg; lia).
  assert (Hm1lo : 2 ^ n1 * m1 <= mx) by (apply Z.mul_div_le; exact Ha).
  assert (Hm1hi : mx < 2 ^ n1 * Z.succ m1) by (apply Z.mul_succ_div_gt; exact Ha).
  assert (Hm1nn : 0 <= m1) by (apply Z.div_pos; lia).
  assert (Hm1b : m1 < 2 ^ 53).
  { apply Z.div_lt_upper_bound; [exact Ha |].
    pose proof (Zdigits2_gt mx Hmx) as Hd.
    assert (Zdigits2 mx <= n1 + 53) by (unfold n1, fexp, prec; lia).
    assert (0 <= Zdigits2 mx) by (destruct mx; cbn; lia).
    assert (2 ^ Zdigits2 mx <= 2 ^ (n1 + 53)) by (apply Z.pow_le_mono_r; lia).
    rewrite Z.pow_add_r in * by lia. lia. }
  assert (Hm2nn : 0 <= m2) by lia.
  destruct (shr_fexp_spec m2 e' loc_Exact Hm2nn) as [He'' Hm3].
  destruct (shr_fexp prec emax m2 e' loc_Exact) as [mrs'' e'']. cbn [fst snd] in He'', Hm3.
  set (n2 := Z.max 0 (fexp prec emax (Zdigits2 m2 + e') - e')) in *.
  assert (Hd2 : Zdigits2 m2 <= 54).
  { apply Zdigits2_le; [exact Hm2nn | lia |].
    change (2 ^ 54) with (2 * 2 ^ 53). lia. }
  assert (Hn2 : 0 <= n2 <= 1) by (unfold n2, fexp, prec, emax, emin; lia).
  assert (Hb : 0 < 2 ^ n2) by (apply Z.pow_pos_nonneg; lia).
  assert (Hb2 : 2 ^ n2 <= 2).
  { change 2 with (2 ^ 1) at 2. apply Z.pow_le_mono_r; lia. }
  set (m3 := m2 / 2 ^ n2) in *.
  assert (Hm3lo : 2 ^ n2 * m3 <= m2) by (apply Z.mul_div_le; exact Hb).
  assert (Hm3hi : m2 < 2 ^ n2 * Z.succ m3) by (apply Z.mul_succ_div_gt; exact Hb).
  assert (Hm3nn : 0 <= m3) by (apply Z.div_pos; lia).
  assert (He'T : e' <= T) by (unfold n1 in *; lia).
  set (A := 2 ^ (ex + 1074)).
  assert (HA : 0 < A) by (apply Z.pow_pos_nonneg; lia).
  assert (HP' : 2 ^ (e' + 1074) = A * 2 ^ n1).
  { rewrite He'. replace (ex + n1 + 1074) with (ex + 1074 + n1) by lia.
    apply Z.pow_add_r; lia. }
  assert (HP'' : 2 ^ (e'' + 1074) = A * 2 ^ n1 * 2 ^ n2).
  { rewrite He'', <- HP'. replace (e' + n2 + 1074) with (e' + 1074 + n2) by lia.
    apply Z.pow_add_r; lia. }
  assert (HPT : A * 2 ^ n1 <= 2 ^ (T + 1074)).
  { rewrite <- HP'. apply Z.pow_le_mono_r; lia. }
  assert (Herr : Z.abs (m3 * (A * 2 ^ n1 * 2 ^ n2) - mx * A) <= 3 * (A * 2 ^ n1)).
  { set (a := 2 ^ n1) in *. set (b := 2 ^ n2) in *.
    assert (m3 * b * a <= mx + a) by nia.
    assert (mx - a - a * b < m3 * b * a) by nia.
    assert (a * b <= 2 * a) by nia.
    apply Z.abs_le. split; nia. }
  rewrite Hm3. fold m3.
  destruct m3 as [| p | p] eqn:E3; [| | lia].
  - cbn [finiteSF scaled]. split; [exact I |].
    rewrite <- (abs_cond_Zopp sx 0). rewrite Z.mul_0_l in Herr.
    destruct sx; cbn [cond_Zopp] in *; lia.
  - assert (Hle : (e'' <=? emax - prec) = true)
      by (apply Z.leb_le; unfold emax, prec; lia).
    rewrite Hle. cbn [finiteSF scaled]. split; [lia |].
    rewrite abs_cond_Zopp. rewrite HP''. lia.
Qed.

(** Shifting the mantissa left. *)
Lemma iter_xO_val (m d : positive) :
  Zpos (Pos.iter xO m d) = Zpos m * 2 ^ Zpos d.
Proof.
  induction d as [| d IH] using Pos.peano_ind.
  - cbn [Pos.iter]. rewrite (Pos2Z.inj_xO m). change (2 ^ 1) with 2. lia.
  - rewrite Pos.iter_succ, (Pos2Z.inj_xO (Pos.iter xO m d)), IH, Pos2Z.inj_succ.
    rewrite Z.pow_succ_r by lia. ring.
Qed.

Lemma iter_xO_digits (m d : positive) :
  Zpos (digits2_pos (Pos.iter xO m d)) = Zpos (digits2_pos m) + Zpos d.
Proof.
  induction d as [| d IH] using Pos.peano_ind.
  - cbn [Pos.iter digits2_pos]. lia.
  - rewrite Pos.iter_succ. cbn [digits2_pos]. rewrite !Pos2Z.inj_succ, IH. lia.
Qed.

(** [shl_align] keeps the value, and the sum of digits and exponent. *)
Lemma shl_align_spec (m : positive) (e e' : Z) :
  -1074 <= e' ->
  let r := shl_align m e e' in
  snd r = Z.min e e'
  /\ Zpos (fst r) * 2 ^ (snd r + 1074) = Zpos m * 2 ^ (e + 1074)
  /\ Zpos (digits2_pos (fst r)) + snd r = Zpos (digits2_pos m) + e.
Proof.
  intros He' r. subst r. unfold shl_align.
  destruct (e' - e) as [| d | d] eqn:E; cbn [fst snd].
  - split; [lia |]. split; reflexivity.
  - split; [lia |]. split; reflexivity.
  - split; [lia |]. rewrite iter_xO_val, iter_xO_digits. split; [| lia].
    replace (e + 1074) with (Zpos d + (e' + 1074)) by lia.
    rewrite (Z.pow_add_r 2 (Zpos d) (e' + 1074)) by lia. ring.
Qed.

(** A value below 2^K has its digits below position K. *)
Lemma digits_le_bound (m : positive) (e K : Z) :
  -1074 <= e -> Zpos m * 2 ^ (e + 1074) < 2 ^ (K + 1074) ->
  Zpos (digits2_pos m) + e <= K.
Proof.
  intros He Hlt. destruct (digits2_pos_bounds m) as [Hlo _].
  destruct (Z_le_gt_dec (Zpos (digits2_pos m) + e) K) as [H | H]; [exact H | exfalso].
  assert (H1 : 2 ^ (K + 1074) <= 2 ^ (Zpos (digits2_pos m) - 1 + (e + 1074)))
    by (apply Z.pow_le_mono_r; lia).
  rewrite (Z.pow_add_r 2 (Zpos (digits2_pos m) - 1) (e + 1074)) in H1 by lia.
  assert (0 < 2 ^ (e + 1074)) by (apply Z.pow_pos_nonneg; lia).
  nia.
Qed.

Lemma binary_round_error (s : bool) (m : positive) (e K : Z) :
  -1074 <= e -> Zpos m * 2 ^ (e + 1074) < 2 ^ (K + 1074) -> -1021 <= K <= 950 ->
  let r := binary_round prec emax s m e in
  finiteSF r
  /\ Z.abs (scaled r - cond_Zopp s (Zpos m * 2 ^ (e + 1074))) <= 3 * 2 ^ (K - 53 + 1074).
Proof.
  intros He Hlt HK r. subst r. unfold binary_round.
  pose proof (digits_le_bound m e K He Hlt) as HD.
  set (D := Zpos (digits2_pos m) + e) in *.
  assert (Hf : -1074 <= fexp prec emax D <= K - 53)
    by (unfold fexp, prec, emax, emin; lia).
  destruct (shl_align_spec m e (fexp prec emax D)) as (Hs & Hv & Hd); [lia |].
  destruct (shl_align m e (fexp prec emax D)) as [mz ez]. cbn [fst snd] in Hs, Hv, Hd.
  rewrite <- Hv.
  apply binary_round_aux_error; try lia.
  cbn [Zdigits2]. rewrite Hd. fold D. lia.
Qed.

Lemma binary_normalize_error (M e K : Z) (sz : bool) :
  -1074 <= e -> Z.abs M * 2 ^ (e + 1074) < 2 ^ (K + 1074) -> -1021 <= K <= 950 ->
  let r := binary_normalize prec emax M e sz in
  finiteSF r /\ Z.abs (scaled r - M * 2 ^ (e + 1074)) <= 3 * 2 ^ (K - 53 + 1074).
Proof.
  intros He Hlt HK r. subst r.
  assert (0 <= 2 ^ (K - 53 + 1074)) by (apply Z.pow_nonneg; lia).
  destruct M as [| m | m]; cbn [binary_normalize].
  - cbn [finiteSF scaled]. split; [exact I |].
    rewrite Z.mul_0_l, Z.sub_diag. cbn [Z.abs]. lia.
  - apply (binary_round_error false m e K He Hlt HK).
  - replace (Z.neg m * 2 ^ (e + 1074)) with (cond_Zopp true (Zpos m * 2 ^ (e + 1074)))
      by (cbn [cond_Zopp]; rewrite <- Z.mul_opp_l; reflexivity).
    apply (binary_round_error true m e K He Hlt HK).
Qed.

(** Sums and differences. *)
Lemma SFadd_error (x y : spec_float) (K : Z) :
  finiteSF x -> finiteSF y ->
  Z.abs (scaled x + scaled y) < 2 ^ (K + 1074) -> -1021 <= K <= 950 ->
  finiteSF (SF64add x y)
  /\ Z.abs (scaled (SF64add x y) - (scaled x + scaled y)) <= 3 * 2 ^ (K - 53 + 1074).
Proof.
  intros Hx Hy Hlt HK.
  assert (Hpos : 0 <= 3 * 2 ^ (K - 53 + 1074))
    by (assert (0 <= 2 ^ (K - 53 + 1074)) by (apply Z.pow_nonneg; lia); lia).
  destruct x as [sx | sx | | sx mx ex]; try contradiction;
    destruct y as [sy | sy | | sy my ey]; try contradiction.
  - unfold SF64add, SFadd. destruct sx, sy; cbn [finiteSF scaled]; (split; [exact I | exact Hpos]).
  - unfold SF64add, SFadd. split; [exact Hy |].
    cbn [scaled]. rewrite Z.add_0_l, Z.sub_diag. exact Hpos.
  - unfold SF64add, SFadd. split; [exact Hx |].
    cbn [scaled]. rewrite Z.add_0_r, Z.sub_diag. exact Hpos.
  - unfold SF64add, SFadd. cbv zeta. cbn [finiteSF] in Hx, Hy.
    destruct (shl_align_spec mx ex (Z.min ex ey)) as (Hsx & Hvx & _); [lia |].
    destruct (shl_align_spec my ey (Z.min ex ey)) as (Hsy & Hvy & _); [lia |].
    destruct (shl_align mx ex (Z.min ex ey)) as [mx' ex'].
    destruct (shl_align my ey (Z.min ex ey)) as [my' ey'].
    cbn [fst snd] in *.
    assert (Ex : ex' = Z.min ex ey) by lia. assert (Ey : ey' = Z.min ex ey) by lia.
    rewrite Ex in Hvx. rewrite Ey in Hvy. clear Ex Ey Hsx Hsy.
    set (ez := Z.min ex ey) in *.
    set (M := cond_Zopp sx (Zpos mx') + cond_Zopp sy (Zpos my')).
    assert (HM : M * 2 ^ (ez + 1074)
                 = scaled (S754_finite sx mx ex) + scaled (S754_finite sy my ey)).
    { cbn [scaled]. rewrite <- Hvx, <- Hvy. unfold M.
      destruct sx, sy; cbn [cond_Zopp]; ring. }
    rewrite <- HM in *.
    apply binary_normalize_error; [lia | | exact HK].
    rewrite Z.abs_mul, (Z.abs_eq (2 ^ (ez + 1074))) in Hlt
      by (apply Z.pow_nonneg; lia).
    exact Hlt.
Qed.

Lemma SFsub_error (x y : spec_float) (K : Z) :
  finiteSF x -> finiteSF y ->
  Z.abs (scaled x - scaled y) < 2 ^ (K + 1074) -> -1021 <= K <= 950 ->
  finiteSF (SF64sub x y)
  /\ Z.abs (scaled (SF64sub x y) - (scaled x - scaled y)) <= 3 * 2 ^ (K - 53 + 1074).
Proof.
  intros Hx Hy Hlt HK.
  assert (Hpos : 0 <= 3 * 2 ^ (K - 53 + 1074))
    by (assert (0 <= 2 ^ (K - 53 + 1074)) by (apply Z.pow_nonneg; lia); lia).
  destruct x as [sx | sx | | sx mx ex]; try contradiction;
    destruct y as [sy | sy | | sy my ey]; try contradiction.
  - unfold SF64sub, SFsub. destruct sx, sy; cbn [finiteSF scaled]; (split; [exact I | exact Hpos]).
  - unfold SF64sub, SFsub. split; [exact Hy |].
    cbn [scaled]. replace (cond_Zopp (negb sy) (Zpos my * 2 ^ (ey + 1074))
                         - (0 - cond_Zopp sy (Zpos my * 2 ^ (ey + 1074)))) with 0
      by (destruct sy; cbn [negb cond_Zopp]; lia).
    exact Hpos.
  - unfold SF64sub, SFsub. split; [exact Hx |].
    cbn [scaled]. rewrite Z.sub_0_r, Z.sub_diag. exact Hpos.
  - unfold SF64sub, SFsub. cbv zeta. cbn [finiteSF] in Hx, Hy.
    destruct (shl_align_spec mx ex (Z.min ex ey)) as (Hsx & Hvx & _); [lia |].
    destruct (shl_align_spec my ey (Z.min ex ey)) as (Hsy & Hvy & _); [lia |].
    destruct (shl_align mx ex (Z.min ex ey)) as [mx' ex'].
    destruct (shl_align my ey (Z.min ex ey)) as [my' ey'].
    cbn [fst snd] in *.
    assert (Ex : ex' = Z.min ex ey) by lia. assert (Ey : ey' = Z.min ex ey) by lia.
    rewrite Ex in Hvx. rewrite Ey in Hvy. clear Ex Ey Hsx Hsy.
    set (ez := Z.min ex ey) in *.
    set (M := cond_Zopp sx (Zpos mx') - cond_Zopp sy (Zpos my')).
    assert (HM : M * 2 ^ (ez + 1074)
                 = scaled (S754_finite sx mx ex) - scaled (S754_finite sy my ey)).
    { cbn [scaled]. rewrite <- Hvx, <- Hvy. unfold M.
      destruct sx, sy; cbn [cond_Zopp]; ring. }
    rewrite <- HM in *.
    apply binary_normalize_error; [lia | | exact HK].
    rewrite Z.abs_mul, (Z.abs_eq (2 ^ (ez + 1074))) in Hlt
      by (apply Z.pow_nonneg; lia).
    exact Hlt.
Qed.

(** Halving: the quotient by 2, whose mantissa is 2^52. *)
Lemma SFdiv_two_error (x : spec_float) (K : Z) :
  finiteSF x -> SpecFloat.valid_binary prec emax x = true ->
  Z.abs (scaled x) < 2 ^ (K + 1074) -> -1021 <= K <= 950 ->
  finiteSF (SF64div x SFtwo)
  /\ Z.abs (2 * scaled (SF64div x SFtwo) - scaled x) <= 8 * 2 ^ (K - 53 + 1074).
Proof.
  intros Hx Hvalid Hlt HK.
  assert (Hpos : 0 <= 2 ^ (K - 53 + 1074)) by (apply Z.pow_nonneg; lia).
  destruct x as [sx | sx | | sx mx ex]; try contradiction.
  - change (SF64div (S754_zero sx) SFtwo) with (S754_zero (xorb sx false)).
    cbn [finiteSF scaled]. split; [exact I |].
    rewrite Z.mul_0_r, Z.sub_diag. cbn [Z.abs]. lia.
  - cbn [finiteSF] in Hx. cbn [scaled] in Hlt.
    unfold SpecFloat.valid_binary, bounded, canonical_mantissa in Hvalid.
    apply andb_true_iff in Hvalid. destruct Hvalid as [Hcan _].
    apply Z.eqb_eq in Hcan.
    set (d1 := Zpos (digits2_pos mx)) in *.
    assert (Hd1 : 1 <= d1 <= 53) by (unfold fexp, prec, emax, emin in Hcan; lia).
    assert (HD : d1 + ex <= K).
    { apply digits_le_bound; [exact Hx |].
      destruct sx; cbn [cond_Zopp] in Hlt; lia. }
    unfold SF64div, SFdiv, SFtwo, SFdiv_core_binary. cbv zeta.
    change (Zdigits2 (Zpos mx)) with d1.
    change (Zdigits2 4503599627370496) with 53.
    set (e' := Z.min (fexp prec emax (d1 + ex - (53 + -51))) (ex - -51)).
    assert (He' : e' = Z.max (d1 + ex - 55) (-1074))
      by (unfold e', fexp, prec, emax, emin; lia).
    set (s := ex - -51 - e').
    assert (Hs : 51 <= s) by lia.
    destruct s as [| ps | ps] eqn:Es; [lia | | lia].
    rewrite <- Es. rewrite Z.shiftl_mul_pow2 by lia.
    pose proof (Z.div_eucl_eq (Zpos mx * 2 ^ s) 4503599627370496) as Hq.
    pose proof (Z.mod_pos_bound (Zpos mx * 2 ^ s) 4503599627370496) as Hr.
    unfold Z.modulo, Z.div in *.
    destruct (Z.div_eucl (Zpos mx * 2 ^ s) 4503599627370496) as [q r].
    specialize (Hq ltac:(lia)). specialize (Hr ltac:(lia)).
    assert (Hps : 0 < 2 ^ s) by (apply Z.pow_pos_nonneg; lia).
    assert (Hqnn : 0 <= q) by nia.
    (* the quotient at exponent e' against half of x *)
    set (E := 2 ^ (e' + 1074)).
    assert (HE : 0 < E) by (apply Z.pow_pos_nonneg; lia).
    assert (Hscale : 2 ^ (ex + 1074) * 2 ^ 51 = 2 ^ s * E).
    { unfold E. rewrite <- !Z.pow_add_r by lia. f_equal. lia. }
    assert (Hhalf : 2 * (q * E) <= Zpos mx * 2 ^ (ex + 1074)
                    /\ Z.abs (2 * (q * E) - Zpos mx * 2 ^ (ex + 1074)) <= 2 * E).
    { change 4503599627370496 with (2 * 2 ^ 51) in Hq, Hr.
      assert (H51 : 0 < 2 ^ 51) by reflexivity.
      set (P51 := 2 ^ 51) in *. set (X := 2 ^ (ex + 1074)) in *. set (S := 2 ^ s) in *.
      assert (2 * (q * E) * P51 <= Zpos mx * X * P51) by nia.
      assert (Zpos mx * X * P51 < (2 * (q * E) + 2 * E) * P51) by nia.
      split; [nia |]. apply Z.abs_le. split; nia. }
    destruct Hhalf as [Hlow Hhalf].
    assert (HeK : e' <= K - 53) by lia.
    assert (HET : E <= 2 ^ (K - 53 + 1074)) by (apply Z.pow_le_mono_r; lia).
    assert (Hqlt : q = 0 \/ Zdigits2 q + e' <= K).
    { destruct q as [| pq | pq]; [now left | right | lia].
      cbn [Zdigits2]. apply digits_le_bound; [lia |]. fold E.
      assert (Zpos mx * 2 ^ (ex + 1074) < 2 ^ (K + 1074))
        by (destruct sx; cbn [cond_Zopp] in Hlt; lia).
      nia. }
    destruct (binary_round_aux_error (xorb sx false) q e'
                (new_location 4503599627370496 r) (K - 53))
      as [Hfin Herr]; try lia.
    { destruct Hqlt as [-> | Hq']; unfold fexp, prec, emax, emin; cbn [Zdigits2]; lia. }
    split; [exact Hfin |].
    fold E in Herr. rewrite xorb_false_r in *. cbn [scaled].
    set (v := scaled (binary_round_aux prec emax sx q e' (new_location 4503599627370496 r))) in *.
    destruct sx; cbn [cond_Zopp] in *; lia.
Qed.

(** The numbers of the engine are valid: their exponents are those of
    binary64. *)
Lemma Prim2SF_finite (x : float) :
  Binary64.isFinite x = true -> finiteSF (Prim2SF x).
Proof.
  unfold Binary64.isFinite. pose proof (Prim2SF_valid x) as Hv.
  destruct (Prim2SF x) as [s | s | | s m e]; try discriminate; intros _; [exact I |].
  cbn [finiteSF].
  unfold FloatAxioms.valid_binary, SpecFloat.valid_binary, bounded, canonical_mantissa in Hv.
  apply andb_true_iff in Hv. destruct Hv as [Hcan _]. apply Z.eqb_eq in Hcan.
  unfold fexp, prec, emax, emin in Hcan. lia.
Qed.

(** The offset that centres: twice the offset is twice the margin plus
    what the box leaves, up to 17 units of 2^-31. *)
Lemma centring_error (margin avail size : float) :
  finiteSF (Prim2SF margin) -> finiteSF (Prim2SF avail) -> finiteSF (Prim2SF size) ->
  Z.abs (scaled (Prim2SF margin)) <= 2 ^ (20 + 1074) ->
  Z.abs (scaled (Prim2SF avail)) <= 2 ^ (20 + 1074) ->
  Z.abs (scaled (Prim2SF size)) <= 2 ^ (20 + 1074) ->
  let x := (margin + (avail - size) / 2)%float in
  finiteSF (Prim2SF x)
  /\ Z.abs (2 * scaled (Prim2SF x) - 2 * scaled (Prim2SF margin)
            - scaled (Prim2SF avail) + scaled (Prim2SF size))
     <= 17 * 2 ^ (22 - 53 + 1074).
Proof.
  intros Hfm Hfa Hfs Hm Ha Hs x. subst x.
  set (U := 2 ^ (20 + 1074)) in *.
  assert (HU : 2 ^ (22 + 1074) = 4 * U) by reflexivity.
  set (eps := 2 ^ (22 - 53 + 1074)).
  assert (Heps : 0 < eps /\ 17 * eps <= U)
    by (split; [reflexivity | apply Z.leb_le; vm_compute; reflexivity]).
  set (d := (avail - size)%float).
  destruct (SFsub_error (Prim2SF avail) (Prim2SF size) 22 Hfa Hfs) as [Hfd Hd];
    [rewrite HU; lia | lia |].
  rewrite <- sub_spec in Hfd, Hd. fold d in Hfd, Hd. fold eps in Hd.
  set (h := (d / 2)%float).
  destruct (SFdiv_two_error (Prim2SF d) 22 Hfd (Prim2SF_valid d)) as [Hfh Hh];
    [rewrite HU; lia | lia |].
  change SFtwo with (Prim2SF 2) in Hfh, Hh.
  rewrite <- div_spec in Hfh, Hh. fold h in Hfh, Hh. fold eps in Hh.
  destruct (SFadd_error (Prim2SF margin) (Prim2SF h) 22 Hfm Hfh) as [Hfx Hx];
    [rewrite HU; lia | lia |].
  rewrite <- add_spec in Hfx, Hx. fold eps in Hx.
  split; [exact Hfx | lia].
Qed.

End Rounding.

(** The exact value of a number against its value in units of 2^-1074. *)
Lemma scaled_value (m : positive) (e : Z) :
  (-1074 <= e)%Z ->
  inject_Z (Zpos m) * Qpower 2 e * inject_Z (2 ^ 1074)
  == inject_Z (Zpos m * 2 ^ (e + 1074)).
Proof.
  intros He.
  rewrite inject_Z_mult, (Zpower_Qpower 2 (e + 1074)) by lia.
  rewrite (Zpower_Qpower 2 1074) by lia.
  change (inject_Z 2) with 2.
  rewrite (Qpower_plus 2 e 1074) by discriminate. ring.
Qed.

Lemma exactly_scaled (x : float) :
  finiteSF (Prim2SF x) ->
  exactly x * inject_Z (2 ^ 1074) == inject_Z (scaled (Prim2SF x)).
Proof.
  unfold exactly, Binary64.exact.
  destruct (Prim2SF x) as [s | s | | s m e]; try contradiction; cbn [finiteSF scaled]; intros He.
  - ring.
  - cbv zeta. destruct s; cbn [cond_Zopp].
    + rewrite inject_Z_opp, <- (scaled_value m e He). ring.
    + apply (scaled_value m e He).
Qed.

Lemma moderate_finite (x : float) :
  moderate x = true ->
  finiteSF (Prim2SF x) /\ (Z.abs (scaled (Prim2SF x)) <= 2 ^ (20 + 1074))%Z.
Proof.
  intros Hmod.
  assert (Hfin : finiteSF (Prim2SF x)).
  { apply Prim2SF_finite. unfold moderate, Binary64.exact in Hmod.
    unfold Binary64.isFinite. destruct (Prim2SF x); try discriminate; reflexivity. }
  split; [exact Hfin |].
  pose proof (exactly_scaled x Hfin) as Hs.
  assert (Hle : Qabs (exactly x) <= 1048576).
  { unfold moderate in Hmod. unfold exactly.
    destruct (Binary64.exact x); [now apply Qle_bool_iff | discriminate]. }
  assert (HS : 0 < inject_Z (2 ^ 1074)) by reflexivity.
  apply Qabs_Qle_condition in Hle. destruct Hle as [Hlo Hhi].
  apply (Qmult_le_r _ _ _ HS) in Hlo. apply (Qmult_le_r _ _ _ HS) in Hhi.
  rewrite Hs in Hlo, Hhi.
  change (1048576 * inject_Z (2 ^ 1074)) with (inject_Z (2 ^ (20 + 1074))) in Hhi.
  change (- (1048576) * inject_Z (2 ^ 1074)) with (inject_Z (- 2 ^ (20 + 1074))) in Hlo.
  rewrite <- Zle_Qle in Hlo, Hhi. lia.
Qed.

Lemma moderate_isFinite (x : float) :
  moderate x = true -> Binary64.isFinite x = true.
Proof.
  unfold moderate, Binary64.exact, Binary64.isFinite.
  destruct (Prim2SF x); try discriminate; reflexivity.
Qed.

(** The offset [margin + (avail - size) / 2] leaves insets on the two
    sides of the box that differ by less than a millionth. *)
Lemma centred_within (margin avail size : float) :
  moderate margin = true -> moderate avail = true -> moderate size = true ->
  let x := (margin + (avail - size) / 2)%float in
  Binary64.isFinite x = true
  /\ Qabs ((exactly x - exactly margin)
           - (exactly margin + exactly avail - (exactly x + exactly size)))
     <= 1 # 1000000.
Proof.
  intros Hm Ha Hs x.
  destruct (moderate_finite margin Hm) as [Hfm Hbm].
  destruct (moderate_finite avail Ha) as [Hfa Hba].
  destruct (moderate_finite size Hs) as [Hfs Hbs].
  destruct (centring_error margin avail size Hfm Hfa Hfs Hbm Hba Hbs) as [Hfx Herr].
  fold x in Hfx, Herr.
  split.
  { unfold Binary64.isFinite. destruct (Prim2SF x); try contradiction; reflexivity. }
  pose proof (exactly_scaled x Hfx) as Ex.
  pose proof (exactly_scaled margin Hfm) as Em.
  pose proof (exactly_scaled avail Hfa) as Ea.
  pose proof (exactly_scaled size Hfs) as Es.
  assert (HS : 0 < inject_Z (2 ^ 1074)) by reflexivity.
  set (S := inject_Z (2 ^ 1074)) in *.
  replace (2 * scaled (Prim2SF x) - 2 * scaled (Prim2SF margin)
           - scaled (Prim2SF avail) + scaled (Prim2SF size))%Z
    with (2 * scaled (Prim2SF x) + - (2 * scaled (Prim2SF margin))
          + - scaled (Prim2SF avail) + scaled (Prim2SF size))%Z in Herr by lia.
  set (z := (2 * scaled (Prim2SF x) + - (2 * scaled (Prim2SF margin))
             + - scaled (Prim2SF avail) + scaled (Prim2SF size))%Z) in *.
  assert (Hz : ((exactly x - exactly margin)
                - (exactly margin + exactly avail - (exactly x + exactly size))) * S
               == inject_Z z).
  { unfold z. rewrite !inject_Z_plus, !inject_Z_opp, !inject_Z_mult.
    rewrite <- Ex, <- Em, <- Ea, <- Es. change (inject_Z 2) with 2. ring. }
  apply Z.abs_le in Herr. destruct Herr as [Hlo Hhi].
  rewrite Zle_Qle in Hlo, Hhi. rewrite <- Hz in Hlo, Hhi.
  apply Qabs_Qle_condition. split.
  - apply (Qmult_le_r _ _ _ HS).
    refine (Qle_trans _ _ _ _ Hlo). apply Qle_bool_iff. vm_compute. reflexivity.
  - apply (Qmult_le_r _ _ _ HS).
    refine (Qle_trans _ _ _ Hhi _). apply Qle_bool_iff. vm_compute. reflexivity.
Qed.

(** The image 1200 by 800 on A4 with a margin of 10 mm: its ratio exceeds
    that of the content box and the placement is as wide as the box, as
    the claim says, but the placement is not centred on the other axis:
    the inset at the top, 75.166666666666657, and the inset at the bottom,
    75.166666666666671, differ, whether the two are taken exactly from the
    numbers returned or computed in binary64. *)
Lemma calculatePlacement_insets_counterexample :
  let availWidth := (210 - 10 * 2)%float in
  let availHeight := (297 - 10 * 2)%float in
  let pl := Binary64.calculatePlacement 1200 800 210 297 10 in
  (availWidth / availHeight <? 1200 / 800)%float = true
  /\ Binary64.pwidth pl = availWidth
  /\ ~ topInset pl 10 == bottomInset pl availHeight 10
  /\ (Binary64.py pl - 10 =? 10 + availHeight - (Binary64.py pl + Binary64.pheight pl))%float
     = false.
Proof.
  intros availWidth availHeight pl.
  split; [vm_compute; reflexivity |]. split; [vm_compute; reflexivity |].
  split; [| vm_compute; reflexivity].
  intros H. vm_compute in H. discriminate H.
Qed.

(** C5.  In binary64, for a margin and sides of the content box that are
    moderate: when the image's ratio exceeds the box's, as the code
    compares them, the placement is as wide as the box exactly, its
    horizontal offset equals the margin, and its height is the width
    divided by the image's ratio; otherwise it is as high as the box
    exactly, its vertical offset equals the margin, and its width is the
    height times the image's ratio.  When the sides of the placement are
    moderate too, the offsets are finite and the placement is centred on
    both axes up to rounding: the insets on the left and on the right,
    and those at the top and at the bottom, differ by at most a
    millionth. *)
Theorem calculatePlacement_centered
    (imgWidth imgHeight pageWidth pageHeight margin : float) :
  let availWidth := (pageWidth - margin * 2)%float in
  let availHeight := (pageHeight - margin * 2)%float in
  let imgRatio := (imgWidth / imgHeight)%float in
  let pageRatio := (availWidth / availHeight)%float in
  let pl := Binary64.calculatePlacement imgWidth imgHeight pageWidth pageHeight margin in
  moderate margin = true ->
  moderate availWidth = true ->
  moderate availHeight = true ->
  ((pageRatio <? imgRatio)%float = true ->
     Binary64.pwidth pl = availWidth
     /\ Binary64.pheight pl = (availWidth / imgRatio)%float
     /\ (Binary64.px pl =? margin)%float = true)
  /\ ((pageRatio <? imgRatio)%float = false ->
      Binary64.pheight pl = availHeight
      /\ Binary64.pwidth pl = (availHeight * imgRatio)%float
      /\ (Binary64.py pl =? margin)%float = true)
  /\ (moderate (Binary64.pwidth pl) = true ->
      moderate (Binary64.pheight pl) = true ->
      Binary64.isFinite (Binary64.px pl) = true
      /\ Binary64.isFinite (Binary64.py pl) = true
      /\ Qabs (leftInset pl margin - rightInset pl availWidth margin) <= 1 # 1000000
      /\ Qabs (topInset pl margin - bottomInset pl availHeight margin) <= 1 # 1000000).
Proof.
  intros availWidth availHeight imgRatio pageRatio pl Hm Hw Hh.
  assert (Fm : Binary64.isFinite margin = true) by now apply moderate_isFinite.
  assert (Fw : Binary64.isFinite availWidth = true) by now apply moderate_isFinite.
  assert (Fh : Binary64.isFinite availHeight = true) by now apply moderate_isFinite.
  assert (Hpl : Binary64.px pl
                = (margin + (availWidth - Binary64.pwidth pl) / 2)%float
                /\ Binary64.py pl
                   = (margin + (availHeight - Binary64.pheight pl) / 2)%float).
  { subst pl. unfold Binary64.calculatePlacement.
    fold availWidth availHeight. fold imgRatio pageRatio.
    destruct (pageRatio <? imgRatio)%float; split; reflexivity. }
  destruct Hpl as [Hx Hy].
  split; [| split].
  - intros E. subst pl. unfold Binary64.calculatePlacement.
    fold availWidth availHeight. fold imgRatio pageRatio. rewrite E.
    cbn [Binary64.px Binary64.py Binary64.pwidth Binary64.pheight].
    split; [reflexivity |]. split; [reflexivity | now apply pinned_offset].
  - intros E. subst pl. unfold Binary64.calculatePlacement.
    fold availWidth availHeight. fold imgRatio pageRatio. rewrite E.
    cbn [Binary64.px Binary64.py Binary64.pwidth Binary64.pheight].
    split; [reflexivity |]. split; [reflexivity | now apply pinned_offset].
  - intros Hpw Hph.
    destruct (centred_within margin availWidth (Binary64.pwidth pl) Hm Hw Hpw)
      as [Fx Ex].
    destruct (centred_within margin availHeight (Binary64.pheight pl) Hm Hh Hph)
      as [Fy Ey].
    cbv zeta in Fx, Ex, Fy, Ey. rewrite <- Hx in Fx, Ex. rewrite <- Hy in Fy, Ey.
    split; [exact Fx |]. split; [exact Fy |]. split; [exact Ex | exact Ey].
Qed.

Lemma calculatePlacement_centered_witness :
  let pl := Binary64.calculatePlacement 1200 800 210 297 10 in
  Binary64.pwidth pl = 190%float
  /\ (Binary64.px pl =? 10)%float = true
  /\ Binary64.pheight pl = (190 / (1200 / 800))%float
  /\ Qabs (topInset pl 10 - bottomInset pl 277 10) <= 1 # 1000000.
Proof.
  intros pl.
  destruct (calculatePlacement_centered 1200 800 210 297 10 eq_refl eq_refl eq_refl)
    as (Hwide & _ & Hcentred).
  destruct (Hwide eq_refl) as (Hw & Hh & Hx).
  destruct (Hcentred eq_refl eq_refl) as (_ & _ & _ & Hy).
  split; [exact Hw |]. split; [exact Hx |]. split; [exact Hh | exact Hy].
Defined.

(* ================================================================= *)
(** ** Runs *)

Lemma trace_bind {A B} (m : Run A) (k : A -> Run B) :
  trace (bind m k) =
  (trace m ++ match outcomeOf m with
              | Ok a => trace (k a)
              | Throw _ => []
              end)%list.
Proof.
  destruct m as [t [a | msg]]; unfold bind; simpl.
  - destruct (k a); reflexivity.
  - now rewrite app_nil_r.
Qed.

Lemma outcome_bind {A B} (m : Run A) (k : A -> Run B) :
  outcomeOf (bind m k) =
  match outcomeOf m with
  | Ok a => outcomeOf (k a)
  | Throw msg => Throw msg
  end.
Proof.
  destruct m as [t [a | msg]]; unfold bind; simpl.
  - destruct (k a); reflexivity.
  - reflexivity.
Qed.

Lemma outcome_bind_quiet {B} (cb : Callback) (p : Q) (k : unit -> Run B) :
  quiet cb -> outcomeOf (bind (cb p) k) = outcomeOf (k tt).
Proof.
  intros Hq. rewrite outcome_bind, (Hq p). reflexivity.
Qed.

Lemma quiet_report : quiet report.
Proof. intros p. reflexivity. Qed.

Lemma bind_report {B} (p : Q) (k : unit -> Run B) :
  bind (report p) k = (p :: trace (k tt), outcomeOf (k tt)).
Proof. unfold bind, report, trace, outcomeOf. now destruct (k tt). Qed.

Lemma bind_await_ok {A B} (a : A) (k : A -> Run B) : bind (await (Ok a)) k = k a.
Proof. unfold bind, await. now destruct (k a). Qed.




(* ================================================================= *)
(** ** Archives without a main document *)

Section MissingDocument.

Variable host : Host.

Lemma docxsLoop_collects (cb : Callback) (files : list File) (ds : list Found) :
  quiet cb -> Forall2 (opensAs host) files ds ->
  forall n i acc,
    outcomeOf (docxsLoop host cb n i files acc)
    = Ok (acc ++ collectedParts files ds)%list.
Proof.
  intros Hq Hall. induction Hall as [| f d files' ds' Hf _ IH]; intros n i acc.
  - cbn. now rewrite app_nil_r.
  - cbn [docxsLoop collectedParts].
    rewrite outcome_bind_quiet by exact Hq.
    destruct d as [[zip xml] |]; cbn [opensAs] in Hf.
    + destruct Hf as (buf & entry & Hbuf & Hzip & Hentry & Hxml).
      rewrite Hbuf, bind_await_ok, Hzip, bind_await_ok, Hentry, Hxml, bind_await_ok.
      rewrite IH. unfold htmlPartsOf. now rewrite <- app_assoc.
    + destruct Hf as (buf & zip & Hbuf & Hzip & Hnone).
      rewrite Hbuf, bind_await_ok, Hzip, bind_await_ok, Hnone.
      rewrite IH. reflexivity.
Qed.

(** The loop reports once for every file, also for a file without a main
    document and for the files after it. *)
Lemma docxsLoop_reports (files : list File) (ds : list Found) :
  Forall2 (opensAs host) files ds ->
  forall n i acc,
    List.length (trace (docxsLoop host report n i files acc)) = List.length files.
Proof.
  intros Hall. induction Hall as [| f d files' ds' Hf _ IH]; intros n i acc.
  - reflexivity.
  - cbn [docxsLoop List.length]. rewrite bind_report. cbn [trace fst List.length].
    f_equal.
    destruct d as [[zip xml] |]; cbn [opensAs] in Hf.
    + destruct Hf as (buf & entry & Hbuf & Hzip & Hentry & Hxml).
      rewrite Hbuf, bind_await_ok, Hzip, bind_await_ok, Hentry, Hxml, bind_await_ok.
      apply IH.
    + destruct Hf as (buf & zip & Hbuf & Hzip & Hnone).
      rewrite Hbuf, bind_await_ok, Hzip, bind_await_ok, Hnone.
      apply IH.
Qed.

Lemma collectedParts_skip (before after : list File) (ds1 ds2 : list Found) (bad : File) :
  List.length before = List.length ds1 ->
  collectedParts (before ++ bad :: after) (ds1 ++ None :: ds2)
  = (collectedParts before ds1 ++ collectedParts after ds2)%list.
Proof.
  revert ds1. induction before as [| f before' IH]; intros [| d ds1'] Hlen;
    try discriminate Hlen.
  - reflexivity.
  - cbn [app collectedParts]. rewrite IH by (simpl in Hlen; lia).
    now rewrite app_assoc.
Qed.

(** C6.  A single DOCX whose archive opens and lacks [word/document.xml]
    makes [docxToPdf] throw after the reports 10, 20 and 30, with no
    result.  In a batch such a file is passed over and the loop goes on
    with the files after it: the loop reports once for every file, the
    collected HTML is the three parts of each of the other files, in
    order, with nothing from the file without a main document, and the
    batch has the outcome of rasterizing that HTML. *)
Theorem missing_document (options : ConversionOptions) (bad : File) :
  lacksDocument host bad ->
  docxToPdf host bad options report
    = ([10; 20; 30], Throw "Invalid DOCX file: missing document.xml")
  /\ (forall (before after : list File) (ds1 ds2 : list Found),
        Forall2 (opensAs host) before ds1 ->
        Forall2 (opensAs host) after ds2 ->
        let files := (before ++ bad :: after)%list in
        let parts := (collectedParts before ds1 ++ collectedParts after ds2)%list in
        (forall cb n i acc,
           quiet cb ->
           outcomeOf (docxsLoop host cb n i files acc) = Ok (acc ++ parts)%list)
        /\ (forall n i acc,
              List.length (trace (docxsLoop host report n i files acc))
              = List.length files)
        /\ (forall cb,
              quiet cb ->
              outcomeOf (docxsToSinglePdf host files options cb)
              = match outcomeOf
                        (htmlToPdf host (htmlFileOf (join nl parts) "combined.html")
                           options (fun progress => cb (50 + progress * (5 # 10))))
                with
                | Ok res =>
                    Ok (mkResult (blob res) "converted-documents.pdf" (pageCount res))
                | Throw msg => Throw msg
                end)).
Proof.
  intros Hbad. split.
  - destruct Hbad as (buf & zip & Hbuf & Hzip & Hnone).
    unfold docxToPdf, bind, report, await. simpl.
    rewrite Hbuf. simpl. rewrite Hzip. simpl. rewrite Hnone. reflexivity.
  - intros before after ds1 ds2 H1 H2 files parts.
    assert (Hall : Forall2 (opensAs host) files (ds1 ++ None :: ds2)).
    { apply Forall2_app; [exact H1 |]. constructor; [exact Hbad | exact H2]. }
    assert (Hparts : collectedParts files (ds1 ++ None :: ds2) = parts).
    { apply collectedParts_skip. eapply Forall2_length. exact H1. }
    split; [| split].
    + intros cb n i acc Hq.
      rewrite (docxsLoop_collects cb files _ Hq Hall). now rewrite Hparts.
    + intros n i acc. exact (docxsLoop_reports files _ Hall n i acc).
    + intros cb Hq. unfold docxsToSinglePdf.
      destruct files as [| f0 r0] eqn:E; [destruct before; discriminate |].
      rewrite <- E in *. rewrite outcome_bind.
      rewrite (docxsLoop_collects cb files _ Hq Hall). rewrite Hparts.
      cbn [app]. rewrite outcome_bind_quiet by exact Hq. cbv zeta.
      rewrite outcome_bind.
      destruct (outcomeOf (htmlToPdf host (htmlFileOf (join nl parts) "combined.html")
                             options (fun progress => cb (50 + progress * (5 # 10)))));
        reflexivity.
Qed.

End MissingDocument.

Lemma missing_document_witness :
  let a := mkFile "a.docx" EmptyString 26 "<p><r><t>Alpha</t></r></p>" in
  let bad := mkFile "empty.docx" EmptyString 4 "PK.." in
  let b := mkFile "b.docx" EmptyString 25 "<p><r><t>Beta</t></r></p>" in
  let found f := Some ([("word/document.xml", mkZipObject (Ok (bytes f)) (Ok (bytes f)))],
                       bytes f) in
  let parts := (collectedParts [a] [found a] ++ collectedParts [b] [found b])%list in
  docxToPdf partialArchiveHost bad defaultOptions report
    = ([10; 20; 30], Throw "Invalid DOCX file: missing document.xml")
  /\ outcomeOf (docxsLoop partialArchiveHost report 3 O [a; bad; b] []) = Ok parts
  /\ List.length (trace (docxsLoop partialArchiveHost report 3 O [a; bad; b] [])) = 3%nat
  /\ nth 1 parts EmptyString = "<p>Alpha</p>"
  /\ nth 4 parts EmptyString = "<p>Beta</p>"
  /\ List.length parts = 6%nat.
Proof.
  intros a bad b found parts.
  assert (Hbad : lacksDocument partialArchiveHost bad).
  { exists "PK..", [("word/styles.xml", mkZipObject (Ok EmptyString) (Ok EmptyString))].
    repeat split. }
  assert (Ha : Forall2 (opensAs partialArchiveHost) [a] [found a]).
  { constructor; [| constructor].
    exists (bytes a), (mkZipObject (Ok (bytes a)) (Ok (bytes a))). repeat split. }
  assert (Hb : Forall2 (opensAs partialArchiveHost) [b] [found b]).
  { constructor; [| constructor].
    exists (bytes b), (mkZipObject (Ok (bytes b)) (Ok (bytes b))). repeat split. }
  destruct (missing_document partialArchiveHost defaultOptions bad Hbad) as [H1 H2].
  destruct (H2 [a] [b] [found a] [found b] Ha Hb) as (Hloop & Hreports & _).
  split; [exact H1 |].
  split; [exact (Hloop report 3%nat O [] quiet_report) |].
  split; [exact (Hreports 3%nat O []) |].
  repeat split; vm_compute; reflexivity.
Defined.

(* ================================================================= *)
(** ** Dispatch *)

Lemma setAdd_In (t u : FileType) (s : list FileType) :
  In t (Hook.setAdd u s) <-> t = u \/ In t s.
Proof.
  induction s as [| v r IH]; simpl.
  - intuition.
  - unfold FileType_eqb. destruct (FileType_eq_dec v u) as [-> | Hne]; simpl.
    + intuition.
    + rewrite IH. intuition.
Qed.

Lemma typeSet_acc_In (t : FileType) (fs : list Hook.ConvertibleFile) :
  forall acc,
    In t (fold_left (fun s f => Hook.setAdd (Hook.ftype f) s) fs acc)
    <-> In t acc \/ exists f, In f fs /\ Hook.ftype f = t.
Proof.
  induction fs as [| g rest IH]; intros acc; simpl.
  - split; [now left | intros [H | (f & [] & _)]; exact H].
  - rewrite IH, setAdd_In. split.
    + intros [[-> | H] | (f & Hin & Hf)].
      * right. exists g. auto.
      * now left.
      * right. exists f. auto.
    + intros [H | (f & [<- | Hin] & Hf)].
      * left. now right.
      * left. left. now symmetry.
      * right. exists f. auto.
Qed.

Lemma typeSet_In (t : FileType) (fs : list Hook.ConvertibleFile) :
  In t (Hook.typeSet fs) <-> exists f, In f fs /\ Hook.ftype f = t.
Proof.
  unfold Hook.typeSet. rewrite typeSet_acc_In. simpl. intuition.
Qed.

Lemma filesOfType_nonempty (p : FileType -> bool) (fs : list Hook.ConvertibleFile) :
  Nat.ltb 0%nat (List.length (Hook.filesOfType p fs)) = true
  <-> exists f, In f fs /\ p (Hook.ftype f) = true.
Proof.
  unfold Hook.filesOfType. rewrite length_map. split.
  - intros H. apply Nat.ltb_lt in H.
    destruct (filter (fun f => p (Hook.ftype f)) fs) as [| f r] eqn:E;
      [simpl in H; lia |].
    assert (Hin : In f (filter (fun f => p (Hook.ftype f)) fs))
      by (rewrite E; now left).
    apply filter_In in Hin. now exists f.
  - intros (f & Hin & Hp). apply Nat.ltb_lt.
    assert (Hf : In f (filter (fun f => p (Hook.ftype f)) fs))
      by (apply filter_In; auto).
    destruct (filter (fun f => p (Hook.ftype f)) fs); [contradiction | simpl; lia].
Qed.

Lemma spec_ranks_In (k : nat) (fs : list Hook.ConvertibleFile) :
  In k (spec_ranks fs)
  <-> exists f, In f fs /\ spec_rank (Hook.ftype f) = Some k.
Proof.
  unfold spec_ranks. rewrite in_flat_map. split.
  - intros (f & Hin & Hk). exists f. split; [exact Hin |].
    destruct (spec_rank (Hook.ftype f)); simpl in Hk; [| contradiction].
    destruct Hk as [-> | []]. reflexivity.
  - intros (f & Hin & Hk). exists f. split; [exact Hin |].
    rewrite Hk. now left.
Qed.

Lemma fold_min_least (k : nat) (r : list nat) :
  In (fold_right Nat.min k r) (k :: r)
  /\ forall x, In x (k :: r) -> (fold_right Nat.min k r <= x)%nat.
Proof.
  induction r as [| y r [IHin IHle]]; simpl.
  - split; [now left | intros x [-> | []]; lia].
  - split.
    + destruct (Nat.min_dec y (fold_right Nat.min k r)) as [E | E]; rewrite E.
      * right. now left.
      * destruct IHin as [H | H]; [now left | right; now right].
    + intros x [-> | [-> | Hx]].
      * specialize (IHle x (or_introl eq_refl)). lia.
      * lia.
      * specialize (IHle x (or_intror Hx)). lia.
Qed.

(** The least rank present is [b] when some file has rank [b] and no file
    has a smaller one. *)
Lemma spec_best_is (b : nat) (fs : list Hook.ConvertibleFile) :
  (exists f, In f fs /\ spec_rank (Hook.ftype f) = Some b) ->
  (forall f k, In f fs -> spec_rank (Hook.ftype f) = Some k -> (b <= k)%nat) ->
  spec_best fs = Some b.
Proof.
  intros Hex Hmin. unfold spec_best.
  apply spec_ranks_In in Hex.
  destruct (spec_ranks fs) as [| k r] eqn:E; [contradiction |].
  destruct (fold_min_least k r) as [Hin Hle].
  f_equal. apply Nat.le_antisymm.
  - apply Hle. exact Hex.
  - rewrite <- E in Hin. apply spec_ranks_In in Hin.
    destruct Hin as (f & Hf & Hk). exact (Hmin f _ Hf Hk).
Qed.

Lemma spec_group_is (b : nat) (p : FileType -> bool) (fs : list Hook.ConvertibleFile) :
  spec_best fs = Some b ->
  (forall t, p t = match spec_rank t with
                   | Some k => Nat.eqb k b
                   | None => false
                   end) ->
  spec_group fs = Hook.filesOfType p fs.
Proof.
  intros Hb Hp. unfold spec_group, Hook.filesOfType. rewrite Hb. f_equal.
  apply filter_ext. intros f. symmetry. apply Hp.
Qed.

Lemma no_files_of_type (p : FileType -> bool) (fs : list Hook.ConvertibleFile) :
  Nat.ltb 0%nat (List.length (Hook.filesOfType p fs)) = false ->
  forall f, In f fs -> p (Hook.ftype f) = false.
Proof.
  intros H f Hin. destruct (p (Hook.ftype f)) eqn:E; [| reflexivity].
  assert (Nat.ltb 0%nat (List.length (Hook.filesOfType p fs)) = true)
    by (apply filesOfType_nonempty; now exists f).
  congruence.
Qed.

(** In a queue of two or more distinct types the converter run is the
    batch converter of the highest-priority group, on that group. *)
Lemma dispatch_mixed (host : Host) (fs : list Hook.ConvertibleFile)
    (options : ConversionOptions) (cb : Callback) :
  (2 <= List.length (Hook.typeSet fs))%nat ->
  exists b,
    spec_best fs = Some b
    /\ Hook.dispatch host fs options cb
       = spec_batch_converter b host (spec_group fs) options cb.
Proof.
  intros Hmixed. unfold Hook.dispatch.
  destruct (Hook.typeSet fs) as [| t1 [| t2 ts]] eqn:Ets;
    [simpl in Hmixed; lia | simpl in Hmixed; lia |].
  assert (Hin1 : In t1 (Hook.typeSet fs)) by (rewrite Ets; now left).
  assert (Hin2 : In t2 (Hook.typeSet fs)) by (rewrite Ets; right; now left).
  destruct (Nat.ltb 0%nat (List.length (Hook.filesOfType (FileType_eqb image) fs))) eqn:Ei.
  { apply filesOfType_nonempty in Ei. destruct Ei as (f & Hf & Hp).
    assert (Hb : spec_best fs = Some 0%nat).
    { apply spec_best_is; [| intros; lia].
      exists f. split; [exact Hf |].
      destruct (Hook.ftype f); try discriminate. reflexivity. }
    exists 0%nat. split; [exact Hb |].
    rewrite (spec_group_is 0%nat (FileType_eqb image) fs Hb); [reflexivity |].
    now intros []. }
  pose proof (no_files_of_type _ _ Ei) as Hnoimg.
  destruct (Nat.ltb 0%nat (List.length (Hook.filesOfType (FileType_eqb text) fs))) eqn:Et.
  { apply filesOfType_nonempty in Et. destruct Et as (f & Hf & Hp).
    assert (Hb : spec_best fs = Some 1%nat).
    { apply spec_best_is.
      - exists f. split; [exact Hf |].
        destruct (Hook.ftype f); try discriminate. reflexivity.
      - intros g k Hg Hk. specialize (Hnoimg g Hg).
        destruct (Hook.ftype g); simpl in Hk; inversion Hk; subst;
          try lia; discriminate. }
    exists 1%nat. split; [exact Hb |].
    rewrite (spec_group_is 1%nat (FileType_eqb text) fs Hb); [reflexivity |].
    now intros []. }
  pose proof (no_files_of_type _ _ Et) as Hnotxt.
  destruct (Nat.ltb 0%nat (List.length (Hook.filesOfType Hook.isHtmlLike fs))) eqn:Eh.
  { apply filesOfType_nonempty in Eh. destruct Eh as (f & Hf & Hp).
    assert (Hb : spec_best fs = Some 2%nat).
    { apply spec_best_is.
      - exists f. split; [exact Hf |].
        destruct (Hook.ftype f); try discriminate; reflexivity.
      - intros g k Hg Hk. specialize (Hnoimg g Hg). specialize (Hnotxt g Hg).
        destruct (Hook.ftype g); simpl in Hk; inversion Hk; subst;
          try lia; discriminate. }
    exists 2%nat. split; [exact Hb |].
    rewrite (spec_group_is 2%nat Hook.isHtmlLike fs Hb); [reflexivity |].
    now intros []. }
  pose proof (no_files_of_type _ _ Eh) as Hnohtml.
  (* neither image, text, HTML nor Markdown: of the two distinct types one
     is DOCX *)
  assert (Hdocx : exists f, In f fs /\ Hook.ftype f = docx).
  { apply typeSet_In in Hin1. apply typeSet_In in Hin2.
    destruct Hin1 as (f1 & Hf1 & E1). destruct Hin2 as (f2 & Hf2 & E2).
    assert (Hne : t1 <> t2).
    { intros ->. 
      assert (Hs : forall s t, In t s -> Hook.setAdd t s = s).
      { induction s as [| v r IH]; intros t Ht; [contradiction |].
        simpl. unfold FileType_eqb.
        destruct (FileType_eq_dec v t); [reflexivity |].
        f_equal. apply IH. destruct Ht; [contradiction | assumption]. }
      assert (Hnd : forall l acc, NoDup acc ->
                NoDup (fold_left (fun s f => Hook.setAdd (Hook.ftype f) s) l acc)).
      { induction l as [| g l IH]; intros acc Hacc; simpl; [exact Hacc |].
        apply IH. clear IH.
        induction acc as [| v r IHr]; simpl.
        - constructor; [intros [] | constructor].
        - unfold FileType_eqb.
          destruct (FileType_eq_dec v (Hook.ftype g)); [exact Hacc |].
          inversion Hacc; subst. constructor.
          + rewrite setAdd_In. intros [-> | H]; [congruence | contradiction].
          + now apply IHr. }
      specialize (Hnd fs [] (NoDup_nil _)). fold (Hook.typeSet fs) in Hnd.
      rewrite Ets in Hnd. inversion Hnd; subst. apply H1. now left. }
    pose proof (Hnoimg f1 Hf1) as A1. pose proof (Hnotxt f1 Hf1) as B1.
    pose proof (Hnohtml f1 Hf1) as C1.
    pose proof (Hnoimg f2 Hf2) as A2. pose proof (Hnotxt f2 Hf2) as B2.
    pose proof (Hnohtml f2 Hf2) as C2.
    destruct (Hook.ftype f1) eqn:T1; try discriminate;
      destruct (Hook.ftype f2) eqn:T2; try discriminate; subst.
    - exists f1. auto.
    - exists f1. auto.
    - exists f2. auto.
    - contradiction. }
  destruct Hdocx as (f & Hf & Hd).
  assert (Hb : spec_best fs = Some 3%nat).
  { apply spec_best_is.
    - exists f. split; [exact Hf |]. now rewrite Hd.
    - intros g k Hg Hk. specialize (Hnoimg g Hg). specialize (Hnotxt g Hg).
      specialize (Hnohtml g Hg).
      destruct (Hook.ftype g); simpl in Hk; inversion Hk; subst;
        try lia; discriminate. }
  exists 3%nat. split; [exact Hb |].
  rewrite (spec_group_is 3%nat (FileType_eqb docx) fs Hb); [reflexivity |].
  now intros [].
Qed.

Lemma outcome_bind_ok {A B} (m : Run A) (k : A -> Run B) (r : B) :
  outcomeOf (bind m k) = Ok r ->
  exists a, outcomeOf m = Ok a /\ outcomeOf (k a) = Ok r.
Proof.
  rewrite outcome_bind. destruct (outcomeOf m) as [a | msg]; [| discriminate].
  intros H. now exists a.
Qed.

Lemma drawOnLast_length (op : DrawOp) (ps : list Page) :
  List.length (drawOnLast op ps) = List.length ps.
Proof.
  induction ps as [| p [| q r] IH]; simpl in *; try reflexivity.
  now rewrite IH.
Qed.

Lemma addImage_pages (x y0 w h : Q) (pdf : jsPDF) :
  List.length (pages (addImage x y0 w h pdf)) = List.length (pages pdf).
Proof. apply drawOnLast_length. Qed.

Lemma addPage_pages (f : option PageFormat) (o : option Orientation) (pdf : jsPDF) :
  List.length (pages (addPage f o pdf)) = S (List.length (pages pdf)).
Proof. unfold addPage. simpl. rewrite length_app. simpl. lia. Qed.

(** When every image loads, the loop of [imagesToPdf] ends normally with a
    document that has one more page per image. *)
Lemma imagesLoop_ok (host : Host) (options : ConversionOptions) (cb : Callback)
    (files : list File) :
  quiet cb -> Forall (imageLoads host) files ->
  forall n i pdf,
    (i = O <-> pdf = None) ->
    exists r,
      outcomeOf (imagesLoop host options cb n i files pdf) = Ok r
      /\ pagesOf r = (pagesOf pdf + List.length files)%nat
      /\ (files <> [] -> r <> None).
Proof.
  intros Hq Hall. induction Hall as [| f rest Hf _ IH]; intros n i pdf Hi.
  - exists pdf. simpl. repeat split; [lia | congruence].
  - destruct Hf as (url & img & Hurl & Himg & Hctx & _).
    assert (Hcase : (i = O /\ pdf = None) \/ (exists j d0, i = S j /\ pdf = Some d0)).
    { destruct i as [| j].
      - left. split; [reflexivity | now apply Hi].
      - right. destruct pdf as [d0 |]; [now exists j, d0 |].
        exfalso. assert (S j = O) by now apply Hi. discriminate. }
    cbn [imagesLoop]. rewrite outcome_bind_quiet by exact Hq.
    rewrite outcome_bind. unfold await at 1. cbn [outcomeOf snd]. rewrite Hurl.
    rewrite outcome_bind. unfold await at 1. cbn [outcomeOf snd]. rewrite Himg.
    rewrite outcome_bind. unfold imageToCanvas at 1.
    rewrite Hctx. cbn [outcomeOf snd ret]. cbv zeta.
    rewrite outcome_bind.
    destruct Hcase as [[-> ->] | (j & d0 & -> & ->)];
      cbn [Nat.eqb outcomeOf snd ret];
      match goal with
      | |- context [imagesLoop host options cb n (S ?k) rest (Some ?d2)] =>
          destruct (IH n (S k) (Some d2)) as (r & Hr & Hp & _);
            [split; discriminate |];
          exists r; split; [exact Hr |];
          cbn [pagesOf] in Hp; rewrite addImage_pages in Hp
      end.
    + simpl in Hp. split; [simpl; lia | intros _ ->; simpl in Hp; lia].
    + rewrite addPage_pages in Hp.
      split; [simpl; lia | intros _ ->; simpl in Hp; lia].
Qed.

Lemma imagesToPdf_ok (host : Host) (options : ConversionOptions) (cb : Callback)
    (files : list File) :
  quiet cb -> files <> [] -> Forall (imageLoads host) files ->
  exists res,
    outcomeOf (imagesToPdf host files options cb) = Ok res
    /\ pageCount res = Z.of_nat (List.length files)
    /\ List.length (pages (blob res)) = List.length files
    /\ filename res = "converted-images.pdf".
Proof.
  intros Hq Hne Hall. unfold imagesToPdf.
  destruct files as [| f rest] eqn:E; [contradiction |]. rewrite <- E in *.
  destruct (imagesLoop_ok host options cb files Hq Hall (List.length files) O None)
    as (r & Hr & Hp & Hsome); [split; reflexivity |].
  destruct r as [d |]; [| now specialize (Hsome Hne)].
  rewrite outcome_bind, Hr. rewrite outcome_bind_quiet by exact Hq.
  eexists. split; [reflexivity |]. simpl in Hp. simpl. auto.
Qed.

Lemma dispatch_mixed_images (host : Host) (fs : list Hook.ConvertibleFile)
    (options : ConversionOptions) (cb : Callback) :
  (2 <= List.length (Hook.typeSet fs))%nat ->
  Hook.filesOfType (FileType_eqb image) fs <> [] ->
  Hook.dispatch host fs options cb
  = imagesToPdf host (Hook.filesOfType (FileType_eqb image) fs) options cb.
Proof.
  intros Hmixed Hne. unfold Hook.dispatch.
  destruct (Hook.typeSet fs) as [| t1 [| t2 ts]];
    [simpl in Hmixed; lia | simpl in Hmixed; lia |].
  destruct (Hook.filesOfType (FileType_eqb image) fs); [contradiction | reflexivity].
Qed.

(** C1.  In a queue with two or more distinct types [convert] runs the
    batch converter of the highest-priority group present, in the order
    image, text, HTML or Markdown, DOCX, on the files of that group only.
    When the queue holds images, each with a canvas that is not empty,
    they load and the margin is valid, the run succeeds and the page count
    of the result, and the number of pages of the document, is the number
    of images: 2 for two images and one text file. *)
Theorem mixed_batch_priority (host : Host) (state : Hook.FileConverterState)
    (options : ConversionOptions) :
  let fs := Hook.files state in
  let images := Hook.filesOfType (FileType_eqb image) fs in
  (2 <= List.length (Hook.typeSet fs))%nat ->
  (forall cb, exists b,
      spec_best fs = Some b
      /\ Hook.dispatch host fs options cb
         = spec_batch_converter b host (spec_group fs) options cb)
  /\ (images <> [] -> validMargin options -> Forall (imageLoads host) images ->
      exists res,
        Hook.result (snd (Hook.convert host state options)) = Some res
        /\ pageCount res = Z.of_nat (List.length images)
        /\ List.length (pages (blob res)) = List.length images)
  /\ (List.length images = 2%nat ->
      List.length (Hook.filesOfType (FileType_eqb text) fs) = 1%nat ->
      List.length fs = 3%nat ->
      validMargin options ->
      Forall (imageLoads host) images ->
      exists res,
        Hook.result (snd (Hook.convert host state options)) = Some res
        /\ pageCount res = 2%Z).
Proof.
  intros fs images Hmixed.
  assert (Himg : images <> [] -> validMargin options -> Forall (imageLoads host) images ->
      exists res,
        Hook.result (snd (Hook.convert host state options)) = Some res
        /\ pageCount res = Z.of_nat (List.length images)
        /\ List.length (pages (blob res)) = List.length images).
  { intros Hne _ Hall. subst images fs. unfold Hook.convert.
    destruct (Hook.files state) as [| f0 rest] eqn:Efs; [now elim Hne |].
    rewrite (dispatch_mixed_images host _ options report Hmixed Hne).
    set (images := Hook.filesOfType (FileType_eqb image) (f0 :: rest)) in *.
    destruct (imagesToPdf_ok host options report images quiet_report Hne Hall)
      as (res & Hres & Hcount & Hpages & _).
    unfold outcomeOf in Hres.
    destruct (imagesToPdf host images options report) as [t o]. simpl in Hres.
    subst o. exists res. simpl. auto. }
  split; [intros cb; now apply dispatch_mixed |].
  split; [exact Himg |].
  intros H2 _ _ Hvalid Hall.
  destruct Himg as (res & Hres & Hcount & _); [| exact Hvalid | exact Hall |].
  - intros E. rewrite E in H2. discriminate.
  - exists res. split; [exact Hres |]. rewrite Hcount, H2. reflexivity.
Qed.

Lemma mixed_batch_priority_witness :
  let state := Hook.mkState twoImagesOneText false 0 None None in
  exists res,
    Hook.result (snd (Hook.convert sampleHost state defaultOptions)) = Some res
    /\ pageCount res = 2%Z.
Proof.
  intros state.
  refine (proj2 (proj2 (mixed_batch_priority sampleHost state defaultOptions _))
            eq_refl eq_refl eq_refl _ _).
  - vm_compute. lia.
  - split; [discriminate | reflexivity].
  - apply Forall_forall. intros f _.
    exists ("data:" ++ type f ++ ";base64," ++ bytes f), (800%N, 600%N).
    repeat split.
Defined.

(* ================================================================= *)
(** ** The suggested filename *)

Lemma noDot_with_dot (s e : string) : noDot (s ++ "." ++ e) = false.
Proof.
  induction s as [| c s IH]; simpl in *.
  - reflexivity.
  - rewrite IH. apply andb_false_r.
Qed.

Lemma stripExtension_ext (stem ext : string) :
  ext <> EmptyString -> noDot ext = true ->
  stripExtension (stem ++ "." ++ ext) = stem.
Proof.
  intros Hne Hnd. induction stem as [| c s IH].
  - destruct ext; [contradiction |]. simpl in *. now rewrite Hnd.
  - change (stripExtension (String c (s ++ "." ++ ext)) = String c s).
    cbn [stripExtension].
    rewrite noDot_with_dot, andb_false_r. now rewrite IH.
Qed.

Lemma startsWith_docx_inside (s : string) :
  s <> EmptyString ->
  startsWith ".docx" (s ++ ".docx") = true ->
  startsWith ".docx" s = true.
Proof.
  destruct s as [| c1 [| c2 [| c3 [| c4 [| c5 s]]]]]; simpl; intros Hne H;
    try contradiction; try exact H;
    rewrite ?andb_false_r in H; discriminate.
Qed.

Lemma replaceFirst_docx (stem : string) :
  occurs ".docx" stem = false ->
  replaceFirst ".docx" ".pdf" (stem ++ ".docx") = stem ++ ".pdf".
Proof.
  induction stem as [| c s IH]; intros Hocc.
  - reflexivity.
  - cbn [occurs] in Hocc. apply orb_false_iff in Hocc. destruct Hocc as [Hhere Hrest].
    cbn [append replaceFirst].
    destruct (startsWith ".docx" (String c (s ++ ".docx"))) eqn:E.
    + apply (startsWith_docx_inside (String c s)) in E; [congruence | discriminate].
    + now rewrite IH.
Qed.

(** From a run that ended normally back through its steps. *)
Ltac unbind H :=
  repeat (cbv beta zeta in H;
          apply outcome_bind_ok in H;
          let a := fresh "a" in
          let Ha := fresh "Ha" in
          destruct H as (a & Ha & H));
  cbv beta zeta in H.

Ltac returned H :=
  unfold ret, outcomeOf in H; simpl in H; inversion H; subst; clear H.

Lemma imagesToPdf_filename host files options cb res :
  outcomeOf (imagesToPdf host files options cb) = Ok res ->
  filename res = "converted-images.pdf".
Proof.
  unfold imagesToPdf. intros H. destruct files; [discriminate |].
  unbind H. destruct a as [d |]; [| discriminate]. returned H. reflexivity.
Qed.

Lemma textToPdf_filename host f options cb res :
  outcomeOf (textToPdf host f options cb) = Ok res ->
  filename res = stripExtension (name f) ++ ".pdf".
Proof.
  unfold textToPdf. intros H. unbind H. returned H. reflexivity.
Qed.

Lemma textsToSinglePdf_filename host files options cb res :
  outcomeOf (textsToSinglePdf host files options cb) = Ok res ->
  filename res = "converted-texts.pdf".
Proof.
  unfold textsToSinglePdf. intros H. destruct files; [discriminate |].
  unbind H. returned H. reflexivity.
Qed.

Lemma htmlToPdf_filename host f options cb res :
  outcomeOf (htmlToPdf host f options cb) = Ok res ->
  filename res = stripExtension (name f) ++ ".pdf".
Proof.
  unfold htmlToPdf. intros H. unbind H. returned H. reflexivity.
Qed.

Lemma htmlsToSinglePdf_filename host files options cb res :
  outcomeOf (htmlsToSinglePdf host files options cb) = Ok res ->
  filename res = "converted-documents.pdf".
Proof.
  unfold htmlsToSinglePdf. intros H. destruct files; [discriminate |].
  unbind H. destruct (hpdf a); [| discriminate]. returned H. reflexivity.
Qed.

Lemma docxToPdf_filename host f options cb res :
  outcomeOf (docxToPdf host f options cb) = Ok res ->
  filename res = replaceFirst ".docx" ".pdf" (name f).
Proof.
  unfold docxToPdf. intros H. unbind H.
  match type of H with
  | context [zipFile ?p ?z] => destruct (zipFile p z); [| discriminate]
  end.
  unbind H. returned H. reflexivity.
Qed.

Lemma docxsToSinglePdf_filename host files options cb res :
  outcomeOf (docxsToSinglePdf host files options cb) = Ok res ->
  filename res = "converted-documents.pdf".
Proof.
  unfold docxsToSinglePdf. intros H. destruct files; [discriminate |].
  unbind H. returned H. reflexivity.
Qed.

Lemma typeSet_singleton (fs : list Hook.ConvertibleFile) (t : FileType) :
  Hook.typeSet fs = [t] -> forall f, In f fs -> Hook.ftype f = t.
Proof.
  intros E f Hin.
  assert (H : In (Hook.ftype f) (Hook.typeSet fs))
    by (apply typeSet_In; now exists f).
  rewrite E in H. destruct H as [H | []]. now symmetry.
Qed.

Lemma filesOfType_all (p : FileType -> bool) (fs : list Hook.ConvertibleFile) :
  (forall f, In f fs -> p (Hook.ftype f) = true) ->
  Hook.filesOfType p fs = map Hook.file fs.
Proof.
  intros Hall. unfold Hook.filesOfType. f_equal.
  induction fs as [| g r IH]; simpl; [reflexivity |].
  rewrite (Hall g (or_introl eq_refl)). f_equal.
  apply IH. intros f Hf. apply Hall. now right.
Qed.

(** The converter run for a queue of one file. *)
Lemma dispatch_single (host : Host) (cf : Hook.ConvertibleFile)
    (options : ConversionOptions) (cb : Callback) :
  Hook.dispatch host [cf] options cb =
  match Hook.ftype cf with
  | image => imagesToPdf host [Hook.file cf] options cb
  | text => textToPdf host (Hook.file cf) options cb
  | html | markdown => htmlToPdf host (Hook.file cf) options cb
  | docx => docxToPdf host (Hook.file cf) options cb
  | unknown => throw "Unsupported file type"
  end.
Proof.
  destruct cf as [i f t p s pr]. destruct t; reflexivity.
Qed.

(** A single image is converted by the batch converter of images, which
    names its result [converted-images.pdf] whatever the input's name. *)
Lemma single_image_filename_counterexample :
  let cf := queued "a" (mkFile "photo.png" "image/png" 2048 "pixels") in
  exists res,
    outcomeOf (Hook.dispatch sampleHost [cf] defaultOptions report) = Ok res
    /\ filename res = "converted-images.pdf"
    /\ filename res <> "photo.pdf".
Proof.
  intros cf.
  destruct (imagesToPdf_ok sampleHost defaultOptions report
              [Hook.file cf] quiet_report) as (res & Hres & _ & _ & Hname).
  - discriminate.
  - apply Forall_forall. intros f _.
    exists ("data:" ++ type f ++ ";base64," ++ bytes f), (800%N, 600%N).
    repeat split.
  - exists res. split; [exact Hres |]. split; [exact Hname |].
    rewrite Hname. discriminate.
Qed.

(** C9, amended.  When a conversion ends normally: for a queue of one
    text, HTML or Markdown file whose name is [stem.ext] the filename of the
    result is [stem.pdf]; likewise for one DOCX file named [stem.docx] when
    [.docx] does not occur in [stem]; for one image it is the fixed name
    [converted-images.pdf]; and for a queue of two or more files it is one
    of the three fixed names. *)
Theorem result_filename (host : Host) (fs : list Hook.ConvertibleFile)
    (options : ConversionOptions) (cb : Callback) (res : ConversionResult) :
  outcomeOf (Hook.dispatch host fs options cb) = Ok res ->
  (forall cf stem ext,
      fs = [cf] ->
      name (Hook.file cf) = stem ++ "." ++ ext ->
      ext <> EmptyString -> noDot ext = true ->
      match Hook.ftype cf with
      | image => filename res = "converted-images.pdf"
      | text | html | markdown => filename res = stem ++ ".pdf"
      | docx =>
          ext = "docx" -> occurs ".docx" stem = false ->
          filename res = stem ++ ".pdf"
      | unknown => False
      end)
  /\ ((2 <= List.length fs)%nat ->
      In (filename res)
        ["converted-images.pdf"; "converted-texts.pdf"; "converted-documents.pdf"]).
Proof.
  intros Hres. split.
  - intros cf stem ext -> Hname Hext Hnd.
    rewrite dispatch_single in Hres.
    destruct (Hook.ftype cf).
    + now apply imagesToPdf_filename in Hres.
    + apply textToPdf_filename in Hres.
      now rewrite Hres, Hname, stripExtension_ext.
    + apply htmlToPdf_filename in Hres.
      now rewrite Hres, Hname, stripExtension_ext.
    + apply htmlToPdf_filename in Hres.
      now rewrite Hres, Hname, stripExtension_ext.
    + intros -> Hocc. apply docxToPdf_filename in Hres.
      now rewrite Hres, Hname, replaceFirst_docx.
    + discriminate.
  - intros Hlen. unfold Hook.dispatch in Hres.
    destruct (Hook.typeSet fs) as [| t [| t2 ts]] eqn:Ets.
    + repeat match type of Hres with
             | context [if ?c then _ else _] => destruct c
             end;
        [ apply imagesToPdf_filename in Hres
        | apply textsToSinglePdf_filename in Hres
        | apply htmlsToSinglePdf_filename in Hres
        | apply docxsToSinglePdf_filename in Hres ];
        rewrite Hres; simpl; auto.
    + pose proof (typeSet_singleton fs t Ets) as Hall.
      assert (Hmany : forall p, (forall f, In f fs -> p (Hook.ftype f) = true) ->
                forall g, Hook.filesOfType p fs <> [g]).
      { intros p Hp g E. rewrite (filesOfType_all p fs Hp) in E.
        apply (f_equal (@List.length File)) in E.
        rewrite length_map in E. simpl in E. lia. }
      destruct t.
      * apply imagesToPdf_filename in Hres. rewrite Hres. simpl. auto.
      * destruct (Hook.filesOfType (FileType_eqb text) fs) as [| g [| g2 r]] eqn:E;
          try (apply textsToSinglePdf_filename in Hres; rewrite Hres; simpl; now auto).
        exfalso. apply (Hmany (FileType_eqb text)) with g; [| exact E].
        intros f Hf. now rewrite (Hall f Hf).
      * destruct (Hook.filesOfType Hook.isHtmlLike fs) as [| g [| g2 r]] eqn:E;
          try (apply htmlsToSinglePdf_filename in Hres; rewrite Hres; simpl; now auto).
        exfalso. apply (Hmany Hook.isHtmlLike) with g; [| exact E].
        intros f Hf. now rewrite (Hall f Hf).
      * destruct (Hook.filesOfType Hook.isHtmlLike fs) as [| g [| g2 r]] eqn:E;
          try (apply htmlsToSinglePdf_filename in Hres; rewrite Hres; simpl; now auto).
        exfalso. apply (Hmany Hook.isHtmlLike) with g; [| exact E].
        intros f Hf. now rewrite (Hall f Hf).
      * destruct (Hook.filesOfType (FileType_eqb docx) fs) as [| g [| g2 r]] eqn:E;
          try (apply docxsToSinglePdf_filename in Hres; rewrite Hres; simpl; now auto).
        exfalso. apply (Hmany (FileType_eqb docx)) with g; [| exact E].
        intros f Hf. now rewrite (Hall f Hf).
      * discriminate.
    + repeat match type of Hres with
             | context [if ?c then _ else _] => destruct c
             end;
        [ apply imagesToPdf_filename in Hres
        | apply textsToSinglePdf_filename in Hres
        | apply htmlsToSinglePdf_filename in Hres
        | apply docxsToSinglePdf_filename in Hres ];
        rewrite Hres; simpl; auto.
Qed.

Lemma result_filename_witness :
  let cf := queued "a" (mkFile "notes.txt" "text/plain" 9 "some text") in
  exists res,
    outcomeOf (Hook.dispatch sampleHost [cf] defaultOptions report) = Ok res
    /\ filename res = "notes.pdf".
Proof.
  intros cf.
  destruct (outcomeOf (Hook.dispatch sampleHost [cf] defaultOptions report))
    as [res | msg] eqn:E.
  - exists res. split; [reflexivity |].
    refine (proj1 (result_filename sampleHost [cf] defaultOptions report res E)
              cf "notes" "txt" eq_refl eq_refl _ eq_refl).
    discriminate.
  - vm_compute in E. discriminate.
Defined.

(* ================================================================= *)
(** ** Text pagination *)

Lemma ofNat_S (n : nat) : ofNat (S n) == ofNat n + 1.
Proof.
  unfold ofNat. rewrite Nat2Z.inj_succ, <- Z.add_1_r, inject_Z_plus. reflexivity.
Qed.

Lemma ofNat_le (a b : nat) : ofNat a <= ofNat b <-> (a <= b)%nat.
Proof.
  unfold ofNat. rewrite <- Zle_Qle. lia.
Qed.

Lemma floor_ge (n : Z) (x : Q) : inject_Z n <= x <-> (n <= Qfloor x)%Z.
Proof.
  split.
  - intros H. rewrite <- (Qfloor_Z n). now apply Qfloor_resp_le.
  - intros H. apply Qle_trans with (inject_Z (Qfloor x)).
    + now rewrite <- Zle_Qle.
    + apply Qfloor_le.
Qed.

Lemma ceiling_between (x : Q) (q : Z) :
  inject_Z q < x -> x <= inject_Z (q + 1) -> Qceiling x = (q + 1)%Z.
Proof.
  intros Hlo Hhi.
  assert (H1 : x <= inject_Z (Qceiling x)) by apply Qle_ceiling.
  assert (H2 : inject_Z (Qceiling x) - 1 < x).
  { pose proof (Qceiling_lt x) as H.
    replace (Qceiling x - 1)%Z with (Qceiling x + - 1)%Z in H by lia.
    rewrite inject_Z_plus in H. exact H. }
  rewrite inject_Z_plus in Hhi.
  assert (A : (q < Qceiling x)%Z) by (rewrite Zlt_Qlt; lra).
  assert (B : (Qceiling x < q + 2)%Z).
  { rewrite Zlt_Qlt, inject_Z_plus.
    change (inject_Z 2) with 2. change (inject_Z 1) with 1 in Hhi. lra. }
  lia.
Qed.

Lemma textLoop_outcome (options : ConversionOptions) (cb : Callback)
    (lines : list string) :
  quiet cb ->
  forall n i st,
    outcomeOf (textLoop options cb n i lines st) = Ok (textsLines options lines st).
Proof.
  intros Hq. induction lines as [| line rest IH]; intros n i st; cbn [textLoop textsLines].
  - reflexivity.
  - rewrite outcome_bind.
    destruct (Nat.eqb (i mod 50) 0).
    + rewrite (Hq _). apply IH.
    + cbn [outcomeOf ret snd]. apply IH.
Qed.

Lemma docTexts_addPage (f : option PageFormat) (o : option Orientation) (pdf : jsPDF) :
  docTexts (addPage f o pdf) = docTexts pdf.
Proof.
  unfold docTexts, addPage. simpl. rewrite flat_map_app. simpl.
  now rewrite app_nil_r.
Qed.

Lemma docTexts_drawText (s : string) (x b : Q) (pdf : jsPDF) :
  pages pdf <> [] ->
  docTexts (drawText s x b pdf) = (docTexts pdf ++ [(s, b)])%list.
Proof.
  unfold docTexts, drawText. simpl. generalize (fontBold pdf) as bold.
  induction (pages pdf) as [| p [| p2 r] IH]; intros bold Hne.
  - contradiction.
  - simpl. rewrite flat_map_app. simpl. now rewrite !app_nil_r.
  - change (drawOnLast (DrawText s x b bold) (p :: p2 :: r))
      with (p :: drawOnLast (DrawText s x b bold) (p2 :: r)).
    cbn [flat_map]. rewrite IH by discriminate. cbn [flat_map].
    now rewrite app_assoc.
Qed.

Section TextPagination.

Variable options : ConversionOptions.
Hypothesis valid : validMargin options.

Let m := margin options.
Let H := height (PAGE_SIZES (pageSize options)).
Let K := Qfloor ((H - m * 2) / LINE_HEIGHT).

Lemma content_height_ge : 60 <= H - m * 2.
Proof.
  destruct valid as [_ Hm]. fold m in Hm. subst H.
  destruct (pageSize options); simpl in *.
  - assert (Qmin 210 297 <= 210) by apply Q.le_min_l. lra.
  - assert (Qmin (2159 # 10) (2794 # 10) <= 2159 # 10) by apply Q.le_min_l. lra.
  - assert (Qmin 210 297 <= 210) by apply Q.le_min_l. lra.
Qed.

Lemma fits (n : nat) :
  m + ofNat n * LINE_HEIGHT <= H - m <-> (Z.of_nat n <= K)%Z.
Proof.
  unfold K. rewrite <- floor_ge. fold (ofNat n). unfold LINE_HEIGHT.
  split; intros Hle.
  - apply Qle_shift_div_l; lra.
  - assert (E : (H - m * 2) / 6 * 6 == H - m * 2) by (field).
    lra.
Qed.

Lemma lines_per_page_pos : (1 <= K)%Z.
Proof.
  apply (fits 1). pose proof content_height_ge. unfold LINE_HEIGHT.
  change (ofNat 1) with 1. lra.
Qed.

Lemma placeLine_position (st : TextState) (q c : nat) (line : string) :
  atPosition options st q c ->
  exists q' c',
    atPosition options (placeLine options line st) q' c'
    /\ (1 <= c')%nat
    /\ (q' * Z.to_nat K + c' = q * Z.to_nat K + c + 1)%nat
    /\ docTexts (doc (placeLine options line st))
       = (docTexts (doc st) ++ [(line, y (placeLine options line st))])%list.
Proof.
  intros (Hy & Hc & Hpage & Hlen & Hbase). fold m H K in Hy, Hc, Hbase |- *.
  pose proof lines_per_page_pos as HK.
  assert (Hne : pages (doc st) <> []).
  { intros E. rewrite E, Hpage in Hlen. discriminate. }
  unfold placeLine. fold m H.
  destruct (Qltb (H - m) (y st + LINE_HEIGHT)) eqn:E.
  - (* the line starts a new page *)
    apply Qltb_lt in E.
    assert (HcK : Z.of_nat c = K).
    { destruct (Z.le_gt_cases (Z.of_nat (S c)) K) as [Hle | Hgt]; [| lia].
      apply fits in Hle. rewrite ofNat_S in Hle. unfold LINE_HEIGHT in *. lra. }
    exists (S q), 1%nat. cbn [doc currentPage y].
    assert (Hd : docTexts (drawText line m (m + LINE_HEIGHT) (addPage None None (doc st)))
                 = (docTexts (doc st) ++ [(line, m + LINE_HEIGHT)])%list).
    { rewrite docTexts_drawText, docTexts_addPage; [reflexivity |].
      unfold addPage. simpl. now destruct (pages (doc st)). }
    split; [| split; [lia | split; [lia | exact Hd]]].
    unfold atPosition. cbn [doc currentPage y]. fold m H K.
    split; [change (ofNat 1) with 1; ring |].
    split; [exact HK |]. split; [now rewrite Hpage |].
    split.
    + unfold drawText. cbn [pages]. rewrite drawOnLast_length, addPage_pages.
      now rewrite Hlen, Hpage.
    + unfold baselines. rewrite Hd, map_app. apply Forall_app. split; [exact Hbase |].
      constructor; [| constructor]. simpl.
      pose proof (proj2 (fits 1) HK) as F. change (ofNat 1) with 1 in F. lra.
  - (* the line stays on the page *)
    apply Qltb_ge in E.
    assert (HcK : (Z.of_nat (S c) <= K)%Z).
    { apply fits. rewrite ofNat_S. unfold LINE_HEIGHT in *. lra. }
    exists q, (S c). cbn [doc currentPage y].
    assert (Hd : docTexts (drawText line m (y st + LINE_HEIGHT) (doc st))
                 = (docTexts (doc st) ++ [(line, y st + LINE_HEIGHT)])%list)
      by now rewrite docTexts_drawText.
    split; [| split; [lia | split; [lia | exact Hd]]].
    unfold atPosition. cbn [doc currentPage y]. fold m H K.
    split; [rewrite ofNat_S, Hy; ring |].
    split; [exact HcK |]. split; [exact Hpage |].
    split.
    + unfold drawText. cbn [pages]. now rewrite drawOnLast_length.
    + unfold baselines. rewrite Hd, map_app. apply Forall_app. split; [exact Hbase |].
      constructor; [| constructor]. simpl. exact E.
Qed.

Lemma textsLines_position (lines : list string) :
  forall st q c,
    atPosition options st q c ->
    exists q' c',
      atPosition options (textsLines options lines st) q' c'
      /\ (lines <> [] -> 1 <= c')%nat
      /\ (q' * Z.to_nat K + c' = q * Z.to_nat K + c + List.length lines)%nat
      /\ drawnLines (doc (textsLines options lines st))
         = (drawnLines (doc st) ++ lines)%list.
Proof.
  induction lines as [| line rest IH]; intros st q c Hpos.
  - exists q, c. cbn [textsLines List.length].
    split; [exact Hpos |]. split; [congruence |]. split; [lia |].
    now rewrite app_nil_r.
  - destruct (placeLine_position st q c line Hpos) as (q1 & c1 & Hpos1 & Hc1 & Hn1 & Hd1).
    destruct (IH _ _ _ Hpos1) as (q2 & c2 & Hpos2 & Hc2 & Hn2 & Hd2).
    exists q2, c2. cbn [textsLines List.length].
    split; [exact Hpos2 |]. split.
    + intros _. destruct rest as [| l2 r2].
      * simpl in Hn2. simpl in Hpos2.
        assert (c2 = c1 /\ q2 = q1) as [-> ->]; [| exact Hc1].
        destruct Hpos1 as (_ & _ & Hp1 & _). destruct Hpos2 as (_ & _ & Hp2 & _).
        rewrite Hp1 in Hp2. injection Hp2 as ->. lia.
      * apply Hc2. discriminate.
    + split; [lia |].
      rewrite Hd2. unfold drawnLines at 1. rewrite Hd1, map_app. simpl.
      unfold drawnLines. now rewrite <- app_assoc.
Qed.

End TextPagination.

(** C4.  [textToPdf] reports a page count that is not the number of pages
    of the document: on letter paper with a margin of 13.7 mm the content
    height is 251.99999999999997 in binary64, so [linesPerPage] is 41 and
    a text of 42 lines is reported with [totalPages] 2, while the line
    loop, which compares the positions themselves, places all 42 lines
    before its first page break and leaves the counter [currentPage], and
    the document, at one page. *)
Theorem textToPdf_reported_pages :
  let margin := 13.7%float in
  Binary64.linesPerPage letter margin = 41%float
  /\ Binary64.totalPages letter margin 42 = 2%float
  /\ Binary64.currentPage
       (Binary64.lineLoop letter margin 42 (Binary64.mkLineState 1 margin))
     = 1%nat.
Proof. repeat split; vm_compute; reflexivity. Qed.

(** X29.  For a valid margin of a whole number of millimetres, a file
    that reads as text and the wrapped lines the host returns (at least
    one, as for every string): the run of [textToPdf] ends normally; the
    page count it reports is the value of the page counter when the line
    loop ends, which is the number of pages of the document, and it is
    the ceiling of the number of lines over the floor of the content
    height over the line height; the lines are drawn in order, and no
    baseline lies below the page height minus the margin. *)
Theorem textToPdf_pagination (host : Host) (file : File)
    (options : ConversionOptions) (text_ : string) :
  validMargin options -> wholeMargin options ->
  readAsText host file = Ok text_ ->
  let pageSize0 := PAGE_SIZES (pageSize options) in
  let contentWidth := width pageSize0 - margin options * 2 in
  let contentHeight := height pageSize0 - margin options * 2 in
  let lines := splitTextToSize host text_ contentWidth in
  lines <> [] ->
  exists res st,
    outcomeOf (textToPdf host file options report) = Ok res
    /\ outcomeOf
         (textLoop options report (List.length lines) O lines
            (mkTextState (setFont false (newPdf portrait (paperFormat options)))
               1 (margin options))) = Ok st
    /\ blob res = doc st
    /\ pageCount res = Z.of_nat (currentPage st)
    /\ List.length (pages (blob res)) = currentPage st
    /\ pageCount res
       = Qceiling (ofNat (List.length lines) / floorQ (contentHeight / LINE_HEIGHT))
    /\ drawnLines (blob res) = lines
    /\ Forall (fun b => b <= height pageSize0 - margin options) (baselines (blob res)).
Proof.
  intros Hvalid _ Hread pageSize0 contentWidth contentHeight lines Hne.
  set (st0 := mkTextState (setFont false (newPdf portrait (paperFormat options)))
                1 (margin options)).
  set (K := Qfloor (contentHeight / LINE_HEIGHT)).
  pose proof (lines_per_page_pos options Hvalid) as HK. cbv zeta in HK. fold pageSize0 contentHeight K in HK.
  assert (Hpos0 : atPosition options st0 0 0).
  { unfold atPosition. cbn [st0 doc currentPage y]. fold pageSize0 contentHeight K.
    split; [change (ofNat 0) with 0; ring |].
    split; [lia |]. split; [reflexivity |]. split; [reflexivity | constructor]. }
  destruct (textsLines_position options Hvalid lines st0 0 0 Hpos0)
    as (q & c & Hpos & Hc & Hn & Hdrawn).
  cbv zeta in Hn. fold pageSize0 contentHeight K in Hn.
  destruct Hpos as (_ & HcK & Hpage & Hlen & Hbase).
  fold pageSize0 contentHeight K in HcK, Hbase.
  specialize (Hc Hne).
  exists (mkResult (doc (textsLines options lines st0))
            (stripExtension (name file) ++ ".pdf")
            (Qceiling (ofNat (List.length lines) / floorQ (contentHeight / LINE_HEIGHT)))),
         (textsLines options lines st0).
  assert (Hpages :
            Qceiling (ofNat (List.length lines) / floorQ (contentHeight / LINE_HEIGHT))
            = Z.of_nat (currentPage (textsLines options lines st0))).
  { rewrite Hpage. replace (Z.of_nat (S q)) with (Z.of_nat q + 1)%Z by lia.
    fold K. unfold floorQ, ofNat.
    assert (HKq : 0 < inject_Z K).
    { change 0 with (inject_Z 0). rewrite <- Zlt_Qlt. lia. }
    assert (HN : Z.of_nat (List.length lines) = (Z.of_nat q * K + Z.of_nat c)%Z) by lia.
    apply ceiling_between.
    - apply Qlt_shift_div_l; [exact HKq |].
      rewrite <- inject_Z_mult, <- Zlt_Qlt. lia.
    - apply Qle_shift_div_r; [exact HKq |].
      rewrite <- inject_Z_mult, <- Zle_Qle. lia. }
  split.
  { unfold textToPdf. rewrite outcome_bind_quiet by exact quiet_report.
    rewrite outcome_bind. unfold await at 1. cbn [outcomeOf snd]. rewrite Hread.
    rewrite outcome_bind_quiet by exact quiet_report. cbv zeta.
    rewrite outcome_bind_quiet by exact quiet_report.
    rewrite outcome_bind, textLoop_outcome by exact quiet_report.
    rewrite outcome_bind_quiet by exact quiet_report. reflexivity. }
  split; [now apply textLoop_outcome, quiet_report |].
  cbn [blob pageCount].
  split; [reflexivity |]. split; [exact Hpages |]. split; [exact Hlen |].
  split; [reflexivity |]. split; [exact Hdrawn | exact Hbase].
Qed.

Lemma textToPdf_pagination_witness :
  let file := mkFile "notes.txt" "text/plain" 99 fiftyLines in
  exists res,
    outcomeOf (textToPdf sampleHost file defaultOptions report) = Ok res
    /\ pageCount res = 2%Z
    /\ List.length (pages (blob res)) = 2%nat
    /\ List.length (drawnLines (blob res)) = 50%nat.
Proof.
  intros file.
  destruct (textToPdf_pagination sampleHost file defaultOptions (bytes file))
    as (res & st & Hres & _ & _ & Hpages & Hlen & Hcount & Hdrawn & _).
  - split; [discriminate | reflexivity].
  - exists 10%Z. reflexivity.
  - reflexivity.
  - vm_compute. discriminate.
  - exists res. split; [exact Hres |].
    assert (Hc : pageCount res = 2%Z) by (rewrite Hcount; vm_compute; reflexivity).
    split; [exact Hc |]. split.
    + rewrite Hc in Hpages. lia.
    + rewrite Hdrawn. vm_compute. reflexivity.
Defined.

(* ================================================================= *)
(** ** Progress *)

Lemma climbs_le (t : list Q) : forall lo hi, climbs lo hi t -> lo <= hi.
Proof.
  induction t as [| x r IH]; intros lo hi Hc; simpl in Hc.
  - exact Hc.
  - destruct Hc as [Hlo Hr]. apply Qle_trans with x; [exact Hlo | now apply IH].
Qed.

Lemma climbs_lower (t : list Q) (lo lo' hi : Q) :
  lo' <= lo -> climbs lo hi t -> climbs lo' hi t.
Proof.
  destruct t as [| x r]; simpl; intros Hle Hc.
  - lra.
  - destruct Hc as [Hlo Hr]. split; [lra | exact Hr].
Qed.

Lemma climbs_raise (t : list Q) : forall lo hi hi',
  hi <= hi' -> climbs lo hi t -> climbs lo hi' t.
Proof.
  induction t as [| x r IH]; simpl; intros lo hi hi' Hle Hc.
  - lra.
  - destruct Hc as [Hlo Hr]. split; [exact Hlo | now apply IH with hi].
Qed.

Lemma climbs_app (t1 t2 : list Q) : forall lo mid hi,
  climbs lo mid t1 -> climbs mid hi t2 -> climbs lo hi (t1 ++ t2).
Proof.
  induction t1 as [| x r IH]; simpl; intros lo mid hi H1 H2.
  - now apply climbs_lower with mid.
  - destruct H1 as [Hlo Hr]. split; [exact Hlo | now apply IH with mid].
Qed.

Lemma climbs_map (g : Q -> Q) (t : list Q) :
  (forall a b, a <= b -> g a <= g b) ->
  forall lo hi, climbs lo hi t -> climbs (g lo) (g hi) (map g t).
Proof.
  intros Hg. induction t as [| x r IH]; simpl; intros lo hi Hc.
  - now apply Hg.
  - destruct Hc as [Hlo Hr]. split; [now apply Hg | now apply IH].
Qed.

Lemma climbs_proper (t : list Q) : forall lo lo' hi hi',
  lo == lo' -> hi == hi' -> climbs lo hi t -> climbs lo' hi' t.
Proof.
  intros lo lo' hi hi' El Eh Hc.
  apply climbs_lower with lo; [lra |]. apply climbs_raise with hi; [lra | exact Hc].
Qed.

Lemma climbs_sound (t : list Q) :
  climbs 0 100 t -> nondecreasing t /\ inRange t.
Proof.
  assert (G : forall t lo, 0 <= lo -> climbs lo 100 t -> nondecreasing t /\ inRange t).
  { clear t. induction t as [| x r IH]; intros lo H0 Hc.
    - split; [exact I | constructor].
    - destruct Hc as [Hlo Hr].
      destruct (IH x ltac:(lra) Hr) as [Hn Hi].
      pose proof (climbs_le _ _ _ Hr) as Hx. split.
      + split; [| exact Hn]. destruct r as [| x' r']; [exact I | apply Hr].
      + constructor; [split; lra | exact Hi]. }
  apply G. lra.
Qed.

(** A step that reports [p]. *)
Lemma climbs_bind_report {B} (p lo hi : Q) (k : unit -> Run B) :
  lo <= p -> climbs p hi (trace (k tt)) ->
  climbs lo hi (trace (bind (report p) k)).
Proof.
  intros Hlo Hk. rewrite trace_bind. simpl. split; [exact Hlo | exact Hk].
Qed.

(** A step that reports nothing. *)
Lemma climbs_bind_silent {A B} (m : Run A) (k : A -> Run B) (lo hi : Q) :
  trace m = [] -> lo <= hi ->
  (forall a, outcomeOf m = Ok a -> climbs lo hi (trace (k a))) ->
  climbs lo hi (trace (bind m k)).
Proof.
  intros Hm Hle Hk. rewrite trace_bind, Hm. simpl.
  destruct (outcomeOf m) as [a | msg]; [now apply Hk | exact Hle].
Qed.

(** A step whose reports climb to [mid]. *)
Lemma climbs_bind {A B} (m : Run A) (k : A -> Run B) (lo mid hi : Q) :
  climbs lo mid (trace m) -> mid <= hi ->
  (forall a, outcomeOf m = Ok a -> climbs mid hi (trace (k a))) ->
  climbs lo hi (trace (bind m k)).
Proof.
  intros Hm Hle Hk. rewrite trace_bind.
  destruct (outcomeOf m) as [a | msg].
  - apply climbs_app with mid; [exact Hm | now apply Hk].
  - rewrite app_nil_r. now apply climbs_raise with mid.
Qed.

Lemma frac_mono (a b d : Q) : 0 < d -> a <= b -> a / d <= b / d.
Proof.
  intros Hd Hab. apply Qle_shift_div_l; [exact Hd |].
  setoid_replace (a / d * d) with a by (field; lra). exact Hab.
Qed.

Lemma frac_zero (d : Q) : 0 / d == 0.
Proof. unfold Qdiv. ring. Qed.

Lemma frac_one (d : Q) : 0 < d -> d / d == 1.
Proof. intros Hd. field. lra. Qed.

Lemma ofNat_pos (n : nat) : (0 < n)%nat -> 0 < ofNat n.
Proof.
  intros Hn. unfold ofNat. change 0 with (inject_Z 0). rewrite <- Zlt_Qlt. lia.
Qed.

Lemma ofNat_nonneg (n : nat) : 0 <= ofNat n.
Proof.
  unfold ofNat. change 0 with (inject_Z 0). rewrite <- Zle_Qle. lia.
Qed.

(** The fraction [i / n] of a count, for [i] at most [n]. *)
Lemma fraction_bounds (i n : nat) :
  (i <= n)%nat -> (0 < n)%nat ->
  0 <= ofNat i / ofNat n /\ ofNat i / ofNat n <= 1.
Proof.
  intros Hi Hn. pose proof (ofNat_pos n Hn) as Hd. split.
  - rewrite <- (frac_zero (ofNat n)). apply frac_mono; [exact Hd | apply ofNat_nonneg].
  - rewrite <- (frac_one (ofNat n) Hd). apply frac_mono; [exact Hd |].
    now apply ofNat_le.
Qed.

Lemma fraction_step (i n : nat) :
  (0 < n)%nat -> ofNat i / ofNat n <= ofNat (S i) / ofNat n.
Proof.
  intros Hn. apply frac_mono; [now apply ofNat_pos |]. apply ofNat_le. lia.
Qed.

Lemma trace_imageToCanvas (host : Host) (img : N * N) :
  trace (imageToCanvas host img) = [].
Proof.
  unfold imageToCanvas.
  destruct (getContext2d host _ _); reflexivity.
Qed.

Lemma imagesLoop_climbs (host : Host) (options : ConversionOptions)
    (files : list File) :
  forall n i pdf,
    (i + List.length files = n)%nat -> (0 < n)%nat ->
    climbs (ofNat i / ofNat n * 100) 100
      (trace (imagesLoop host options report n i files pdf)).
Proof.
  induction files as [| f rest IH]; intros n i pdf Hn Hpos; cbn [imagesLoop].
  - simpl in *. destruct (fraction_bounds i n ltac:(lia) Hpos). lra.
  - simpl in Hn.
    destruct (fraction_bounds i n ltac:(lia) Hpos) as [_ H1].
    destruct (fraction_bounds (S i) n ltac:(lia) Hpos) as [_ H2].
    pose proof (fraction_step i n Hpos) as Hs.
    apply climbs_bind_report; [lra |].
    apply climbs_bind_silent; [reflexivity | lra |]. intros url _.
    apply climbs_bind_silent; [reflexivity | lra |]. intros img _.
    apply climbs_bind_silent; [apply trace_imageToCanvas | lra |]. intros canvas _.
    cbv zeta.
    apply climbs_bind_silent; [| lra |].
    { destruct (Nat.eqb i 0); [reflexivity | destruct pdf; reflexivity]. }
    intros pdf1 _.
    apply climbs_lower with (ofNat (S i) / ofNat n * 100); [lra |].
    apply IH; lia.
Qed.

Lemma imagesToPdf_climbs (host : Host) (files : list File) (options : ConversionOptions) :
  climbs 0 100 (trace (imagesToPdf host files options report)).
Proof.
  unfold imagesToPdf. destruct files as [| f rest] eqn:E.
  - simpl. lra.
  - rewrite <- E. assert (Hpos : (0 < List.length files)%nat) by (subst; simpl; lia).
    apply climbs_bind with 100; [| lra |].
    + apply climbs_proper with (ofNat 0 / ofNat (List.length files) * 100) 100;
        [rewrite frac_zero; ring | reflexivity |].
      apply imagesLoop_climbs; [reflexivity | exact Hpos].
    + intros pdf _. apply climbs_bind_report; [lra |].
      destruct pdf; simpl; lra.
Qed.

Lemma textLoop_climbs (options : ConversionOptions) (lines : list string) :
  forall n i st,
    (i + List.length lines = n)%nat -> (0 < n)%nat ->
    climbs (50 + ofNat i / ofNat n * 50) 100
      (trace (textLoop options report n i lines st)).
Proof.
  induction lines as [| l rest IH]; intros n i st Hn Hpos; cbn [textLoop].
  - simpl in *. destruct (fraction_bounds i n ltac:(lia) Hpos). lra.
  - simpl in Hn.
    destruct (fraction_bounds i n ltac:(lia) Hpos) as [_ H1].
    destruct (fraction_bounds (S i) n ltac:(lia) Hpos) as [_ H2].
    pose proof (fraction_step i n Hpos) as Hs.
    assert (Hrest : climbs (50 + ofNat i / ofNat n * 50) 100
              (trace (textLoop options report n (S i) rest (placeLine options l st)))).
    { apply climbs_lower with (50 + ofNat (S i) / ofNat n * 50); [lra |].
      apply IH; lia. }
    destruct (Nat.eqb (i mod 50) 0).
    + apply climbs_bind_report; [lra | exact Hrest].
    + apply climbs_bind_silent; [reflexivity | lra |]. intros _ _. exact Hrest.
Qed.

Lemma textToPdf_climbs (host : Host) (file : File) (options : ConversionOptions) :
  climbs 0 100 (trace (textToPdf host file options report)).
Proof.
  unfold textToPdf.
  apply climbs_bind_report; [lra |].
  apply climbs_bind_silent; [reflexivity | lra |]. intros text_ _.
  apply climbs_bind_report; [lra |]. cbv zeta.
  apply climbs_bind_report; [lra |].
  set (lines := splitTextToSize host text_ _).
  apply climbs_bind with 100; [| lra |].
  - destruct lines as [| l rest] eqn:E; [simpl; lra |]. rewrite <- E.
    apply climbs_proper with (50 + ofNat 0 / ofNat (List.length lines) * 50) 100;
      [rewrite frac_zero; ring | reflexivity |].
    apply textLoop_climbs; [reflexivity | rewrite E; simpl; lia].
  - intros st _. apply climbs_bind_report; [lra |]. simpl. lra.
Qed.

Lemma textsLoop_climbs (host : Host) (options : ConversionOptions)
    (files : list File) :
  forall n i first st,
    (i + List.length files = n)%nat -> (0 < n)%nat ->
    climbs (ofNat i / ofNat n * 100) 100
      (trace (textsLoop host options report n i files first st)).
Proof.
  induction files as [| f rest IH]; intros n i first st Hn Hpos; cbn [textsLoop].
  - simpl in *. destruct (fraction_bounds i n ltac:(lia) Hpos). lra.
  - simpl in Hn.
    destruct (fraction_bounds i n ltac:(lia) Hpos) as [_ H1].
    destruct (fraction_bounds (S i) n ltac:(lia) Hpos) as [_ H2].
    pose proof (fraction_step i n Hpos) as Hs.
    apply climbs_bind_silent; [reflexivity | lra |]. intros text_ _. cbv zeta.
    apply climbs_bind_report; [lra |].
    apply climbs_lower with (ofNat (S i) / ofNat n * 100); [lra |].
    apply IH; lia.
Qed.

Lemma textsToSinglePdf_climbs (host : Host) (files : list File)
    (options : ConversionOptions) :
  climbs 0 100 (trace (textsToSinglePdf host files options report)).
Proof.
  unfold textsToSinglePdf. destruct files as [| f rest] eqn:E.
  - simpl. lra.
  - rewrite <- E. assert (Hpos : (0 < List.length files)%nat) by (subst; simpl; lia).
    cbv zeta. apply climbs_bind with 100; [| lra |].
    + apply climbs_proper with (ofNat 0 / ofNat (List.length files) * 100) 100;
        [rewrite frac_zero; ring | reflexivity |].
      apply textsLoop_climbs; [reflexivity | exact Hpos].
    + intros st _. apply climbs_bind_report; [lra |]. simpl. lra.
Qed.

Lemma htmlPages_climbs (host : Host) (options : ConversionOptions)
    (canvas : N * N) (cw ch : Q) (n : nat) :
  (0 < n)%nat ->
  forall k page pdf,
    (page + k = n)%nat ->
    climbs (70 + ofNat page / ofNat n * 30) 100
      (trace (htmlPages host options report canvas cw ch (Z.of_nat n) k page pdf)).
Proof.
  intros Hpos. induction k as [| k IH]; intros page pdf Hn; cbn [htmlPages].
  - simpl. destruct (fraction_bounds page n ltac:(lia) Hpos). lra.
  - destruct (fraction_bounds page n ltac:(lia) Hpos) as [_ H1].
    destruct (fraction_bounds (S page) n ltac:(lia) Hpos) as [_ H2].
    pose proof (fraction_step page n Hpos) as Hs.
    cbv zeta. destruct (getContext2d host _ _); [| simpl; lra].
    fold (ofNat n). apply climbs_bind_report; [lra |].
    apply climbs_lower with (70 + ofNat (S page) / ofNat n * 30); [lra |].
    apply IH. lia.
Qed.

Lemma htmlToPdf_climbs (host : Host) (file : File) (options : ConversionOptions) :
  climbs 0 100 (trace (htmlToPdf host file options report)).
Proof.
  unfold htmlToPdf.
  apply climbs_bind_report; [lra |].
  apply climbs_bind_silent; [reflexivity | lra |]. intros content _.
  apply climbs_bind_report; [lra |]. cbv zeta.
  apply climbs_bind_report; [lra |].
  apply climbs_bind_silent; [reflexivity | lra |]. intros canvas _.
  apply climbs_bind_report; [lra |].
  set (T := Qceiling _).
  apply climbs_bind with 100; [| lra |].
  - destruct (Z.to_nat T) as [| n'] eqn:E.
    + simpl. lra.
    + assert (HT : T = Z.of_nat (S n')) by lia.
      rewrite HT at 1.
      apply climbs_proper with (70 + ofNat 0 / ofNat (S n') * 30) 100;
        [rewrite frac_zero; ring | reflexivity |].
      apply htmlPages_climbs; lia.
  - intros pdf _. apply climbs_bind_report; [lra |]. simpl. lra.
Qed.

Lemma trace_htmlsPages (host : Host) (options : ConversionOptions)
    (canvas : N * N) (cw ch : Q) :
  forall k page st, trace (htmlsPages host options canvas cw ch k page st) = [].
Proof.
  induction k as [| k IH]; intros page st; cbn [htmlsPages].
  - reflexivity.
  - cbv zeta. destruct (getContext2d host _ _); [apply IH | reflexivity].
Qed.

Lemma htmlsLoop_climbs (host : Host) (options : ConversionOptions)
    (files : list File) :
  forall n i st,
    (i + List.length files = n)%nat -> (0 < n)%nat ->
    climbs (ofNat i / ofNat n * 100) 100
      (trace (htmlsLoop host options report n i files st)).
Proof.
  induction files as [| f rest IH]; intros n i st Hn Hpos; cbn [htmlsLoop].
  - simpl in *. destruct (fraction_bounds i n ltac:(lia) Hpos). lra.
  - simpl in Hn.
    destruct (fraction_bounds i n ltac:(lia) Hpos) as [_ H1].
    destruct (fraction_bounds (S i) n ltac:(lia) Hpos) as [_ H2].
    pose proof (fraction_step i n Hpos) as Hs.
    cbv zeta.
    apply climbs_bind_silent; [reflexivity | lra |]. intros content _.
    apply climbs_bind_silent; [reflexivity | lra |]. intros canvas _.
    apply climbs_bind_silent; [apply trace_htmlsPages | lra |]. intros st1 _.
    rewrite Nat.add_1_r.
    apply climbs_bind_report; [lra |].
    apply IH; lia.
Qed.

Lemma htmlsToSinglePdf_climbs (host : Host) (files : list File)
    (options : ConversionOptions) :
  climbs 0 100 (trace (htmlsToSinglePdf host files options report)).
Proof.
  unfold htmlsToSinglePdf. destruct files as [| f rest] eqn:E.
  - simpl. lra.
  - rewrite <- E. assert (Hpos : (0 < List.length files)%nat) by (subst; simpl; lia).
    apply climbs_bind with 100; [| lra |].
    + apply climbs_proper with (ofNat 0 / ofNat (List.length files) * 100) 100;
        [rewrite frac_zero; ring | reflexivity |].
      apply htmlsLoop_climbs; [reflexivity | exact Hpos].
    + intros st _. apply climbs_bind_report; [lra |].
      destruct (hpdf st); simpl; lra.
Qed.

(** *** Rescaling *)

Lemma rescaled_bind {A B} (g : Q -> Q) (m1 m2 : Run A) (k1 k2 : A -> Run B) :
  rescaled g m1 m2 -> (forall a, rescaled g (k1 a) (k2 a)) ->
  rescaled g (bind m1 k1) (bind m2 k2).
Proof.
  intros [Ht Ho] Hk. split.
  - rewrite !trace_bind, Ht, Ho, map_app. f_equal.
    destruct (outcomeOf m2) as [a | msg]; [apply Hk | reflexivity].
  - rewrite !outcome_bind, Ho.
    destruct (outcomeOf m2) as [a | msg]; [apply Hk | reflexivity].
Qed.

Lemma rescaled_report (g : Q -> Q) (p : Q) : rescaled g (report (g p)) (report p).
Proof. split; reflexivity. Qed.

Lemma rescaled_silent {A} (g : Q -> Q) (m : Run A) : trace m = [] -> rescaled g m m.
Proof. intros Hm. split; [now rewrite Hm | reflexivity]. Qed.

Lemma htmlPages_rescaled (g : Q -> Q) (host : Host) (options : ConversionOptions)
    (canvas : N * N) (cw ch : Q) (T : Z) :
  forall k page pdf,
    rescaled g
      (htmlPages host options (fun p => report (g p)) canvas cw ch T k page pdf)
      (htmlPages host options report canvas cw ch T k page pdf).
Proof.
  induction k as [| k IH]; intros page pdf; cbn [htmlPages].
  - now apply rescaled_silent.
  - cbv zeta. destruct (getContext2d host _ _); [| now apply rescaled_silent].
    apply rescaled_bind; [apply rescaled_report | intros _; apply IH].
Qed.

Lemma htmlToPdf_rescaled (g : Q -> Q) (host : Host) (file : File)
    (options : ConversionOptions) :
  rescaled g (htmlToPdf host file options (fun p => report (g p)))
             (htmlToPdf host file options report).
Proof.
  unfold htmlToPdf.
  repeat first
    [ apply rescaled_bind; [| intros ?]
    | apply rescaled_report
    | apply htmlPages_rescaled
    | apply rescaled_silent; reflexivity
    | progress cbv zeta ].
Qed.

Lemma rescaled_climbs {A} (a b : Q) (m1 m2 : Run A) :
  0 <= b ->
  rescaled (fun p => a + p * b) m1 m2 ->
  a + 100 * b == 100 ->
  climbs 0 100 (trace m2) -> climbs a 100 (trace m1).
Proof.
  intros Hb [Ht _] Hfull Hc. rewrite Ht.
  apply climbs_proper with (a + 0 * b) (a + 100 * b); [ring | exact Hfull |].
  apply (climbs_map (fun p => a + p * b)); [| exact Hc].
  intros x x' Hx. apply Qplus_le_r. apply Qmult_le_compat_r; assumption.
Qed.

Lemma docxToPdf_climbs (host : Host) (file : File) (options : ConversionOptions) :
  climbs 0 100 (trace (docxToPdf host file options report)).
Proof.
  unfold docxToPdf.
  apply climbs_bind_report; [lra |].
  apply climbs_bind_silent; [reflexivity | lra |]. intros buf _.
  apply climbs_bind_report; [lra |].
  apply climbs_bind_silent; [reflexivity | lra |]. intros zip _.
  apply climbs_bind_report; [lra |].
  destruct (zipFile "word/document.xml" zip) as [entry |]; [| simpl; lra].
  apply climbs_bind_silent; [reflexivity | lra |]. intros xml _.
  apply climbs_bind_report; [lra |]. cbv zeta.
  apply climbs_bind_report; [lra |].
  apply climbs_bind_report; [lra |].
  apply climbs_bind with 100; [| lra |].
  - apply climbs_lower with 60; [lra |].
    eapply rescaled_climbs;
      [| apply (htmlToPdf_rescaled (fun p => 60 + p * (4 # 10))) | | apply htmlToPdf_climbs].
    + lra.
    + reflexivity.
  - intros res _. simpl. lra.
Qed.

Lemma docxsLoop_climbs (host : Host) (files : list File) :
  forall n i acc,
    (i + List.length files = n)%nat -> (0 < n)%nat ->
    climbs (ofNat i / ofNat n * 50) 50
      (trace (docxsLoop host report n i files acc)).
Proof.
  induction files as [| f rest IH]; intros n i acc Hn Hpos; cbn [docxsLoop].
  - simpl in *. destruct (fraction_bounds i n ltac:(lia) Hpos). lra.
  - simpl in Hn.
    destruct (fraction_bounds i n ltac:(lia) Hpos) as [_ H1].
    destruct (fraction_bounds (S i) n ltac:(lia) Hpos) as [_ H2].
    pose proof (fraction_step i n Hpos) as Hs.
    assert (Hrest : forall acc',
              climbs (ofNat i / ofNat n * 50) 50
                (trace (docxsLoop host report n (S i) rest acc'))).
    { intros acc'. apply climbs_lower with (ofNat (S i) / ofNat n * 50); [lra |].
      apply IH; lia. }
    apply climbs_bind_report; [lra |].
    apply climbs_bind_silent; [reflexivity | lra |]. intros buf _.
    apply climbs_bind_silent; [reflexivity | lra |]. intros zip _.
    destruct (zipFile "word/document.xml" zip) as [entry |]; [| apply Hrest].
    apply climbs_bind_silent; [reflexivity | lra |]. intros xml _.
    cbv zeta. apply Hrest.
Qed.

Lemma docxsToSinglePdf_climbs (host : Host) (files : list File)
    (options : ConversionOptions) :
  climbs 0 100 (trace (docxsToSinglePdf host files options report)).
Proof.
  unfold docxsToSinglePdf. destruct files as [| f rest] eqn:E.
  - simpl. lra.
  - rewrite <- E. assert (Hpos : (0 < List.length files)%nat) by (subst; simpl; lia).
    apply climbs_bind with 50; [| lra |].
    + apply climbs_proper with (ofNat 0 / ofNat (List.length files) * 50) 50;
        [rewrite frac_zero; ring | reflexivity |].
      apply docxsLoop_climbs; [reflexivity | exact Hpos].
    + intros parts _. apply climbs_bind_report; [lra |]. cbv zeta.
      apply climbs_bind with 100; [| lra |].
      * eapply rescaled_climbs;
          [| apply (htmlToPdf_rescaled (fun p => 50 + p * (5 # 10))) | | apply htmlToPdf_climbs].
        -- lra.
        -- reflexivity.
      * intros res _. simpl. lra.
Qed.

Lemma dispatch_climbs (host : Host) (fs : list Hook.ConvertibleFile)
    (options : ConversionOptions) :
  climbs 0 100 (trace (Hook.dispatch host fs options report)).
Proof.
  unfold Hook.dispatch.
  destruct (Hook.typeSet fs) as [| t [| t2 ts]].
  - repeat match goal with
           | |- context [if ?c then _ else _] => destruct c
           end;
      auto using imagesToPdf_climbs, textsToSinglePdf_climbs,
                 htmlsToSinglePdf_climbs, docxsToSinglePdf_climbs.
  - destruct t.
    + apply imagesToPdf_climbs.
    + destruct (Hook.filesOfType (FileType_eqb text) fs) as [| g [| g2 r]];
        auto using textToPdf_climbs, textsToSinglePdf_climbs.
    + destruct (Hook.filesOfType Hook.isHtmlLike fs) as [| g [| g2 r]];
        auto using htmlToPdf_climbs, htmlsToSinglePdf_climbs.
    + destruct (Hook.filesOfType Hook.isHtmlLike fs) as [| g [| g2 r]];
        auto using htmlToPdf_climbs, htmlsToSinglePdf_climbs.
    + destruct (Hook.filesOfType (FileType_eqb docx) fs) as [| g [| g2 r]];
        auto using docxToPdf_climbs, docxsToSinglePdf_climbs.
    + simpl. lra.
  - repeat match goal with
           | |- context [if ?c then _ else _] => destruct c
           end;
      auto using imagesToPdf_climbs, textsToSinglePdf_climbs,
                 htmlsToSinglePdf_climbs, docxsToSinglePdf_climbs.
Qed.

Lemma trace_bind_report {B} (p : Q) (k : unit -> Run B) :
  trace (bind (report p) k) = p :: trace (k tt).
Proof. rewrite trace_bind. reflexivity. Qed.

Lemma trace_bind_await {A B} (a : A) (k : A -> Run B) :
  trace (bind (await (Ok a)) k) = trace (k a).
Proof. rewrite trace_bind. reflexivity. Qed.

Lemma trace_bind_ret {A B} (m : Run A) (f : A -> B) :
  trace (bind m (fun a => ret (f a))) = trace m.
Proof.
  rewrite trace_bind. destruct (outcomeOf m); simpl; now rewrite app_nil_r.
Qed.

(** C7.  Under the margin invariant of the options, the values that a
    run of [convert], and of each converter, passes to the progress
    callback never decrease and lie between 0 and 100.  When the main
    document of a DOCX file is read, [docxToPdf] reports 10, 20, 30, 40, 50
    and 60 and then, for every value [p] that the HTML stage reports in
    turn, the value [60 + p * 0.4]. *)
Theorem progress_monotone (host : Host) (options : ConversionOptions) :
  validMargin options ->
  (forall state,
      nondecreasing (fst (Hook.convert host state options))
      /\ inRange (fst (Hook.convert host state options)))
  /\ (forall files,
        climbs 0 100 (trace (imagesToPdf host files options report))
        /\ climbs 0 100 (trace (textsToSinglePdf host files options report))
        /\ climbs 0 100 (trace (htmlsToSinglePdf host files options report))
        /\ climbs 0 100 (trace (docxsToSinglePdf host files options report)))
  /\ (forall file,
        climbs 0 100 (trace (textToPdf host file options report))
        /\ climbs 0 100 (trace (htmlToPdf host file options report))
        /\ climbs 0 100 (trace (docxToPdf host file options report)))
  /\ (forall file zip xml,
        documentReads host file zip xml ->
        let htmlFile :=
          htmlFileOf (contentToHtml (extractTextFromXml xml) (extractImages zip))
            (replaceFirst ".docx" ".html" (name file)) in
        trace (docxToPdf host file options report)
        = ([10; 20; 30; 40; 50; 60]
           ++ map (fun p => 60 + p * (4 # 10))
                (trace (htmlToPdf host htmlFile options report)))%list).
Proof.
  intros _. split; [| split; [| split]].
  - intros state. apply climbs_sound. unfold Hook.convert.
    destruct (Hook.files state) as [| f0 rest] eqn:E; [simpl; lra |].
    rewrite <- E.
    pose proof (dispatch_climbs host (Hook.files state) options) as Hc.
    destruct (Hook.dispatch host (Hook.files state) options report) as [t [res | msg]];
      exact Hc.
  - intros files.
    auto using imagesToPdf_climbs, textsToSinglePdf_climbs,
               htmlsToSinglePdf_climbs, docxsToSinglePdf_climbs.
  - intros file.
    auto using textToPdf_climbs, htmlToPdf_climbs, docxToPdf_climbs.
  - intros file zip xml (buf & entry & Hbuf & Hzip & Hentry & Hxml) htmlFile.
    unfold docxToPdf.
    rewrite trace_bind_report, Hbuf, trace_bind_await.
    rewrite trace_bind_report, Hzip, trace_bind_await.
    rewrite trace_bind_report, Hentry, Hxml, trace_bind_await.
    rewrite !trace_bind_report. cbv zeta. fold htmlFile.
    rewrite trace_bind_ret.
    now rewrite (proj1 (htmlToPdf_rescaled (fun p => 60 + p * (4 # 10)) host htmlFile options)).
Qed.

Lemma progress_monotone_witness :
  let file := mkFile "report.docx" EmptyString 20 "<w:p><w:t>Hi</w:t></w:p>" in
  nondecreasing (trace (docxToPdf sampleHost file defaultOptions report))
  /\ inRange (trace (docxToPdf sampleHost file defaultOptions report))
  /\ firstn 8 (trace (docxToPdf sampleHost file defaultOptions report))
     = [10; 20; 30; 40; 50; 60; 60 + 10 * (4 # 10); 60 + 20 * (4 # 10)].
Proof.
  intros file.
  assert (Hvalid : validMargin defaultOptions) by (split; [discriminate | reflexivity]).
  destruct (progress_monotone sampleHost defaultOptions Hvalid) as (_ & _ & Hone & Hscale).
  destruct (climbs_sound _ (proj2 (proj2 (Hone file)))) as [Hn Hr].
  split; [exact Hn |]. split; [exact Hr |].
  rewrite (Hscale file [("word/document.xml", mkZipObject (Ok (bytes file)) (Ok (bytes file)))]
             (bytes file)).
  - reflexivity.
  - exists (bytes file), (mkZipObject (Ok (bytes file)) (Ok (bytes file))).
    repeat split.
Defined.

(* ================================================================= *)
(** ** The Markdown transpiler *)

Lemma plain_char (c : ascii) :
  isPlain c = true ->
  Ascii.eqb c "*" = false /\ Ascii.eqb "*" c = false
  /\ Ascii.eqb c "`" = false /\ Ascii.eqb "`" c = false
  /\ Ascii.eqb "#" c = false /\ Ascii.eqb "[" c = false
  /\ Ascii.eqb "<" c = false /\ Ascii.eqb "-" c = false
  /\ Ascii.eqb LF c = false
  /\ isLineTerminator c = false.
Proof.
  destruct c as [b0 b1 b2 b3 b4 b5 b6 b7].
  destruct b0, b1, b2, b3, b4, b5, b6, b7; intros H;
    first [ discriminate H | repeat split; reflexivity ].
Qed.

Lemma append_nil_r (s : string) : s ++ EmptyString = s.
Proof. induction s as [| c s IH]; simpl; [reflexivity | now rewrite IH]. Qed.

Lemma append_assoc (a b c : string) : (a ++ b) ++ c = a ++ (b ++ c).
Proof. induction a as [| x a IH]; simpl; [reflexivity | now rewrite IH]. Qed.

Lemma length_append (a b : string) :
  String.length (a ++ b) = (String.length a + String.length b)%nat.
Proof. induction a as [| x a IH]; simpl; [reflexivity | now rewrite IH]. Qed.

Lemma allChars_app (p : ascii -> bool) (a b : string) :
  allChars p (a ++ b) = allChars p a && allChars p b.
Proof.
  induction a as [| x a IH]; simpl; [reflexivity |].
  now rewrite IH, andb_assoc.
Qed.

Lemma allChars_impl (p q : ascii -> bool) (s : string) :
  (forall c, p c = true -> q c = true) -> allChars p s = true -> allChars q s = true.
Proof.
  intros Hpq. induction s as [| c s IH]; simpl; [reflexivity |].
  intros H. apply andb_true_iff in H. destruct H as [Hc Hs].
  now rewrite (Hpq c Hc), IH.
Qed.

Lemma dropChars_app (a b : string) : dropChars (String.length a) (a ++ b) = b.
Proof. induction a as [| x a IH]; simpl; [reflexivity | exact IH]. Qed.

Lemma takeChars_app (a b : string) : takeChars (String.length a) (a ++ b) = a.
Proof.
  induction a as [| x a IH]; simpl.
  - now destruct b.
  - now rewrite IH.
Qed.

Lemma spanWhile_until (p : ascii -> bool) (a : string) (c : ascii) (r : string) :
  allChars p a = true -> p c = false -> spanWhile p (a ++ String c r) = a.
Proof.
  intros Ha Hc. induction a as [| x a IH]; simpl in *.
  - now rewrite Hc.
  - apply andb_true_iff in Ha. destruct Ha as [Hx Ha].
    now rewrite Hx, IH.
Qed.

Lemma lazyUntil_plain (w rest : string) :
  allChars isPlain w = true ->
  lazyUntil false "*" (w ++ String "*" rest) = Some w.
Proof.
  induction w as [| c w IH]; intros Hw.
  - reflexivity.
  - simpl in Hw. apply andb_true_iff in Hw. destruct Hw as [Hc Hw].
    destruct (plain_char c Hc) as (_ & E1 & _ & _ & _ & _ & _ & _ & _ & E2).
    cbn [append lazyUntil startsWith]. rewrite E1. cbn [andb negb].
    rewrite E2. now rewrite IH.
Qed.

(** *** Walking over the input *)

Lemma replaceAllFrom_pass (m : Matcher) (s : string) :
  forall p rest,
    neverMatchesIn m p s rest ->
    replaceAllFrom m p 0 (s ++ rest) = s ++ replaceAllFrom m (lastOr p s) 0 rest.
Proof.
  induction s as [| c s IH]; intros p rest Hn.
  - reflexivity.
  - destruct Hn as [Hc Hs]. cbn [append replaceAllFrom lastOr].
    rewrite Hc. now rewrite IH.
Qed.

Lemma replaceAllFrom_skip (m : Matcher) (w : string) :
  forall p c r,
    replaceAllFrom m p (String.length w + 1) (w ++ String c r)
    = replaceAllFrom m (Some c) 0 r.
Proof.
  induction w as [| x w IH]; intros p c r.
  - reflexivity.
  - cbn [String.length append Nat.add replaceAllFrom]. apply IH.
Qed.

Lemma atLineStart_lastOr (w : string) :
  forall p,
    allChars isPlain w = true -> atLineStart p = false ->
    atLineStart (lastOr p w) = false.
Proof.
  induction w as [| c w IH]; intros p Hw Hp.
  - exact Hp.
  - simpl in Hw. apply andb_true_iff in Hw. destruct Hw as [Hc Hw].
    cbn [lastOr]. apply IH; [exact Hw |].
    simpl. now destruct (plain_char c Hc) as (_ & _ & _ & _ & _ & _ & _ & _ & _ & E).
Qed.

Lemma neverMatchesIn_plain (m : Matcher) (w : string) :
  quietOnPlain m ->
  forall p rest,
    allChars isPlain w = true -> atLineStart p = false ->
    neverMatchesIn m p w rest.
Proof.
  intros Hq. induction w as [| c w IH]; intros p rest Hw Hp.
  - exact I.
  - simpl in Hw. apply andb_true_iff in Hw. destruct Hw as [Hc Hw]. split.
    + now apply Hq.
    + apply IH; [exact Hw |].
      simpl. now destruct (plain_char c Hc) as (_ & _ & _ & _ & _ & _ & _ & _ & _ & E).
Qed.

(** An expression that matches nowhere in [pre ++ w ++ post] leaves it
    unchanged. *)
Lemma replaceAll_unchanged (m : Matcher) (pre w post : string) :
  quietOnPlain m ->
  allChars isPlain w = true ->
  neverMatchesIn m None pre (w ++ post) ->
  atLineStart (lastOr None pre) = false ->
  (forall q, atLineStart q = false -> neverMatchesIn m q post EmptyString) ->
  replaceAll m (pre ++ w ++ post) = pre ++ w ++ post.
Proof.
  intros Hq Hw Hpre Hlast Hpost. unfold replaceAll.
  rewrite (replaceAllFrom_pass m pre None (w ++ post) Hpre).
  rewrite (replaceAllFrom_pass m w (lastOr None pre) post)
    by now apply neverMatchesIn_plain.
  rewrite <- (append_nil_r post) at 1.
  rewrite (replaceAllFrom_pass m post _ EmptyString).
  - cbn [replaceAllFrom]. now rewrite append_nil_r.
  - apply Hpost. now apply atLineStart_lastOr.
Qed.

(** *** The expressions at a plain code unit *)

Lemma heading_quiet (marker tag : string) : quietOnPlain (heading marker tag).
Proof. intros c r p _ Hp. unfold heading. now rewrite Hp. Qed.

Lemma delimited_star_quiet (dotAll : bool) (open' close left right : string) :
  quietOnPlain (delimited dotAll (String "*" open') close left right).
Proof.
  intros c r p Hc _. unfold delimited. cbn [startsWith].
  now destruct (plain_char c Hc) as (_ & -> & _).
Qed.

Lemma delimited_tick_quiet (dotAll : bool) (open' close left right : string) :
  quietOnPlain (delimited dotAll (String "`" open') close left right).
Proof.
  intros c r p Hc _. unfold delimited. cbn [startsWith].
  now destruct (plain_char c Hc) as (_ & _ & _ & -> & _).
Qed.

Lemma inlineCode_quiet : quietOnPlain inlineCode.
Proof.
  intros c r p Hc _. unfold inlineCode. cbn [startsWith].
  now destruct (plain_char c Hc) as (_ & _ & _ & -> & _).
Qed.

Lemma link_quiet : quietOnPlain link.
Proof.
  intros c r p Hc _. unfold link. cbn [startsWith].
  now destruct (plain_char c Hc) as (_ & _ & _ & _ & _ & -> & _).
Qed.

Lemma listItem_quiet : quietOnPlain listItem.
Proof. intros c r p _ Hp. unfold listItem. now rewrite Hp. Qed.

Lemma literal_nl_quiet (pat' out : string) :
  quietOnPlain (literal (String LF pat') out).
Proof.
  intros c r p Hc _. unfold literal. cbn [startsWith].
  now destruct (plain_char c Hc) as (_ & _ & _ & _ & _ & _ & _ & _ & -> & _).
Qed.

Lemma listRun_quiet : quietOnPlain listRun.
Proof.
  intros c r p Hc _. unfold listRun, liGroup. cbn [startsWith].
  now destruct (plain_char c Hc) as (_ & _ & _ & _ & _ & _ & -> & _).
Qed.

Lemma replaceAllFrom_none (m : Matcher) (p : option ascii) (c : ascii) (r : string) :
  m p (String c r) = None ->
  replaceAllFrom m p 0 (String c r) = String c (replaceAllFrom m (Some c) 0 r).
Proof. intros H. cbn [replaceAllFrom]. now rewrite H. Qed.

Lemma replaceAllFrom_some (m : Matcher) (p : option ascii) (c : ascii) (r : string)
    (len : nat) (out : string) :
  m p (String c r) = Some (len, out) ->
  replaceAllFrom m p 0 (String c r)
  = out ++ replaceAllFrom m (Some c) (Nat.pred len) r.
Proof. intros H. cbn [replaceAllFrom]. now rewrite H. Qed.

(** Side conditions on the fixed text around the plain run. *)
Ltac never Hq :=
  cbn [neverMatchesIn append];
  repeat match goal with
         | |- _ /\ _ => split
         | |- True => exact I
         | |- _ = None =>
             first [ reflexivity
                   | unfold heading, listItem; rewrite Hq; reflexivity ]
         end.

Section EmphasisInCode.

Variable c : ascii.
Variable w' : string.
Hypothesis plain_c : isPlain c = true.
Hypothesis plain_w' : allChars isPlain w' = true.

Let w := String c w'.

Lemma plain_w : allChars isPlain w = true.
Proof. unfold w. simpl. now rewrite plain_c, plain_w'. Qed.

Lemma heading_pass (marker tag : string) :
  startsWith "#" marker = true ->
  replaceAll (heading marker tag) ("`*" ++ w ++ "*`") = "`*" ++ w ++ "*`".
Proof.
  intros Hm.
  assert (Hno : forall p x r, Ascii.eqb "#" x = false ->
                  heading marker tag p (String x r) = None).
  { intros p x r Hx. unfold heading. destruct marker as [| a mk]; [discriminate |].
    cbn [startsWith] in *. apply andb_true_iff in Hm. destruct Hm as [Ha _].
    apply Ascii.eqb_eq in Ha. subst a. rewrite Hx. now rewrite andb_false_r. }
  apply replaceAll_unchanged.
  - apply heading_quiet.
  - apply plain_w.
  - cbn [neverMatchesIn append]. repeat split; apply Hno; reflexivity.
  - reflexivity.
  - intros q Hq. cbn [neverMatchesIn append]. repeat split; apply Hno; reflexivity.
Qed.

Lemma strong_pass (stars left right : string) :
  stars = "**" \/ stars = "***" ->
  replaceAll (delimited false stars stars left right) ("`*" ++ w ++ "*`")
  = "`*" ++ w ++ "*`".
Proof.
  destruct (plain_char c plain_c) as (_ & E & _).
  intros [-> | ->]; (apply replaceAll_unchanged;
    [ apply delimited_star_quiet
    | apply plain_w
    | cbn [neverMatchesIn append]; split; [reflexivity |]; split; [| exact I];
        unfold delimited, w; cbn [startsWith append]; rewrite E; reflexivity
    | reflexivity
    | intros q Hq; never Hq ]).
Qed.

Lemma emphasis_pass :
  replaceAll (delimited false "*" "*" "<em>" "</em>") ("`*" ++ w ++ "*`")
  = "`<em>" ++ w ++ "</em>`".
Proof.
  unfold replaceAll.
  change ("`*" ++ w ++ "*`") with (String "`" (String "*" (w ++ String "*" "`"))).
  rewrite replaceAllFrom_none by reflexivity.
  rewrite (replaceAllFrom_some _ _ _ _ (1 + String.length w + 1) ("<em>" ++ w ++ "</em>")).
  - change (Nat.pred (1 + String.length w + 1)) with (String.length w + 1)%nat.
    rewrite replaceAllFrom_skip.
    rewrite replaceAllFrom_none by reflexivity. cbn [replaceAllFrom].
    cbn [append]. now rewrite !append_assoc.
  - unfold delimited. cbn [startsWith String.length dropChars].
    change (Ascii.eqb "*" "*" && true) with true. cbv iota.
    now rewrite (lazyUntil_plain w "`" plain_w).
Qed.

Lemma fence_pass :
  replaceAll (delimited true "```" "```" "<pre><code>" "</code></pre>")
    ("`<em>" ++ w ++ "</em>`")
  = "`<em>" ++ w ++ "</em>`".
Proof.
  apply replaceAll_unchanged.
  - apply delimited_tick_quiet.
  - apply plain_w.
  - never plain_c.
  - reflexivity.
  - intros q Hq. never Hq.
Qed.

Lemma code_pass :
  replaceAll inlineCode ("`<em>" ++ w ++ "</em>`")
  = "<code><em>" ++ w ++ "</em></code>".
Proof.
  set (body := "<em>" ++ w ++ "</em>").
  assert (Hbody : allChars (notChar "`") body = true).
  { unfold body. rewrite !allChars_app. cbn.
    rewrite (allChars_impl isPlain (notChar "`") w' ); [| | exact plain_w'].
    - destruct (plain_char c plain_c) as (_ & _ & E & _).
      unfold notChar. now rewrite E.
    - intros x Hx. destruct (plain_char x Hx) as (_ & _ & E & _).
      unfold notChar. now rewrite E. }
  unfold replaceAll.
  replace ("`<em>" ++ w ++ "</em>`") with (String "`" (body ++ String "`" EmptyString))
    by (unfold body, w; cbn [append]; now rewrite !append_assoc).
  rewrite (replaceAllFrom_some _ _ _ _ (String.length body + 2)
             ("<code>" ++ body ++ "</code>")).
  - replace (Nat.pred (String.length body + 2)) with (String.length body + 1)%nat by lia.
    rewrite replaceAllFrom_skip. cbn [replaceAllFrom].
    rewrite append_nil_r. unfold body. cbn [append]. now rewrite !append_assoc.
  - unfold inlineCode. cbn [startsWith dropChars].
    change (Ascii.eqb "`" "`" && true) with true. cbv iota zeta.
    rewrite (spanWhile_until (notChar "`") body "`" EmptyString Hbody eq_refl).
    rewrite dropChars_app. reflexivity.
Qed.

Lemma link_pass :
  replaceAll link ("<code><em>" ++ w ++ "</em></code>")
  = "<code><em>" ++ w ++ "</em></code>".
Proof.
  apply replaceAll_unchanged.
  - apply link_quiet.
  - apply plain_w.
  - never plain_c.
  - reflexivity.
  - intros q Hq. never Hq.
Qed.

Lemma listItem_pass :
  replaceAll listItem ("<code><em>" ++ w ++ "</em></code>")
  = "<code><em>" ++ w ++ "</em></code>".
Proof.
  apply replaceAll_unchanged.
  - apply listItem_quiet.
  - apply plain_w.
  - never plain_c.
  - reflexivity.
  - intros q Hq. never Hq.
Qed.

Lemma break_pass (pat' out : string) :
  replaceAll (literal (String LF pat') out) ("<code><em>" ++ w ++ "</em></code>")
  = "<code><em>" ++ w ++ "</em></code>".
Proof.
  apply replaceAll_unchanged.
  - apply literal_nl_quiet.
  - apply plain_w.
  - never plain_c.
  - reflexivity.
  - intros q Hq. never Hq.
Qed.

Lemma listRun_pass :
  replaceAll listRun ("<p><code><em>" ++ w ++ "</em></code></p>")
  = "<p><code><em>" ++ w ++ "</em></code></p>".
Proof.
  apply replaceAll_unchanged.
  - apply listRun_quiet.
  - apply plain_w.
  - never plain_c.
  - reflexivity.
  - intros q Hq. never Hq.
Qed.

Lemma code_span_emphasis_nonempty :
  markdownToHtml ("`*" ++ w ++ "*`") = "<p><code><em>" ++ w ++ "</em></code></p>".
Proof.
  unfold markdownToHtml.
  rewrite !heading_pass by reflexivity.
  rewrite !strong_pass by auto.
  rewrite emphasis_pass, fence_pass, code_pass, link_pass, listItem_pass.
  change (nl ++ nl) with (String LF (String LF EmptyString)).
  change nl with (String LF EmptyString).
  rewrite !break_pass.
  replace ("<p>" ++ ("<code><em>" ++ w ++ "</em></code>") ++ "</p>")
    with ("<p><code><em>" ++ w ++ "</em></code></p>")
    by (unfold w; cbn [append]; now rewrite !append_assoc).
  apply listRun_pass.
Qed.

End EmphasisInCode.

(** The asterisks stand inside code spans only, and the output has an
    [<em>] element and no asterisk. *)
Lemma markdown_code_span_counterexample :
  markdownToHtml "`*a*`" = "<p><code><em>a</em></code></p>"
  /\ occurs "<em>" (markdownToHtml "`*a*`") = true
  /\ occurs "*" (markdownToHtml "`*a*`") = false
  /\ markdownToHtml ("```" ++ nl ++ "a*b*c" ++ nl ++ "```")
     = "<p><pre><code><br>a<em>b</em>c<br></code></pre></p>".
Proof.
  vm_compute. repeat split.
Qed.

(** C8, amended.  The emphasis expressions are applied before the code
    expressions, so code spans are not protected: an inline code span that
    holds a run of letters, digits and blanks between two asterisks
    becomes a [code] element whose content is that run inside an [em]
    element. *)
Theorem emphasis_in_code (w : string) :
  allChars isPlain w = true ->
  markdownToHtml ("`*" ++ w ++ "*`") = "<p><code><em>" ++ w ++ "</em></code></p>".
Proof.
  intros Hw. destruct w as [| c w'].
  - vm_compute. reflexivity.
  - simpl in Hw. apply andb_true_iff in Hw. destruct Hw as [Hc Hw'].
    now apply code_span_emphasis_nonempty.
Qed.

Lemma emphasis_in_code_witness :
  markdownToHtml "`*not emphasis*`" = "<p><code><em>not emphasis</em></code></p>".
Proof.
  apply (emphasis_in_code "not emphasis"). reflexivity.
Defined.

(* ================================================================= *)
(** * Further properties *)

(* ================================================================= *)
(** ** Validation, once more *)

Lemma validateFile_valid_inv (f : File) :
  valid (validateFile f) = true ->
  (size f <= MAX_FILE_SIZE)%N /\ detectFileType f <> unknown.
Proof.
  unfold validateFile.
  destruct (N.ltb_spec MAX_FILE_SIZE (size f)) as [Hlt | Hle]; [discriminate |].
  unfold FileType_eqb.
  destruct (FileType_eq_dec (detectFileType f) unknown); [discriminate |].
  intros _. split; assumption.
Qed.

Lemma validateEach_valid_inv (fs : list File) :
  valid (validateEach fs) = true ->
  forall f, In f fs -> valid (validateFile f) = true.
Proof.
  induction fs as [| g rest IH]; simpl; intros Hv f Hin; [contradiction |].
  destruct (valid (validateFile g)) eqn:Hg; simpl in Hv.
  - destruct Hin as [<- | Hin]; [exact Hg | now apply IH].
  - congruence.
Qed.

Lemma validateFile_message (f : File) :
  valid (validateFile f) = false ->
  exists c e, error (validateFile f) = Some (String c e).
Proof.
  unfold validateFile.
  destruct (N.ltb MAX_FILE_SIZE (size f)).
  - intros _. eexists _, _. reflexivity.
  - destruct (FileType_eqb (detectFileType f) unknown); [| discriminate].
    intros _. eexists _, _. reflexivity.
Qed.

Lemma validateEach_message (fs : list File) :
  valid (validateEach fs) = false ->
  exists c e, error (validateEach fs) = Some (String c e).
Proof.
  induction fs as [| g rest IH]; simpl; [discriminate |].
  destruct (valid (validateFile g)) eqn:Hg; simpl.
  - exact IH.
  - intros _. now apply validateFile_message.
Qed.

Lemma validateFiles_valid_inv (fs : list File) :
  valid (validateFiles fs) = true ->
  (totalSize fs <= MAX_TOTAL_SIZE)%N
  /\ forall f, In f fs ->
       (size f <= MAX_FILE_SIZE)%N /\ detectFileType f <> unknown.
Proof.
  intros Hv.
  destruct (N.ltb_spec MAX_TOTAL_SIZE (totalSize fs)) as [Hlt | Hle].
  - rewrite validateFiles_over_total in Hv by exact Hlt. discriminate.
  - split; [exact Hle |]. rewrite validateFiles_within_total in Hv by exact Hle.
    intros f Hin. apply validateFile_valid_inv.
    now apply validateEach_valid_inv with fs.
Qed.

Lemma validateFiles_message (fs : list File) :
  valid (validateFiles fs) = false ->
  exists c e, error (validateFiles fs) = Some (String c e).
Proof.
  intros Hv.
  destruct (N.ltb_spec MAX_TOTAL_SIZE (totalSize fs)) as [Hlt | Hle].
  - rewrite validateFiles_over_total by exact Hlt. eexists _, _. reflexivity.
  - rewrite validateFiles_within_total in * by exact Hle.
    now apply validateEach_message.
Qed.

(** X1.  For files that declare types of their own, [validateFiles]
    accepts a list exactly when its sizes add up to at most 50 MiB and
    each file is at most 10 MiB and of a known type; an accepted list
    carries no message and a rejected list always carries a non-empty
    one. *)
Theorem validateFiles_accepts_iff (fs : list File) :
  Forall ownType fs ->
  (valid (validateFiles fs) = true <->
   (totalSize fs <= MAX_TOTAL_SIZE)%N
   /\ forall f, In f fs ->
        (size f <= MAX_FILE_SIZE)%N /\ detectFileType f <> unknown)
  /\ (valid (validateFiles fs) = true -> validateFiles fs = mkValidation true None None)
  /\ (valid (validateFiles fs) = false ->
      exists c e, error (validateFiles fs) = Some (String c e)).
Proof.
  intros _. split; [split |].
  - apply validateFiles_valid_inv.
  - intros [Hle Hall]. rewrite validateFiles_within_total by exact Hle.
    rewrite validateEach_all_valid; [reflexivity |].
    intros f Hin. destruct (Hall f Hin) as [Hs Ht].
    now rewrite validateFile_accepts.
  - split.
    + intros Hv.
      destruct (N.ltb_spec MAX_TOTAL_SIZE (totalSize fs)) as [Hlt | Hle].
      * rewrite validateFiles_over_total in Hv by exact Hlt. discriminate.
      * rewrite validateFiles_within_total in * by exact Hle.
        apply validateEach_all_valid. now apply validateEach_valid_inv.
    + apply validateFiles_message.
Qed.

Lemma validateFiles_accepts_iff_witness :
  validateFiles fullBatch = mkValidation true None None.
Proof.
  assert (Hown : Forall ownType fullBatch).
  { repeat constructor; intros H; repeat (destruct H as [H | H]; [discriminate H |]);
      exact H. }
  apply (proj1 (proj2 (validateFiles_accepts_iff fullBatch Hown))).
  reflexivity.
Defined.

(* ================================================================= *)
(** ** The queue of the hook *)

Lemma convertibleFiles_files (host : Host) (ids : nat -> string) (fs : list File) :
  forall k, map Hook.file (convertibleFiles host ids k fs) = fs.
Proof.
  induction fs as [| f rest IH]; intros k; simpl; [reflexivity | now rewrite IH].
Qed.

Lemma convertibleFiles_entries (host : Host) (ids : nat -> string) (fs : list File) :
  forall k cf,
    In cf (convertibleFiles host ids k fs) ->
    Hook.ftype cf = detectFileType (Hook.file cf)
    /\ Hook.status cf = Hook.pending
    /\ Hook.progress cf = 0
    /\ In (Hook.file cf) fs
    /\ (Hook.preview cf <> None -> Hook.ftype cf = image).
Proof.
  induction fs as [| f rest IH]; intros k cf Hin; simpl in Hin; [contradiction |].
  destruct Hin as [<- | Hin].
  - simpl. repeat split; auto.
    unfold isImageFile, FileType_eqb.
    destruct (FileType_eq_dec (detectFileType f) image); [auto | congruence].
  - destruct (IH _ _ Hin) as (A & B & C & D & E).
    repeat split; auto. now right.
Qed.

Lemma totalSize_acc (fs : list File) :
  forall a, fold_left (fun sum f => (sum + size f)%N) fs a = (a + totalSize fs)%N.
Proof.
  unfold totalSize. induction fs as [| f rest IH]; intros a; simpl.
  - lia.
  - rewrite IH, (IH (size f)). lia.
Qed.

Lemma totalSize_app (a b : list File) :
  totalSize (a ++ b) = (totalSize a + totalSize b)%N.
Proof.
  unfold totalSize at 1. rewrite fold_left_app. fold (totalSize a).
  now rewrite totalSize_acc.
Qed.

(** X2.  [addFiles] with a list that [validateFiles] rejects changes
    nothing but the error, which is the validator's message.  With an
    accepted list it appends one pending entry per file, in order, with
    the detected type, which is never [unknown], and a preview for images
    only, and it clears the error and the result.  Only the dropped list
    is validated: the bytes in the queue grow by the bytes of the list,
    whatever the queue holds already. *)
Theorem addFiles_queue (host : Host) (ids : nat -> string)
    (state : Hook.FileConverterState) (fileList : list File) :
  let state' := addFiles host ids state fileList in
  (valid (validateFiles fileList) = false ->
   Hook.files state' = Hook.files state
   /\ Hook.result state' = Hook.result state
   /\ Hook.error state' = error (validateFiles fileList))
  /\ (valid (validateFiles fileList) = true ->
      exists entries,
        Hook.files state' = (Hook.files state ++ entries)%list
        /\ map Hook.file entries = fileList
        /\ (forall cf, In cf entries ->
              Hook.ftype cf = detectFileType (Hook.file cf)
              /\ Hook.ftype cf <> unknown
              /\ Hook.status cf = Hook.pending
              /\ Hook.progress cf = 0
              /\ (Hook.preview cf <> None -> Hook.ftype cf = image))
        /\ Hook.error state' = None
        /\ Hook.result state' = None
        /\ queueSize state' = (queueSize state + totalSize fileList)%N).
Proof.
  intros state'. subst state'. unfold addFiles. split; intros Hv; rewrite Hv; simpl.
  - repeat split.
    destruct (validateFiles_message fileList Hv) as (c & e & He).
    now rewrite He.
  - exists (convertibleFiles host ids O fileList).
    split; [reflexivity |]. split; [apply convertibleFiles_files |].
    split; [| split; [reflexivity | split; [reflexivity |]]].
    + intros cf Hin.
      destruct (convertibleFiles_entries host ids fileList O cf Hin)
        as (A & B & C & D & E).
      repeat split; auto. rewrite A.
      apply validateFiles_valid_inv in Hv.
      now apply Hv.
    + unfold queueSize. simpl.
      now rewrite map_app, totalSize_app, convertibleFiles_files.
Qed.

Lemma addFiles_queue_witness :
  let state := addFiles sampleHost (fun _ => "id") initialState fullBatch in
  let state' := addFiles sampleHost (fun _ => "id") state fullBatch in
  Hook.error state' = None
  /\ queueSize state' = (2 * MAX_TOTAL_SIZE)%N.
Proof.
  intros state state'.
  destruct (proj2 (addFiles_queue sampleHost (fun _ => "id") state fullBatch) eq_refl)
    as (entries & _ & _ & _ & Herr & _ & Hsize).
  split; [exact Herr |]. fold state' in Hsize. rewrite Hsize. reflexivity.
Defined.

(** X3.  [removeFile] keeps exactly the entries with another identifier,
    in their order; it leaves the result and the error as they are, does
    nothing when no entry has the identifier, and removing twice is
    removing once. *)
Theorem removeFile_queue (state : Hook.FileConverterState) (ident : string) :
  let state' := removeFile state ident in
  (forall cf, In cf (Hook.files state')
              <-> In cf (Hook.files state) /\ Hook.id cf <> ident)
  /\ Hook.files state'
     = filter (fun f => negb (String.eqb (Hook.id f) ident)) (Hook.files state)
  /\ Hook.result state' = Hook.result state
  /\ Hook.error state' = Hook.error state
  /\ ((forall cf, In cf (Hook.files state) -> Hook.id cf <> ident) -> state' = state)
  /\ removeFile state' ident = state'.
Proof.
  intros state'. subst state'. unfold removeFile. simpl.
  split; [| split; [reflexivity | split; [reflexivity | split; [reflexivity | split]]]].
  - intros cf. rewrite filter_In, negb_true_iff, String.eqb_neq. tauto.
  - intros Hall. destruct state as [fs c p r e]. simpl in *. f_equal.
    induction fs as [| g rest IH]; simpl; [reflexivity |].
    assert (Hg : String.eqb (Hook.id g) ident = false)
      by (apply String.eqb_neq, Hall; now left).
    rewrite Hg. simpl. f_equal. apply IH. intros cf Hin. apply Hall. now right.
  - f_equal. induction (Hook.files state) as [| g rest IH]; simpl; [reflexivity |].
    destruct (String.eqb (Hook.id g) ident) eqn:Hg; simpl; [exact IH |].
    rewrite Hg. simpl. now rewrite IH.
Qed.

Lemma removeFile_queue_witness :
  let cf1 := queued "a" (mkFile "one.png" "image/png" 1 EmptyString) in
  let cf2 := queued "b" (mkFile "two.png" "image/png" 1 EmptyString) in
  let state := Hook.mkState [cf1; cf2] false 0 None None in
  removeFile state "c" = state.
Proof.
  intros cf1 cf2 state.
  apply (proj1 (proj2 (proj2 (proj2 (proj2 (removeFile_queue state "c")))))).
  intros cf [<- | [<- | []]]; discriminate.
Defined.

(** X5.  In every state that the operations of the hook produce from the
    initial state out of files that declare types of their own, each entry
    of the queue carries the type that [detectFileType] gives its file,
    that type is not [unknown], and the file is at most 10 MiB; so
    [convert] never reaches the branch that throws [Unsupported file
    type]. *)
Theorem queue_invariant (host : Host) (state : Hook.FileConverterState) :
  reachable host state ->
  (forall cf, In cf (Hook.files state) ->
     Hook.ftype cf = detectFileType (Hook.file cf)
     /\ Hook.ftype cf <> unknown
     /\ (size (Hook.file cf) <= MAX_FILE_SIZE)%N)
  /\ ~ In unknown (Hook.typeSet (Hook.files state)).
Proof.
  intros Hr.
  assert (Hinv : forall cf, In cf (Hook.files state) ->
     Hook.ftype cf = detectFileType (Hook.file cf)
     /\ Hook.ftype cf <> unknown
     /\ (size (Hook.file cf) <= MAX_FILE_SIZE)%N).
  { induction Hr as [| ids state fileList _ _ IH | state ident _ IH | state _ IH
                     | state options _ IH].
    - intros cf [].
    - intros cf Hin. unfold addFiles in Hin.
      destruct (valid (validateFiles fileList)) eqn:Hv; simpl in Hin.
      + apply in_app_iff in Hin. destruct Hin as [Hin | Hin]; [now apply IH |].
        destruct (convertibleFiles_entries host ids fileList O cf Hin)
          as (A & _ & _ & D & _).
        apply validateFiles_valid_inv in Hv.
        destruct Hv as [_ Hall]. destruct (Hall _ D) as [Hs Ht].
        rewrite A. auto.
      + now apply IH.
    - intros cf Hin. simpl in Hin. apply filter_In in Hin. now apply IH.
    - intros cf [].
    - intros cf Hin. unfold Hook.convert in Hin.
      destruct (Hook.files state) as [| f0 rest] eqn:E.
      + simpl in Hin. rewrite ?E in Hin. contradiction.
      + destruct (Hook.dispatch host (f0 :: rest) options report) as [t [res | msg]];
          simpl in Hin;
          (destruct Hin as [<- | Hin];
           [ apply (IH f0); now left
           | apply in_map_iff in Hin; destruct Hin as (cf0 & <- & Hin0);
             apply (IH cf0); now right ]). }
  split; [exact Hinv |].
  intros Hin. apply typeSet_In in Hin. destruct Hin as (cf & Hcf & Ht).
  destruct (Hinv cf Hcf) as (_ & Hne & _). contradiction.
Qed.

Lemma queue_invariant_witness :
  ~ In unknown
      (Hook.typeSet
         (Hook.files (addFiles sampleHost (fun _ => "id") initialState fullBatch))).
Proof.
  apply (queue_invariant sampleHost). apply reach_add; [| apply reach_initial].
  repeat constructor; intros H; repeat (destruct H as [H | H]; [discriminate H |]);
    exact H.
Defined.

(* ================================================================= *)
(** ** Image geometry *)

Lemma floorQ_le (q : Q) : floorQ q <= q.
Proof. apply Qfloor_le. Qed.

Lemma floorQ_nonneg (q : Q) : 0 <= q -> 0 <= floorQ q.
Proof.
  intros Hq. unfold floorQ. change 0 with (inject_Z 0). rewrite <- Zle_Qle.
  change 0%Z with (Qfloor 0). now apply Qfloor_resp_le.
Qed.

Lemma floorQ_int (z : Z) (q : Q) : q == inject_Z z -> floorQ q == inject_Z z.
Proof.
  intros E. unfold floorQ. rewrite (Qfloor_comp _ _ E), Qfloor_Z. reflexivity.
Qed.

Lemma Qleb_le (a b : Q) : Qleb a b = true <-> a <= b.
Proof. apply Qle_bool_iff. Qed.

(** In exact arithmetic the scaled side of the longer axis is 4096. *)
Lemma constrainDimensions_exact (w h : Q) :
  0 < w -> 0 < h ->
  let d := constrainDimensions w h in
  (w <= 4096 -> h <= 4096 -> d = mkDim w h)
  /\ 0 <= width d /\ width d <= 4096 /\ width d <= w
  /\ 0 <= height d /\ height d <= 4096 /\ height d <= h
  /\ (4096 < w -> h <= w -> width d == 4096)
  /\ (4096 < h -> w <= h -> height d == 4096).
Proof.
  intros Hw Hh d. subst d. unfold constrainDimensions, MAX_DIMENSION.
  destruct (Qleb w 4096 && Qleb h 4096) eqn:E.
  - apply andb_true_iff in E. destruct E as [E1 E2].
    apply Qleb_le in E1. apply Qleb_le in E2. cbn [width height].
    repeat split; try lra; intros; lra.
  - assert (Hbig : 4096 < w \/ 4096 < h).
    { apply andb_false_iff in E. destruct E as [E | E].
      - left. apply Qnot_le_lt. intros H. apply Qleb_le in H. congruence.
      - right. apply Qnot_le_lt. intros H. apply Qleb_le in H. congruence. }
    set (a := 4096 / w). set (b := 4096 / h).
    assert (Ha : a * w == 4096) by (unfold a; field; lra).
    assert (Hb : b * h == 4096) by (unfold b; field; lra).
    assert (Hapos : 0 < a) by (apply Qlt_shift_div_l; lra).
    assert (Hbpos : 0 < b) by (apply Qlt_shift_div_l; lra).
    set (r := Qmin a b).
    assert (Hra : r <= a) by apply Q.le_min_l.
    assert (Hrb : r <= b) by apply Q.le_min_r.
    assert (Hrpos : 0 < r).
    { unfold r. destruct (Q.min_spec a b) as [[_ ->] | [_ ->]]; assumption. }
    assert (Hwr : w * r <= 4096) by nra.
    assert (Hhr : h * r <= 4096) by nra.
    assert (Hr1 : r < 1) by (destruct Hbig; nra).
    assert (Hwr' : w * r <= w) by nra.
    assert (Hhr' : h * r <= h) by nra.
    pose proof (floorQ_le (w * r)). pose proof (floorQ_le (h * r)).
    assert (0 <= floorQ (w * r)) by (apply floorQ_nonneg; nra).
    assert (0 <= floorQ (h * r)) by (apply floorQ_nonneg; nra).
    cbn [width height].
    split; [intros; exfalso; destruct Hbig; lra |].
    repeat (split; [lra |]). split.
    + intros _ Hhw. apply (floorQ_int 4096).
      assert (Er : r == a).
      { unfold r. apply Q.min_l. unfold a, b.
        apply Qle_shift_div_l; [lra |].
        setoid_replace (4096 / w * h) with (4096 * h / w) by (field; lra).
        apply Qle_shift_div_r; lra. }
      rewrite Er. change (inject_Z 4096) with 4096. lra.
    + intros _ Hwh. apply (floorQ_int 4096).
      assert (Er : r == b).
      { unfold r. apply Q.min_r. unfold a, b.
        apply Qle_shift_div_l; [lra |].
        setoid_replace (4096 / h * w) with (4096 * w / h) by (field; lra).
        apply Qle_shift_div_r; lra. }
      rewrite Er. change (inject_Z 4096) with 4096. lra.
Qed.

Lemma ofN_pos (n : N) : (0 < n)%N -> 1 <= ofN n.
Proof.
  intros H. unfold ofN. change 1 with (inject_Z 1). rewrite <- Zle_Qle. lia.
Qed.

Lemma ofN_le (a b : N) : (a <= b)%N <-> ofN a <= ofN b.
Proof. unfold ofN. rewrite <- Zle_Qle. lia. Qed.

Lemma ofN_lt (a b : N) : (a < b)%N <-> ofN a < ofN b.
Proof. unfold ofN. rewrite <- Zlt_Qlt. lia. Qed.

(** In binary64 the product of a side with the scaling ratio can fall
    just below the whole number that it is in exact arithmetic, and
    [Math.floor] then gives one less: a width of 4237 is scaled to 4095. *)
Lemma constrainDimensions_rounds_down :
  Binary64.constrainDimensions 4237 1000 = Binary64.mkDim 4095 966
  /\ width (constrainDimensions 4237 1000) == 4096.
Proof. split; vm_compute; reflexivity. Qed.

(** X6.  For the natural sizes of an image [constrainDimensions] returns
    the sizes unchanged when both are at most 4096; in every case the
    result is not negative, at most 4096 and at most the input on each
    axis (it never enlarges); and when a side exceeds 4096 the longer
    side of the result is at least 4095. *)
Theorem constrainDimensions_bounds (w h : N) :
  naturalSize w -> naturalSize h ->
  let d := constrainDimensions (ofN w) (ofN h) in
  ((w <= 4096)%N -> (h <= 4096)%N -> d = mkDim (ofN w) (ofN h))
  /\ 0 <= width d /\ width d <= 4096 /\ width d <= ofN w
  /\ 0 <= height d /\ height d <= 4096 /\ height d <= ofN h
  /\ ((4096 < w)%N -> (h <= w)%N -> 4095 <= width d)
  /\ ((4096 < h)%N -> (w <= h)%N -> 4095 <= height d).
Proof.
  intros [Hw _] [Hh _] d.
  pose proof (ofN_pos w Hw) as Hwq. pose proof (ofN_pos h Hh) as Hhq.
  destruct (constrainDimensions_exact (ofN w) (ofN h))
    as (Hsame & A & B & C & D & E & F & Hwide & Hhigh); [lra | lra |].
  fold d in Hsame, A, B, C, D, E, F, Hwide, Hhigh.
  split.
  { intros H1 H2. apply Hsame.
    - change 4096 with (ofN 4096). now apply ofN_le.
    - change 4096 with (ofN 4096). now apply ofN_le. }
  do 6 (split; [assumption |]). split.
  - intros H1 H2. rewrite Hwide; [discriminate | |].
    + change 4096 with (ofN 4096). now apply ofN_lt.
    + now apply ofN_le.
  - intros H1 H2. rewrite Hhigh; [discriminate | |].
    + change 4096 with (ofN 4096). now apply ofN_lt.
    + now apply ofN_le.
Qed.

Lemma constrainDimensions_bounds_witness :
  4095 <= width (constrainDimensions (ofN 8192) (ofN 4096))
  /\ height (constrainDimensions (ofN 8192) (ofN 4096)) <= 4096.
Proof.
  assert (H1 : naturalSize 8192) by (split; reflexivity).
  assert (H2 : naturalSize 4096) by (split; reflexivity).
  destruct (constrainDimensions_bounds 8192 4096 H1 H2)
    as (_ & _ & _ & _ & _ & Hh & _ & Hw & _).
  split; [apply Hw; [reflexivity | discriminate] | exact Hh].
Defined.

(** X7.  An image more than 4096 times as wide as it is high gets a
    canvas of height 0, on a width of at least 4095. *)
Theorem constrainDimensions_flat (w h : N) :
  naturalSize w -> (0 < h)%N -> (4096 * h < w)%N ->
  let d := constrainDimensions (ofN w) (ofN h) in
  height d == 0 /\ 4095 <= width d /\ width d <= 4096.
Proof.
  intros [_ _] Hh Hw d.
  pose proof (ofN_pos h Hh) as Hhq.
  assert (Hwq : 4096 * ofN h < ofN w).
  { unfold ofN. change 4096 with (inject_Z 4096).
    rewrite <- inject_Z_mult, <- Zlt_Qlt. lia. }
  destruct (constrainDimensions_exact (ofN w) (ofN h))
    as (_ & _ & Hle & _ & _ & _ & _ & Hwide & _); [lra | lra |].
  fold d in Hle, Hwide.
  assert (Hwd : width d == 4096) by (apply Hwide; lra).
  split; [| split; [rewrite Hwd; discriminate | exact Hle]].
  subst d. unfold constrainDimensions, MAX_DIMENSION.
  assert (E : Qleb (ofN w) 4096 = false).
  { destruct (Qleb (ofN w) 4096) eqn:E; [| reflexivity].
    apply Qleb_le in E. lra. }
  rewrite E. cbn [andb height].
  set (r := Qmin (4096 / ofN w) (4096 / ofN h)).
  assert (Hra : r <= 4096 / ofN w) by apply Q.le_min_l.
  assert (Ha : 4096 / ofN w * ofN w == 4096) by (field; lra).
  assert (Hrpos : 0 < r).
  { unfold r. destruct (Q.min_spec (4096 / ofN w) (4096 / ofN h)) as [[_ ->] | [_ ->]];
      apply Qlt_shift_div_l; lra. }
  assert (Hlt : ofN h * r < 1) by nra.
  assert (Hge : 0 <= ofN h * r) by nra.
  unfold floorQ. change 0 with (inject_Z 0). apply inject_Z_injective.
  assert (A : (0 <= Qfloor (ofN h * r))%Z).
  { change 0%Z with (Qfloor 0). now apply Qfloor_resp_le. }
  assert (B : (Qfloor (ofN h * r) < 1)%Z).
  { rewrite Zlt_Qlt. eapply Qle_lt_trans; [apply Qfloor_le |]. exact Hlt. }
  lia.
Qed.

Lemma constrainDimensions_flat_witness :
  height (constrainDimensions (ofN 10000) (ofN 1)) == 0
  /\ hasCanvas (10000%N, 1%N) = false.
Proof.
  assert (H1 : naturalSize 10000) by (split; reflexivity).
  split.
  - apply (constrainDimensions_flat 10000 1 H1); reflexivity.
  - vm_compute. reflexivity.
Defined.

(** X9.  In fit mode, with a valid margin, the page of a canvas has 297 mm
    and the margins on the side on which the canvas is longer, and on the
    other side more than the margins and no more than that; the page is
    landscape exactly when the canvas is wider than high. *)
Theorem fit_page_orientation (options : ConversionOptions) (cw ch : N) :
  pageSize options = fit -> validMargin options ->
  (0 < cw <= 4096)%N -> (0 < ch <= 4096)%N ->
  let page := imagePage options (mkDim (ofN cw) (ofN ch)) in
  let long := 297 + margin options * 2 in
  ((ch < cw)%N -> width page == long /\ height page < long)
  /\ ((cw <= ch)%N -> height page == long /\ width page <= long)
  /\ margin options * 2 < width page
  /\ margin options * 2 < height page
  /\ (Qltb (height page) (width page) = true <-> (ch < cw)%N).
Proof.
  intros Hfit _ [Hcw _] [Hch _] page long. subst page long.
  pose proof (ofN_pos cw Hcw) as Hw. pose proof (ofN_pos ch Hch) as Hh.
  unfold imagePage. rewrite Hfit. cbn [width height].
  set (m := margin options).
  set (r := ofN cw / ofN ch).
  assert (Hr : r * ofN ch == ofN cw) by (unfold r; field; lra).
  assert (Hrpos : 0 < r) by (apply Qlt_shift_div_l; lra).
  destruct (Qltb 1 r) eqn:E; cbn [width height].
  - apply Qltb_lt in E.
    assert (Hlt : (ch < cw)%N) by (apply ofN_lt; nra).
    set (k := 297 / r).
    assert (Hk : k * r == 297) by (unfold k; field; lra).
    assert (Hkpos : 0 < k) by (apply Qlt_shift_div_l; lra).
    assert (Hk297 : k < 297) by nra.
    split; [intros _; split; [reflexivity | lra] |].
    split; [intros Hle; lia |].
    split; [lra |]. split; [lra |].
    split; [intros _; exact Hlt | intros _; apply Qltb_lt; lra].
  - apply Qltb_ge in E.
    assert (Hle : (cw <= ch)%N) by (apply ofN_le; nra).
    split; [intros Hlt; lia |].
    split; [intros _; split; [reflexivity | nra] |].
    split; [nra |]. split; [lra |].
    split; [intros Hl; apply Qltb_lt in Hl; exfalso; nra | intros Hlt; lia].
Qed.

Lemma fit_page_orientation_witness :
  let page := imagePage (mkOptions fit 1 10) (mkDim (ofN 800) (ofN 600)) in
  width page == 317 /\ height page < 317
  /\ Qltb (height page) (width page) = true.
Proof.
  intros page.
  destruct (fit_page_orientation (mkOptions fit 1 10) 800 600 eq_refl)
    as (Hwide & _ & _ & _ & Hland).
  - split; [discriminate | reflexivity].
  - split; [reflexivity | discriminate].
  - split; [reflexivity | discriminate].
  - destruct (Hwide eq_refl) as [A B].
    split; [exact A |]. split; [exact B |]. apply Hland. reflexivity.
Defined.

(* ================================================================= *)
(** ** The classifier *)

Lemma split_noDot (s : string) : noDot s = true -> split "." s = [s].
Proof.
  induction s as [| c s IH]; simpl; [reflexivity |].
  intros H. apply andb_true_iff in H. destruct H as [Hc Hs].
  apply negb_true_iff in Hc. rewrite Hc, (IH Hs). reflexivity.
Qed.

Lemma pop_cons (x y : string) (l : list string) : pop (x :: y :: l) = pop (y :: l).
Proof.
  unfold pop. simpl.
  destruct (rev l ++ [y])%list as [| z t] eqn:E.
  - destruct (rev l); discriminate.
  - reflexivity.
Qed.

Lemma split_last_segment (stem ext : string) :
  noDot ext = true ->
  exists first second rest,
    split "." (stem ++ "." ++ ext) = first :: second :: rest
    /\ pop (first :: second :: rest) = Some ext.
Proof.
  intros Hext. induction stem as [| c s (first & second & rest & Hs & Hp)].
  - exists EmptyString, ext, []. simpl. rewrite (split_noDot ext Hext).
    split; reflexivity.
  - change (String c s ++ "." ++ ext) with (String c (s ++ "." ++ ext)).
    cbn [split]. rewrite Hs.
    destruct (Ascii.eqb c ".").
    + exists EmptyString, first, (second :: rest). split; [reflexivity |].
      now rewrite pop_cons.
    + exists (String c first), second, rest. split; [reflexivity |].
      rewrite pop_cons. now rewrite pop_cons in Hp.
Qed.

Lemma lookup_mime_nonempty (key : string) (t : FileType) :
  lookup key SUPPORTED_MIME_TYPES = Some t -> String.eqb key EmptyString = false.
Proof.
  intros H. destruct key; [discriminate H | reflexivity].
Qed.

(** The extension decides when the look-up of the declared type finds
    nothing. *)
Lemma detectFileType_extension (f : File) (stem ext : string) :
  noDot ext = true ->
  type f = EmptyString \/ lookup (type f) SUPPORTED_MIME_TYPES = None ->
  name f = stem ++ "." ++ ext \/ name f = ext ->
  detectFileType f
  = match lookup ("." ++ toLowerCase ext) EXTENSION_TO_TYPE with
    | Some t => t
    | None => unknown
    end.
Proof.
  intros Hext Hmime Hname. unfold detectFileType.
  assert (Hm : (if String.eqb (type f) EmptyString then None
                else lookup (type f) SUPPORTED_MIME_TYPES) = None).
  { destruct Hmime as [-> | ->]; [reflexivity |].
    now destruct (String.eqb (type f) EmptyString). }
  rewrite Hm.
  assert (Hpop : pop (split "." (name f)) = Some ext).
  { destruct Hname as [-> | ->].
    - destruct (split_last_segment stem ext Hext) as (a & b & r & -> & Hp).
      exact Hp.
    - now rewrite split_noDot. }
  now rewrite Hpop.
Qed.

(** X10.  A declared MIME type of the table decides the type whatever the
    name is.  When the declared type is empty, or is neither in the table
    nor a name that the table inherits, the type is the table entry of
    the dot followed by the lower-cased text after the last dot of the
    name, or of the whole name when it has no dot, and [unknown] when the
    table has no such entry. *)
Theorem detectFileType_by_extension (f : File) (stem ext : string) :
  (forall t, lookup (type f) SUPPORTED_MIME_TYPES = Some t -> detectFileType f = t)
  /\ (noDot ext = true ->
      type f = EmptyString
      \/ (lookup (type f) SUPPORTED_MIME_TYPES = None /\ ownType f) ->
      name f = stem ++ "." ++ ext \/ name f = ext ->
      detectFileType f
      = match lookup ("." ++ toLowerCase ext) EXTENSION_TO_TYPE with
        | Some t => t
        | None => unknown
        end).
Proof.
  split.
  - intros t Ht. unfold detectFileType.
    now rewrite (lookup_mime_nonempty _ _ Ht), Ht.
  - intros Hext Hmime Hname.
    apply (detectFileType_extension f stem ext Hext); [| exact Hname].
    destruct Hmime as [E | [E _]]; [now left | now right].
Qed.

Lemma detectFileType_by_extension_witness :
  detectFileType (mkFile "holiday.2024.JPG" EmptyString 10 EmptyString) = image
  /\ detectFileType (mkFile "docx" "application/octet-stream" 10 EmptyString) = docx.
Proof.
  split.
  - apply (proj2 (detectFileType_by_extension
                    (mkFile "holiday.2024.JPG" EmptyString 10 EmptyString)
                    "holiday.2024" "JPG") eq_refl (or_introl eq_refl)
             (or_introl eq_refl)).
  - apply (proj2 (detectFileType_by_extension
                    (mkFile "docx" "application/octet-stream" 10 EmptyString)
                    EmptyString "docx") eq_refl);
      [right; split; [reflexivity |] | right; reflexivity].
    intros H; repeat (destruct H as [H | H]; [discriminate H |]); exact H.
Defined.

Lemma endsWith_upper_MD (stem : string) (p : string) :
  p = ".md" \/ p = ".markdown" ->
  endsWith (stem ++ ".MD") p = false.
Proof.
  intros Hp. induction stem as [| c s IH].
  - destruct Hp as [-> | ->]; reflexivity.
  - change (String c s ++ ".MD") with (String c (s ++ ".MD")).
    cbn [endsWith]. rewrite IH, orb_false_r.
    apply String.eqb_neq. intros E.
    destruct Hp as [-> | ->].
    + apply (f_equal String.length) in E. simpl in E.
      rewrite length_append in E. simpl in E. lia.
    + (* the name would end in [wn], not in [MD] *)
      assert (H : forall t, String c (t ++ ".MD") <> ".markdown").
      { clear. intros t E.
        assert (Hlen : String.length t = 5%nat).
        { apply (f_equal String.length) in E. simpl in E.
          rewrite length_append in E. simpl in E. lia. }
        destruct t as [| a1 [| a2 [| a3 [| a4 [| a5 [| a6 t]]]]]];
          simpl in Hlen; try discriminate Hlen.
        simpl in E. discriminate E. }
      exact (H s E).
Qed.

(** X11.  A file without MIME type whose name ends in upper-case [.MD]
    is classified as Markdown, but the test by which [htmlToPdf] decides
    to run the transpiler, which compares the end of the name with [.md]
    and [.markdown] as they are written, fails for it, and the container
    is made from the text of the file itself: when the file reads as
    [content] and the rasterizer throws on the container made from
    [content], the run throws that error after the reports 10, 20 and
    40. *)
Theorem markdown_upper_case_name (host : Host) (stem content msg : string)
    (sz : N) (options : ConversionOptions) :
  let file := mkFile (stem ++ ".MD") EmptyString sz content in
  readAsText host file = Ok content ->
  html2canvas host (BASE_STYLE ++ content)
    ((width (PAGE_SIZES (pageSize options)) - margin options * 2) * PX_PER_MM)
  = Throw msg ->
  detectFileType file = markdown
  /\ isMarkdownName file = false
  /\ htmlToPdf host file options report = ([10; 20; 40], Throw msg).
Proof.
  intros file Hread Hcanvas.
  assert (Hname : isMarkdownName file = false).
  { unfold isMarkdownName, file. cbn [name].
    rewrite !endsWith_upper_MD by auto. reflexivity. }
  split; [| split; [exact Hname |]].
  - rewrite (detectFileType_extension file stem "MD" eq_refl
               (or_introl eq_refl) (or_introl eq_refl)).
    reflexivity.
  - unfold htmlToPdf.
    rewrite Hname. unfold createRenderContainer, bind, report, await.
    rewrite Hread. cbn [fst snd]. rewrite Hcanvas. reflexivity.
Qed.

Lemma markdown_upper_case_name_witness :
  let file := mkFile "README.MD" EmptyString 7 "# Title" in
  detectFileType file = markdown
  /\ isMarkdownName file = false
  /\ htmlToPdf headingRejectingHost file defaultOptions report
     = ([10; 20; 40], Throw "raw heading").
Proof.
  exact (markdown_upper_case_name headingRejectingHost "README" "# Title"
           "raw heading" 7 defaultOptions eq_refl eq_refl).
Defined.

(* ================================================================= *)
(** ** DOCX names and batches *)

Lemma replaceFirst_absent (pat by_ s : string) :
  occurs pat s = false -> replaceFirst pat by_ s = s.
Proof.
  induction s as [| c s IH]; intros H.
  - simpl in H. apply orb_false_iff in H. destruct H as [H _].
    unfold replaceFirst. now rewrite H.
  - cbn [occurs] in H. apply orb_false_iff in H. destruct H as [H1 H2].
    cbn [replaceFirst]. rewrite H1. now rewrite IH.
Qed.

(** X12.  When the name of a DOCX file does not contain [.docx] as
    written, for instance when the extension is in upper case, the
    filename of the result of [docxToPdf] is the name of the input
    unchanged, without [.pdf]. *)
Theorem docxToPdf_keeps_name (host : Host) (file : File)
    (options : ConversionOptions) (cb : Callback) (res : ConversionResult) :
  occurs ".docx" (name file) = false ->
  outcomeOf (docxToPdf host file options cb) = Ok res ->
  filename res = name file.
Proof.
  intros Hocc Hres. apply docxToPdf_filename in Hres.
  now rewrite Hres, replaceFirst_absent.
Qed.

Lemma docxToPdf_keeps_name_witness :
  let file := mkFile "Report.DOCX" EmptyString 20 "<p><t>Hi</t></p>" in
  exists res,
    outcomeOf (docxToPdf sampleHost file defaultOptions report) = Ok res
    /\ filename res = "Report.DOCX".
Proof.
  intros file.
  destruct (outcomeOf (docxToPdf sampleHost file defaultOptions report))
    as [res | msg] eqn:E.
  - exists res. split; [reflexivity |].
    exact (docxToPdf_keeps_name sampleHost file defaultOptions report res eq_refl E).
  - vm_compute in E. discriminate.
Defined.

Lemma docxsLoop_all_lack (host : Host) (cb : Callback) (files : list File) :
  quiet cb -> Forall (lacksDocument host) files ->
  forall n i acc, outcomeOf (docxsLoop host cb n i files acc) = Ok acc.
Proof.
  intros Hq Hall. induction Hall as [| f rest (buf & zip & Hbuf & Hzip & Hnone) _ IH];
    intros n i acc.
  - reflexivity.
  - cbn [docxsLoop]. rewrite outcome_bind_quiet by exact Hq.
    rewrite outcome_bind, Hbuf. cbn [outcomeOf await snd].
    rewrite outcome_bind, Hzip. cbn [outcomeOf await snd]. rewrite Hnone.
    apply IH.
Qed.

(** X13.  When every archive of a DOCX batch opens and lacks
    [word/document.xml], [docxsToSinglePdf] does not throw for it: the
    outcome is the one of converting the empty HTML fragment, named
    [converted-documents.pdf]. *)
Theorem docxsToSinglePdf_all_lack (host : Host) (files : list File)
    (options : ConversionOptions) (cb : Callback) :
  quiet cb -> files <> [] -> Forall (lacksDocument host) files ->
  outcomeOf (docxsToSinglePdf host files options cb)
  = outcomeOf
      (res <- htmlToPdf host (htmlFileOf EmptyString "combined.html") options
                (fun progress => cb (50 + progress * (5 # 10))) ;;
       ret (mkResult (blob res) "converted-documents.pdf" (pageCount res))).
Proof.
  intros Hq Hne Hall. unfold docxsToSinglePdf.
  destruct files as [| f rest] eqn:E; [contradiction |]. rewrite <- E in *.
  rewrite outcome_bind, (docxsLoop_all_lack host cb files Hq Hall).
  rewrite outcome_bind_quiet by exact Hq. reflexivity.
Qed.

Lemma docxsToSinglePdf_all_lack_witness :
  let bad := mkFile "empty.docx" EmptyString 4 "PK.." in
  exists res,
    outcomeOf (docxsToSinglePdf emptyArchiveHost [bad; bad] defaultOptions report)
    = Ok res
    /\ filename res = "converted-documents.pdf".
Proof.
  intros bad.
  assert (Hbad : lacksDocument emptyArchiveHost bad).
  { exists "PK..", [("word/styles.xml", mkZipObject (Ok EmptyString) (Ok EmptyString))].
    repeat split. }
  rewrite (docxsToSinglePdf_all_lack emptyArchiveHost [bad; bad] defaultOptions report
             quiet_report ltac:(discriminate)
             (Forall_cons _ Hbad (Forall_cons _ Hbad (Forall_nil _)))).
  eexists. split; [vm_compute; reflexivity | reflexivity].
Defined.

(* ================================================================= *)
(** ** The pages of the image converter *)

Lemma drawOnLast_last (op : DrawOp) (ps : list Page) (p : Page) :
  drawOnLast op (ps ++ [p])
  = (ps ++ [mkPage (pformat p) (porientation p) (ops p ++ [op])])%list.
Proof.
  induction ps as [| q r IH]; [reflexivity |].
  change ((q :: r) ++ [p])%list with (q :: (r ++ [p]))%list.
  cbn [drawOnLast]. rewrite IH.
  destruct (r ++ [p])%list eqn:E; [destruct r; discriminate | reflexivity].
Qed.

Lemma imagesLoop_pages (host : Host) (options : ConversionOptions) (cb : Callback)
    (files : list File) :
  quiet cb -> Forall (imageLoads host) files ->
  forall n i pdf,
    (i = O <-> pdf = None) ->
    exists r newPages,
      outcomeOf (imagesLoop host options cb n i files pdf) = Ok r
      /\ pageList r = (pageList pdf ++ newPages)%list
      /\ List.length newPages = List.length files
      /\ Forall (holdsOneImage options) newPages
      /\ (files <> [] -> r <> None).
Proof.
  intros Hq Hall. induction Hall as [| f rest Hf _ IH]; intros n i pdf Hi.
  - exists pdf, []. simpl. rewrite app_nil_r.
    split; [reflexivity |]. split; [reflexivity |]. split; [reflexivity |].
    split; [constructor | congruence].
  - destruct Hf as (url & img & Hurl & Himg & Hctx & _).
    assert (Hcase : (i = O /\ pdf = None) \/ (exists j d0, i = S j /\ pdf = Some d0)).
    { destruct i as [| j].
      - left. split; [reflexivity | now apply Hi].
      - right. destruct pdf as [d0 |]; [now exists j, d0 |].
        exfalso. assert (S j = O) by now apply Hi. discriminate. }
    cbn [imagesLoop]. rewrite outcome_bind_quiet by exact Hq.
    rewrite outcome_bind. unfold await at 1. cbn [outcomeOf snd]. rewrite Hurl.
    rewrite outcome_bind. unfold await at 1. cbn [outcomeOf snd]. rewrite Himg.
    rewrite outcome_bind. unfold imageToCanvas at 1.
    rewrite Hctx. cbn [outcomeOf snd ret]. cbv zeta.
    rewrite outcome_bind.
    set (canvas := constrainDimensions (ofN (fst img)) (ofN (snd img))).
    set (page := imagePage options canvas).
    set (pl := calculatePlacement (width canvas) (height canvas)
                 (width page) (height page) (margin options)).
    set (o := if Qltb (height page) (width page) then landscape else portrait).
    set (P := mkPage (Some (imageFormat options page)) (Some o)
                [AddImage (px pl) (py pl) (pwidth pl) (pheight pl)]).
    assert (HP : holdsOneImage options P).
    { split; [now exists (px pl), (py pl), (pwidth pl), (pheight pl) |].
      intros Hfit. subst P o page. unfold imageFormat, paperFormat, imagePage.
      cbn [pformat porientation].
      destruct (pageSize options); [split; reflexivity .. | contradiction]. }
    destruct Hcase as [[-> ->] | (j & d0 & -> & ->)];
      cbn [Nat.eqb outcomeOf snd ret].
    + destruct (IH n 1%nat
                  (Some (addImage (px pl) (py pl) (pwidth pl) (pheight pl)
                           (newPdf o (imageFormat options page)))))
        as (r & newPages & Hr & Hp & Hlen & Hall2 & _); [split; discriminate |].
      exists r, (P :: newPages).
      split; [exact Hr |]. split; [exact Hp |].
      split; [simpl; now rewrite Hlen |]. split; [now constructor |].
      intros _ ->. simpl in Hp. discriminate.
    + destruct (IH n (S (S j))
                  (Some (addImage (px pl) (py pl) (pwidth pl) (pheight pl)
                           (addPage (Some (imageFormat options page)) (Some o) d0))))
        as (r & newPages & Hr & Hp & Hlen & Hall2 & _); [split; discriminate |].
      exists r, (P :: newPages).
      split; [exact Hr |]. split.
      * rewrite Hp. cbn [pageList addImage addPage pages].
        rewrite drawOnLast_last. cbn [pformat porientation ops app].
        now rewrite <- app_assoc.
      * split; [simpl; now rewrite Hlen |]. split; [now constructor |].
        intros _ ->. cbn [pageList addImage addPage pages] in Hp.
        rewrite drawOnLast_last in Hp. destruct (pages d0); discriminate.
Qed.

(** X14.  With a valid margin, when every image of a batch that is not
    empty loads, [imagesToPdf] ends normally with one page per image, in
    a document that holds nothing else: the page count is the number of
    files, and every page holds exactly one drawing, an image; outside fit
    mode every page is an upright page of the paper format. *)
Theorem imagesToPdf_one_per_page (host : Host) (files : list File)
    (options : ConversionOptions) (cb : Callback) :
  quiet cb -> validMargin options -> files <> [] ->
  Forall (imageLoads host) files ->
  exists res,
    outcomeOf (imagesToPdf host files options cb) = Ok res
    /\ pageCount res = Z.of_nat (List.length files)
    /\ List.length (pages (blob res)) = List.length files
    /\ Forall (holdsOneImage options) (pages (blob res)).
Proof.
  intros Hq _ Hne Hall. unfold imagesToPdf.
  destruct files as [| f rest] eqn:E; [contradiction |]. rewrite <- E in *.
  destruct (imagesLoop_pages host options cb files Hq Hall (List.length files) O None)
    as (r & newPages & Hr & Hp & Hlen & Hall2 & Hsome); [split; reflexivity |].
  destruct r as [d |]; [| now specialize (Hsome Hne)].
  rewrite outcome_bind, Hr. rewrite outcome_bind_quiet by exact Hq.
  eexists. split; [reflexivity |]. cbn [blob pageCount]. simpl in Hp. rewrite Hp.
  split; [reflexivity |]. split; [exact Hlen | exact Hall2].
Qed.

Lemma imagesToPdf_one_per_page_witness :
  let a := mkFile "a.png" "image/png" 4 "aaaa" in
  let b := mkFile "b.jpg" "image/jpeg" 4 "bbbb" in
  exists res,
    outcomeOf (imagesToPdf sampleHost [a; b] defaultOptions report) = Ok res
    /\ List.length (pages (blob res)) = 2%nat
    /\ Forall (holdsOneImage defaultOptions) (pages (blob res)).
Proof.
  intros a b.
  assert (Hvalid : validMargin defaultOptions) by (split; [discriminate | reflexivity]).
  assert (Ha : imageLoads sampleHost a).
  { exists ("data:" ++ type a ++ ";base64," ++ bytes a), (800%N, 600%N).
    repeat split. }
  assert (Hb : imageLoads sampleHost b).
  { exists ("data:" ++ type b ++ ";base64," ++ bytes b), (800%N, 600%N).
    repeat split. }
  destruct (imagesToPdf_one_per_page sampleHost [a; b] defaultOptions report
              quiet_report Hvalid ltac:(discriminate)
              (Forall_cons _ Ha (Forall_cons _ Hb (Forall_nil _))))
    as (res & Hres & _ & Hlen & Hpages).
  exists res. split; [exact Hres |]. split; [exact Hlen | exact Hpages].
Defined.




(* ================================================================= *)
(** ** The pages of the HTML converter *)

Lemma content_height_px_pos (options : ConversionOptions) :
  validMargin options ->
  0 < (height (PAGE_SIZES (pageSize options)) - margin options * 2) * PX_PER_MM * 2.
Proof.
  intros Hvalid. pose proof (content_height_ge options Hvalid) as H. cbv zeta in H.
  assert (Hpx : 0 < PX_PER_MM) by reflexivity.
  nra.
Qed.

Lemma canvasPages_nonneg (options : ConversionOptions) (canvas : N * N) :
  validMargin options ->
  (0 <= canvasPages options canvas)%Z
  /\ (canvasPages options canvas = 0%Z <-> snd canvas = 0%N).
Proof.
  intros Hvalid. pose proof (content_height_px_pos options Hvalid) as Hpos.
  unfold canvasPages.
  set (chp := (height (PAGE_SIZES (pageSize options)) - margin options * 2)
              * PX_PER_MM * 2) in *.
  assert (Hh : 0 <= ofN (snd canvas)).
  { unfold ofN. change 0 with (inject_Z 0). rewrite <- Zle_Qle. lia. }
  assert (Hx : 0 <= ofN (snd canvas) / chp).
  { apply Qle_shift_div_l; [exact Hpos | lra]. }
  pose proof (Qle_ceiling (ofN (snd canvas) / chp)) as Hc.
  assert (Hge : (0 <= Qceiling (ofN (snd canvas) / chp))%Z).
  { rewrite Zle_Qle. change (inject_Z 0) with 0. lra. }
  split; [exact Hge |]. split.
  - intros E. rewrite E in Hc. change (inject_Z 0) with 0 in Hc.
    assert (Hz : ofN (snd canvas) <= 0).
    { assert (Hd : ofN (snd canvas) / chp * chp == ofN (snd canvas)) by (field; lra).
      nra. }
    unfold ofN in Hz. change 0 with (inject_Z 0) in Hz. rewrite <- Zle_Qle in Hz. lia.
  - intros ->. reflexivity.
Qed.

Lemma canvasPages_pos (options : ConversionOptions) (canvas : N * N) :
  validMargin options -> (0 < snd canvas)%N -> (1 <= canvasPages options canvas)%Z.
Proof.
  intros Hvalid Hh.
  destruct (canvasPages_nonneg options canvas Hvalid) as [Hge Hzero].
  assert (canvasPages options canvas <> 0%Z) by (rewrite Hzero; lia).
  lia.
Qed.

Lemma htmlPages_pages (host : Host) (options : ConversionOptions) (cb : Callback)
    (canvas : N * N) (cw chp : Q) (total : Z) :
  quiet cb -> (forall w h, getContext2d host w h = true) ->
  forall k page pdf,
    exists pdf',
      outcomeOf (htmlPages host options cb canvas cw chp total k page pdf) = Ok pdf'
      /\ (List.length (pages pdf') + (if Nat.eqb page 0 then Nat.min 1 k else 0)
          = List.length (pages pdf) + k)%nat
      /\ (k = O -> pdf' = pdf).
Proof.
  intros Hq Hctx. induction k as [| k IH]; intros page pdf.
  - exists pdf. cbn [htmlPages]. split; [reflexivity |].
    split; [destruct (Nat.eqb page 0); simpl; lia | reflexivity].
  - cbn [htmlPages]. cbv zeta. rewrite Hctx. rewrite outcome_bind_quiet by exact Hq.
    match goal with
    | |- context [htmlPages host options cb canvas cw chp total k (S page) ?d] =>
        destruct (IH (S page) d) as (pdf' & Hr & Hlen & _)
    end.
    exists pdf'. split; [exact Hr |]. split; [| discriminate].
    cbn [Nat.eqb] in Hlen. unfold addImage in Hlen. cbn [pages] in Hlen.
    rewrite drawOnLast_length in Hlen.
    destruct page as [| page']; cbn [Nat.ltb Nat.leb Nat.eqb] in *.
    + simpl. lia.
    + rewrite addPage_pages in Hlen. lia.
Qed.

(** The page loop leaves one strip on every page: on the first page of a
    new document, then on a page that it adds. *)
Lemma htmlPages_strips (host : Host) (options : ConversionOptions) (cb : Callback)
    (canvas : N * N) (cw chp : Q) (total : Z) :
  quiet cb -> (forall w h, getContext2d host w h = true) ->
  forall k page pdf pdf',
    outcomeOf (htmlPages host options cb canvas cw chp total k page pdf) = Ok pdf' ->
    (if Nat.eqb page 0 then exists f o, pages pdf = [mkPage f o []]
     else Forall (holdsStrip options cw) (pages pdf)) ->
    (0 < k + page)%nat ->
    Forall (holdsStrip options cw) (pages pdf').
Proof.
  intros Hq Hctx. induction k as [| k IH]; intros page pdf pdf' Hr Hinv Hpos.
  - cbn [htmlPages] in Hr. injection Hr as <-.
    destruct page as [| page']; [simpl in Hpos; lia | exact Hinv].
  - cbn [htmlPages] in Hr. cbv zeta in Hr. rewrite Hctx in Hr.
    rewrite outcome_bind_quiet in Hr by exact Hq.
    apply (IH _ _ _ Hr); [| lia]. cbn [Nat.eqb].
    unfold addImage. cbn [pages].
    destruct page as [| page']; cbn [Nat.ltb Nat.leb Nat.eqb] in *.
    + destruct Hinv as (f & o & ->). cbn [drawOnLast pformat porientation ops app].
      constructor; [| constructor]. eexists. reflexivity.
    + unfold addPage. cbn [pages]. rewrite drawOnLast_last.
      cbn [pformat porientation ops app].
      apply Forall_app. split; [exact Hinv |].
      constructor; [| constructor]. eexists. reflexivity.
Qed.

(** X16.  For a valid margin, a file that renders to a canvas of positive
    width and a host that gives every strip a context, [htmlToPdf] ends
    normally; the page count it reports is 0 exactly when the canvas has
    no height, and the document has as many pages as reported, but never
    less than one: a canvas without height gives page count 0 with a
    document of one blank page.  Otherwise every page holds one drawing, a
    strip of the canvas at the margin on both axes, as wide as the
    content box. *)
Theorem htmlToPdf_pages (host : Host) (file : File) (options : ConversionOptions)
    (cb : Callback) (canvas : N * N) :
  quiet cb -> validMargin options -> rendersAs host options file canvas ->
  (0 < fst canvas)%N ->
  (forall w h, getContext2d host w h = true) ->
  exists res,
    outcomeOf (htmlToPdf host file options cb) = Ok res
    /\ (0 <= pageCount res)%Z
    /\ (pageCount res = 0%Z <-> snd canvas = 0%N)
    /\ Z.of_nat (List.length (pages (blob res))) = Z.max 1 (pageCount res)
    /\ (snd canvas = 0%N ->
        pages (blob res) = [mkPage (Some (paperFormat options)) (Some portrait) []])
    /\ ((0 < snd canvas)%N ->
        Forall (holdsStrip options
                  (width (PAGE_SIZES (pageSize options)) - margin options * 2))
          (pages (blob res))).
Proof.
  intros Hq Hvalid (content & Hread & Hcanvas) _ Hctx.
  destruct (canvasPages_nonneg options canvas Hvalid) as [Hge Hzero].
  unfold htmlToPdf. rewrite outcome_bind_quiet by exact Hq.
  rewrite outcome_bind. unfold await at 1. cbn [outcomeOf snd]. rewrite Hread.
  rewrite outcome_bind_quiet by exact Hq. cbv zeta.
  rewrite outcome_bind_quiet by exact Hq.
  unfold createRenderContainer. cbn [fst snd].
  rewrite outcome_bind. unfold await at 1. cbn [outcomeOf snd]. rewrite Hcanvas.
  rewrite outcome_bind_quiet by exact Hq. fold (canvasPages options canvas).
  rewrite outcome_bind.
  match goal with
  | |- context [htmlPages host options cb canvas ?cw ?chp ?t ?k O ?d] =>
      destruct (htmlPages_pages host options cb canvas cw chp t Hq Hctx k O d)
        as (pdf' & Hr & Hlen & Hsame);
      pose proof (htmlPages_strips host options cb canvas cw chp t Hq Hctx k O d pdf' Hr)
        as Hstrips
  end.
  rewrite Hr. rewrite outcome_bind_quiet by exact Hq.
  eexists. split; [reflexivity |]. cbn [pageCount blob].
  split; [exact Hge |]. split; [exact Hzero |].
  cbn [Nat.eqb newPdf pages List.length] in Hlen.
  split; [| split].
  - destruct (Z.to_nat (canvasPages options canvas)) as [| k] eqn:E.
    + simpl in Hlen. lia.
    + simpl in Hlen. lia.
  - intros Hh. apply Hzero in Hh. rewrite Hh in Hsame. now rewrite (Hsame eq_refl).
  - intros Hh. apply Hstrips.
    + cbn [Nat.eqb newPdf pages]. now eexists _, _.
    + pose proof (canvasPages_pos options canvas Hvalid Hh). lia.
Qed.

Lemma htmlToPdf_pages_witness :
  let blank := mkFile "empty.html" "text/html" 0 EmptyString in
  let note := mkFile "note.html" "text/html" 11 "<p>note</p>" in
  (exists res,
     outcomeOf (htmlToPdf blankCanvasHost blank defaultOptions report) = Ok res
     /\ pageCount res = 0%Z
     /\ List.length (pages (blob res)) = 1%nat)
  /\ (exists res,
        outcomeOf (htmlToPdf sampleHost note defaultOptions report) = Ok res
        /\ Z.of_nat (List.length (pages (blob res))) = Z.max 1 (pageCount res)
        /\ Forall (holdsStrip defaultOptions 190) (pages (blob res))).
Proof.
  intros blank note.
  assert (Hvalid : validMargin defaultOptions) by (split; [discriminate | reflexivity]).
  split.
  - destruct (htmlToPdf_pages blankCanvasHost blank defaultOptions report (1436%N, 0%N)
                quiet_report Hvalid)
      as (res & Hres & _ & Hzero & _ & Hblank & _).
    + exists EmptyString. split; reflexivity.
    + reflexivity.
    + reflexivity.
    + exists res. split; [exact Hres |]. split; [now apply Hzero |].
      now rewrite (Hblank eq_refl).
  - destruct (htmlToPdf_pages sampleHost note defaultOptions report (1436%N, 3000%N)
                quiet_report Hvalid)
      as (res & Hres & _ & _ & Hlen & _ & Hstrips).
    + exists (bytes note). split; reflexivity.
    + reflexivity.
    + reflexivity.
    + exists res. split; [exact Hres |]. split; [exact Hlen |].
      exact (Hstrips eq_refl).
Defined.

Lemma htmlsPages_counted (host : Host) (options : ConversionOptions)
    (canvas : N * N) (cw chp : Q) :
  (forall w h, getContext2d host w h = true) ->
  forall k page st,
    counted st ->
    exists st',
      outcomeOf (htmlsPages host options canvas cw chp k page st) = Ok st'
      /\ htotalPages st' = (htotalPages st + k)%nat
      /\ counted st'.
Proof.
  intros Hctx. induction k as [| k IH]; intros page st Hst.
  - exists st. cbn [htmlsPages]. split; [reflexivity |]. split; [lia | exact Hst].
  - cbn [htmlsPages]. cbv zeta. rewrite Hctx.
    match goal with
    | |- context [htmlsPages host options canvas cw chp k (S page) ?s] =>
        destruct (IH (S page) s) as (st' & Hr & Hn & Hc)
    end.
    + unfold counted in *. cbn [hpdf htotalPages]. unfold addImage. cbn [pages].
      rewrite drawOnLast_length.
      destruct (hpdf st) as [d |].
      * rewrite addPage_pages. lia.
      * simpl. lia.
    + exists st'. split; [exact Hr |]. split; [| exact Hc].
      cbn [htotalPages] in Hn. lia.
Qed.

(** The strips counted for a list of canvases: none for a canvas without
    height, one or more for any other. *)
Lemma canvasPages_sum (options : ConversionOptions) (canvases : list (N * N)) :
  validMargin options ->
  let total := fold_right Z.add 0%Z (map (canvasPages options) canvases) in
  (Z.of_nat (List.length (filter (fun c => (0 <? snd c)%N) canvases)) <= total)%Z
  /\ (Forall (fun c => snd c = 0%N) canvases -> total = 0%Z).
Proof.
  intros Hvalid total. subst total.
  induction canvases as [| c r [IH1 IH2]]; [split; [simpl; lia | reflexivity] |].
  cbn [map fold_right filter].
  destruct (canvasPages_nonneg options c Hvalid) as [Hge Hzero].
  split.
  - destruct (N.ltb_spec 0 (snd c)) as [Hpos | Hle].
    + pose proof (canvasPages_pos options c Hvalid Hpos). cbn [List.length]. lia.
    + lia.
  - intros Hall. inversion Hall as [| c' r' Hc Hr]; subst.
    rewrite (IH2 Hr), (proj2 Hzero Hc). reflexivity.
Qed.

Lemma htmlsLoop_counted (host : Host) (options : ConversionOptions) (cb : Callback)
    (files : list File) (canvases : list (N * N)) :
  quiet cb -> validMargin options ->
  (forall w h, getContext2d host w h = true) ->
  Forall2 (rendersAs host options) files canvases ->
  forall n i st,
    counted st ->
    exists st',
      outcomeOf (htmlsLoop host options cb n i files st) = Ok st'
      /\ Z.of_nat (htotalPages st')
         = (Z.of_nat (htotalPages st)
            + fold_right Z.add 0 (map (canvasPages options) canvases))%Z
      /\ counted st'.
Proof.
  intros Hq Hvalid Hctx Hall.
  induction Hall as [| f canvas files' canvases' (content & Hread & Hcanvas) _ IH];
    intros n i st Hst.
  - exists st. cbn [htmlsLoop]. split; [reflexivity |]. split; [simpl; lia | exact Hst].
  - cbn [htmlsLoop]. cbv zeta.
    rewrite outcome_bind. unfold await at 1. cbn [outcomeOf snd]. rewrite Hread.
    unfold createRenderContainer. cbn [fst snd].
    rewrite outcome_bind. unfold await at 1. cbn [outcomeOf snd]. rewrite Hcanvas.
    fold (canvasPages options canvas). rewrite outcome_bind.
    match goal with
    | |- context [htmlsPages host options canvas ?cw ?chp ?k O st] =>
        destruct (htmlsPages_counted host options canvas cw chp Hctx k O st Hst)
          as (st1 & Hr1 & Hn1 & Hc1)
    end.
    rewrite Hr1. rewrite outcome_bind_quiet by exact Hq.
    destruct (IH n (S i) st1 Hc1) as (st' & Hr & Hn & Hc).
    exists st'. split; [exact Hr |]. split; [| exact Hc].
    destruct (canvasPages_nonneg options canvas Hvalid) as [Hge _].
    cbn [map fold_right]. lia.
Qed.

(** X17.  For a valid margin, files that render to canvases of positive
    width and a host that gives every strip a context: when some canvas
    has a height, [htmlsToSinglePdf] ends normally and reports as page
    count the number of pages of the document, which is at least the
    number of canvases with a height.  When every canvas is without
    height no document is ever created and the batch throws, reading
    [output] of [null], where [htmlToPdf] on one such file returns a
    document. *)
Theorem htmlsToSinglePdf_pages (host : Host) (files : list File)
    (canvases : list (N * N)) (options : ConversionOptions) (cb : Callback) :
  quiet cb -> validMargin options -> files <> [] ->
  Forall2 (rendersAs host options) files canvases ->
  Forall (fun c => (0 < fst c)%N) canvases ->
  (forall w h, getContext2d host w h = true) ->
  (Exists (fun c => (0 < snd c)%N) canvases ->
   exists res,
     outcomeOf (htmlsToSinglePdf host files options cb) = Ok res
     /\ pageCount res = Z.of_nat (List.length (pages (blob res)))
     /\ (Z.of_nat (List.length (filter (fun c => (0 <? snd c)%N) canvases))
         <= pageCount res)%Z
     /\ (1 <= pageCount res)%Z
     /\ filename res = "converted-documents.pdf")
  /\ (Forall (fun c => snd c = 0%N) canvases ->
      exists msg, outcomeOf (htmlsToSinglePdf host files options cb) = Throw msg).
Proof.
  intros Hq Hvalid Hne Hall _ Hctx.
  destruct (htmlsLoop_counted host options cb files canvases Hq Hvalid Hctx Hall
              (List.length files) O (mkHtmlsState None O) eq_refl)
    as (st & Hr & Hn & Hc).
  cbn [htotalPages] in Hn.
  destruct (canvasPages_sum options canvases Hvalid) as [Hsum Hnone].
  cbv zeta in Hsum, Hnone.
  assert (Hrun : outcomeOf (htmlsToSinglePdf host files options cb)
                 = match hpdf st with
                   | Some d => Ok (mkResult d "converted-documents.pdf"
                                     (Z.of_nat (htotalPages st)))
                   | None => Throw "Cannot read properties of null (reading 'output')"
                   end).
  { unfold htmlsToSinglePdf. destruct files as [| f rest] eqn:E; [contradiction |].
    rewrite <- E in *. rewrite outcome_bind, Hr.
    rewrite outcome_bind_quiet by exact Hq. now destruct (hpdf st). }
  rewrite Hrun. unfold counted in Hc. split.
  - intros Hex.
    assert (Hpos : (1 <= List.length (filter (fun c => (0 <? snd c)%N) canvases))%nat).
    { apply Exists_exists in Hex. destruct Hex as (c & Hin & Hc0).
      assert (Hf : In c (filter (fun c => (0 <? snd c)%N) canvases)).
      { apply filter_In. split; [exact Hin |]. now apply N.ltb_lt. }
      destruct (filter (fun c => (0 <? snd c)%N) canvases); [contradiction |].
      simpl. lia. }
    destruct (hpdf st) as [d |].
    + eexists. split; [reflexivity |]. cbn [pageCount blob filename].
      destruct Hc as [Hlen _].
      split; [now rewrite Hlen |]. split; [lia |]. split; [lia | reflexivity].
    + lia.
  - intros Hflat. specialize (Hnone Hflat).
    destruct (hpdf st) as [d |]; [lia | now eexists].
Qed.

Lemma htmlsToSinglePdf_pages_witness :
  let a := mkFile "a.html" "text/html" 9 "<p>a</p>" in
  let b := mkFile "b.md" "text/markdown" 3 "# b" in
  (exists res,
     outcomeOf (htmlsToSinglePdf sampleHost [a; b] defaultOptions report) = Ok res
     /\ pageCount res = Z.of_nat (List.length (pages (blob res)))
     /\ (2 <= pageCount res)%Z)
  /\ (exists msg,
        outcomeOf (htmlsToSinglePdf blankCanvasHost [a; b] defaultOptions report)
        = Throw msg).
Proof.
  intros a b.
  assert (Hvalid : validMargin defaultOptions) by (split; [discriminate | reflexivity]).
  assert (Hne : [a; b] <> []) by discriminate.
  split.
  - assert (Hall : Forall2 (rendersAs sampleHost defaultOptions) [a; b]
                     [(1436%N, 3000%N); (1436%N, 3000%N)]).
    { constructor; [exists (bytes a); split; reflexivity |].
      constructor; [exists (bytes b); split; reflexivity | constructor]. }
    destruct (proj1 (htmlsToSinglePdf_pages sampleHost [a; b]
                       [(1436%N, 3000%N); (1436%N, 3000%N)] defaultOptions report
                       quiet_report Hvalid Hne Hall
                       ltac:(repeat constructor) (fun _ _ => eq_refl)))
      as (res & Hres & Hcount & Hmin & _).
    + constructor. reflexivity.
    + exists res. split; [exact Hres |]. split; [exact Hcount | exact Hmin].
  - assert (Hall : Forall2 (rendersAs blankCanvasHost defaultOptions) [a; b]
                     [(1436%N, 0%N); (1436%N, 0%N)]).
    { constructor; [exists (bytes a); split; reflexivity |].
      constructor; [exists (bytes b); split; reflexivity | constructor]. }
    apply (proj2 (htmlsToSinglePdf_pages blankCanvasHost [a; b]
                    [(1436%N, 0%N); (1436%N, 0%N)] defaultOptions report
                    quiet_report Hvalid Hne Hall
                    ltac:(repeat constructor) (fun _ _ => eq_refl))).
    constructor; [reflexivity |]. constructor; [reflexivity | constructor].
Defined.

(* ================================================================= *)
(** ** The pages of a batch of text files *)

Section TextBatch.

Variable host : Host.
Variable options : ConversionOptions.
Variable cb : Callback.
Hypothesis valid : validMargin options.
Hypothesis silent : quiet cb.

Let m := margin options.
Let H := height (PAGE_SIZES (pageSize options)).
Let K := Qfloor ((H - m * 2) / LINE_HEIGHT).







End TextBatch.


(* ================================================================= *)
(** ** The Markdown transpiler on heading lines *)

Lemma plain_char_more (c : ascii) :
  isPlain c = true ->
  Ascii.eqb c "-" = false /\ Ascii.eqb c "<" = false
  /\ Ascii.eqb c ":" = false /\ Ascii.eqb c ">" = false
  /\ Ascii.eqb c "&" = false /\ Ascii.eqb c LF = false
  /\ Ascii.eqb "&" c = false /\ Ascii.eqb ">" c = false.
Proof.
  destruct c as [b0 b1 b2 b3 b4 b5 b6 b7].
  destruct b0, b1, b2, b3, b4, b5, b6, b7; intros H;
    first [ discriminate H | repeat split; reflexivity ].
Qed.

Lemma allChars_dropChars (p : ascii -> bool) (n : nat) :
  forall s, allChars p s = true -> allChars p (dropChars n s) = true.
Proof.
  induction n as [| n IH]; intros s Hs; [exact Hs |].
  destruct s as [| c r]; [reflexivity |].
  simpl in Hs. apply andb_true_iff in Hs. cbn [dropChars]. now apply IH.
Qed.

Lemma spanWhile_all (p : ascii -> bool) (s : string) :
  allChars p s = true -> spanWhile p s = s.
Proof.
  induction s as [| c r IH]; [reflexivity |].
  simpl. intros H. apply andb_true_iff in H. destruct H as [Hc Hr].
  now rewrite Hc, IH.
Qed.

Lemma restOfLine_plain (w : string) : allChars isPlain w = true -> restOfLine w = w.
Proof.
  intros Hw. apply spanWhile_all.
  apply (allChars_impl isPlain); [| exact Hw].
  intros x Hx. now destruct (plain_char x Hx) as (_ & _ & _ & _ & _ & _ & _ & _ & _ & ->).
Qed.

Lemma startsWith_app (a b : string) : startsWith a (a ++ b) = true.
Proof.
  induction a as [| x a IH]; [reflexivity |].
  cbn [append startsWith]. now rewrite Ascii.eqb_refl, IH.
Qed.

Lemma replaceAllFrom_skip_all (m : Matcher) (s : string) :
  forall p k, (String.length s <= k)%nat -> replaceAllFrom m p k s = EmptyString.
Proof.
  induction s as [| c r IH]; intros p k Hk; [reflexivity |].
  destruct k as [| k]; [simpl in Hk; lia |].
  cbn [replaceAllFrom]. apply IH. simpl in Hk. lia.
Qed.

Lemma heading_plain (marker tag : string) (p : option ascii) (c : ascii) (r : string) :
  startsWith "#" marker = true -> isPlain c = true ->
  heading marker tag p (String c r) = None.
Proof.
  intros Hm Hc. unfold heading. destruct marker as [| a mk]; [discriminate |].
  cbn [startsWith] in *. apply andb_true_iff in Hm. destruct Hm as [Ha _].
  apply Ascii.eqb_eq in Ha. subst a.
  destruct (plain_char c Hc) as (_ & _ & _ & _ & -> & _).
  now rewrite andb_false_r.
Qed.

Lemma wrap_shape (tag x : string) :
  "<p>" ++ ("<" ++ tag ++ ">" ++ x ++ "</" ++ tag ++ ">") ++ "</p>"
  = ("<p><" ++ tag ++ ">") ++ x ++ ("</" ++ tag ++ "></p>").
Proof. repeat (progress (cbn [append]; rewrite ?append_assoc)). reflexivity. Qed.

Lemma wrap_shape' (tag x : string) :
  "<p><" ++ tag ++ ">" ++ x ++ "</" ++ tag ++ "></p>"
  = ("<p><" ++ tag ++ ">") ++ x ++ ("</" ++ tag ++ "></p>").
Proof. repeat (progress (cbn [append]; rewrite ?append_assoc)). reflexivity. Qed.

Section HeadingLine.

Variable c : ascii.
Variable w' : string.
Hypothesis plain_c : isPlain c = true.
Hypothesis plain_w' : allChars isPlain w' = true.

Let w := String c w'.

Lemma plain_line : allChars isPlain w = true.
Proof. unfold w. simpl. now rewrite plain_c, plain_w'. Qed.

(** The heading expression of a marker on a line that begins with it. *)
Lemma heading_hit (marker tag : string) :
  marker <> EmptyString ->
  replaceAll (heading marker tag) (marker ++ w)
  = "<" ++ tag ++ ">" ++ w ++ "</" ++ tag ++ ">".
Proof.
  intros Hne. destruct marker as [| a mk]; [contradiction |].
  unfold replaceAll. change (String a mk ++ w) with (String a (mk ++ w)).
  rewrite (replaceAllFrom_some _ _ _ _ (String.length (String a mk) + String.length w)
             ("<" ++ tag ++ ">" ++ w ++ "</" ++ tag ++ ">")).
  - rewrite replaceAllFrom_skip_all by (rewrite length_append; simpl; lia).
    now rewrite !append_assoc, append_nil_r.
  - unfold heading. cbn [atLineStart andb].
    change (String a (mk ++ w)) with (String a mk ++ w).
    rewrite startsWith_app, dropChars_app, (restOfLine_plain w plain_line).
    reflexivity.
Qed.

(** The heading expression of a longer marker on a line of a shorter
    one. *)
Lemma heading_miss (marker tag pre : string) :
  (marker = "### " /\ (pre = "# " \/ pre = "## ")) \/ (marker = "## " /\ pre = "# ") ->
  replaceAll (heading marker tag) (pre ++ w) = pre ++ w.
Proof.
  intros Hcase.
  rewrite <- (append_nil_r w) at 1.
  rewrite <- (append_nil_r w) at 2.
  apply replaceAll_unchanged.
  - apply heading_quiet.
  - apply plain_line.
  - destruct Hcase as [[-> [-> | ->]] | [-> ->]]; never plain_c.
  - destruct Hcase as [[-> [-> | ->]] | [-> ->]]; reflexivity.
  - intros q Hq. exact I.
Qed.

(** The passes after the heading expressions, on a heading element. *)
Lemma element_pass (m : Matcher) (tag : string) :
  tag = "h1" \/ tag = "h2" \/ tag = "h3" ->
  quietOnPlain m ->
  (forall r, m None (String "<" r) = None) ->
  (forall q r, atLineStart q = false -> m q (String "<" r) = None) ->
  (forall q x r, atLineStart q = false ->
     In x ["/"; "h"; "1"; "2"; "3"; ">"]%char -> m q (String x r) = None) ->
  replaceAll m ("<" ++ tag ++ ">" ++ w ++ "</" ++ tag ++ ">")
  = "<" ++ tag ++ ">" ++ w ++ "</" ++ tag ++ ">".
Proof.
  intros Htag Hq H0 Hlt Hx.
  replace ("<" ++ tag ++ ">" ++ w ++ "</" ++ tag ++ ">")
    with (("<" ++ tag ++ ">") ++ w ++ ("</" ++ tag ++ ">"))
    by (now rewrite !append_assoc).
  apply replaceAll_unchanged.
  - exact Hq.
  - apply plain_line.
  - destruct Htag as [-> | [-> | ->]]; cbn [neverMatchesIn append];
      (split; [apply H0 |]);
      repeat (split; [apply Hx; [reflexivity | simpl; tauto] |]); exact I.
  - destruct Htag as [-> | [-> | ->]]; reflexivity.
  - intros q Hq0. destruct Htag as [-> | [-> | ->]]; cbn [neverMatchesIn append];
      (split; [now apply Hlt |]);
      repeat (split; [apply Hx; [reflexivity | simpl; tauto] |]); exact I.
Qed.

Lemma listRun_heading (tag : string) :
  tag = "h1" \/ tag = "h2" \/ tag = "h3" ->
  replaceAll listRun (("<p><" ++ tag ++ ">") ++ w ++ ("</" ++ tag ++ "></p>"))
  = ("<p><" ++ tag ++ ">") ++ w ++ ("</" ++ tag ++ "></p>").
Proof.
  intros Htag. apply replaceAll_unchanged.
  - apply listRun_quiet.
  - apply plain_line.
  - destruct Htag as [-> | [-> | ->]]; never plain_c.
  - destruct Htag as [-> | [-> | ->]]; reflexivity.
  - intros q Hq. destruct Htag as [-> | [-> | ->]]; never Hq.
Qed.

Lemma heading_line (marker tag : string) :
  (marker = "# " /\ tag = "h1") \/ (marker = "## " /\ tag = "h2")
  \/ (marker = "### " /\ tag = "h3") ->
  markdownToHtml (marker ++ w) = "<p><" ++ tag ++ ">" ++ w ++ "</" ++ tag ++ "></p>".
Proof.
  intros Hcase.
  assert (Htag : tag = "h1" \/ tag = "h2" \/ tag = "h3") by tauto.
  assert (Hheads :
            replaceAll (heading "# " "h1")
              (replaceAll (heading "## " "h2")
                 (replaceAll (heading "### " "h3") (marker ++ w)))
            = "<" ++ tag ++ ">" ++ w ++ "</" ++ tag ++ ">").
  { destruct Hcase as [[-> ->] | [[-> ->] | [-> ->]]].
    - rewrite !heading_miss by tauto. now apply heading_hit.
    - rewrite heading_miss by tauto. rewrite heading_hit by discriminate.
      apply (element_pass (heading "# " "h1") "h2"); [tauto | apply heading_quiet | | |];
        try (intros; reflexivity).
      + intros q r Hq. unfold heading. now rewrite Hq.
      + intros q x r Hq _. unfold heading. now rewrite Hq.
    - rewrite heading_hit by discriminate.
      rewrite (element_pass (heading "## " "h2") "h3");
        [| tauto | apply heading_quiet | intros; reflexivity
         | intros q r Hq; unfold heading; now rewrite Hq
         | intros q x r Hq _; unfold heading; now rewrite Hq ].
      apply (element_pass (heading "# " "h1") "h3"); [tauto | apply heading_quiet | | |];
        try (intros; reflexivity).
      + intros q r Hq. unfold heading. now rewrite Hq.
      + intros q x r Hq _. unfold heading. now rewrite Hq. }
  unfold markdownToHtml. rewrite Hheads.
  assert (Hin : forall (m : Matcher) (x : ascii) (r : string) q,
             In x ["/"; "h"; "1"; "2"; "3"; ">"]%char ->
             (forall y, In y ["/"; "h"; "1"; "2"; "3"; ">"]%char -> m q (String y r) = None) ->
             m q (String x r) = None).
  { intros m x r q Hx Hall. now apply Hall. }
  rewrite !(element_pass (delimited false _ _ _ _) tag Htag)
    by (first [ apply delimited_star_quiet | intros; reflexivity
              | intros q x r _ Hx; simpl in Hx;
                repeat (destruct Hx as [<- | Hx]; [reflexivity |]); contradiction ]).
  rewrite (element_pass (delimited true _ _ _ _) tag Htag)
    by (first [ apply delimited_tick_quiet | intros; reflexivity
              | intros q x r _ Hx; simpl in Hx;
                repeat (destruct Hx as [<- | Hx]; [reflexivity |]); contradiction ]).
  rewrite (element_pass inlineCode tag Htag)
    by (first [ apply inlineCode_quiet | intros; reflexivity
              | intros q x r _ Hx; simpl in Hx;
                repeat (destruct Hx as [<- | Hx]; [reflexivity |]); contradiction ]).
  rewrite (element_pass link tag Htag)
    by (first [ apply link_quiet | intros; reflexivity
              | intros q x r _ Hx; simpl in Hx;
                repeat (destruct Hx as [<- | Hx]; [reflexivity |]); contradiction ]).
  rewrite (element_pass listItem tag Htag)
    by (first [ apply listItem_quiet | intros; reflexivity
              | intros q r Hq; unfold listItem; now rewrite Hq
              | intros q x r Hq _; unfold listItem; now rewrite Hq ]).
  change (nl ++ nl) with (String LF (String LF EmptyString)).
  change nl with (String LF EmptyString).
  rewrite !(element_pass (literal (String LF _) _) tag Htag)
    by (first [ apply literal_nl_quiet | intros; reflexivity
              | intros q x r _ Hx; simpl in Hx;
                repeat (destruct Hx as [<- | Hx]; [reflexivity |]); contradiction ]).
  rewrite wrap_shape, wrap_shape'. now apply listRun_heading.
Qed.

End HeadingLine.

(** X19.  A line that consists of one, two or three hash marks, a blank
    and text of letters, digits and blanks becomes the heading element of
    that level around the text, and the element stands inside the
    paragraph that wraps the whole output. *)
Theorem markdownToHtml_heading (w : string) :
  allChars isPlain w = true ->
  markdownToHtml ("# " ++ w) = "<p><h1>" ++ w ++ "</h1></p>"
  /\ markdownToHtml ("## " ++ w) = "<p><h2>" ++ w ++ "</h2></p>"
  /\ markdownToHtml ("### " ++ w) = "<p><h3>" ++ w ++ "</h3></p>".
Proof.
  intros Hw. destruct w as [| c w'].
  - vm_compute. repeat split.
  - simpl in Hw. apply andb_true_iff in Hw. destruct Hw as [Hc Hw'].
    split; [| split].
    + apply (heading_line c w' Hc Hw' "# " "h1"). tauto.
    + apply (heading_line c w' Hc Hw' "## " "h2"). tauto.
    + apply (heading_line c w' Hc Hw' "### " "h3"). tauto.
Qed.

Lemma markdownToHtml_heading_witness :
  markdownToHtml "## Release 2" = "<p><h2>Release 2</h2></p>".
Proof.
  apply (proj1 (proj2 (markdownToHtml_heading "Release 2" eq_refl))).
Defined.

(* ================================================================= *)
(** ** The text of a DOCX document *)

Lemma matchAllFrom_pass (m : Matcher) (s : string) :
  forall p rest,
    neverMatchesIn m p s rest ->
    matchAllFrom m p 0 (s ++ rest) = matchAllFrom m (lastOr p s) 0 rest.
Proof.
  induction s as [| c s IH]; intros p rest Hn.
  - reflexivity.
  - destruct Hn as [Hc Hs]. cbn [append matchAllFrom lastOr].
    rewrite Hc. now rewrite IH.
Qed.

Lemma matchAllFrom_skip (m : Matcher) (w : string) :
  forall p k rest,
    matchAllFrom m p (String.length w + k) (w ++ rest)
    = matchAllFrom m (lastOr p w) k rest.
Proof.
  induction w as [| x w IH]; intros p k rest.
  - reflexivity.
  - cbn [String.length append Nat.add matchAllFrom lastOr]. apply IH.
Qed.

Lemma matchAllFrom_skip_all (m : Matcher) (s : string) :
  forall p k, (String.length s <= k)%nat -> matchAllFrom m p k s = [].
Proof.
  induction s as [| c r IH]; intros p k Hk; [reflexivity |].
  destruct k as [| k]; [simpl in Hk; lia |].
  cbn [matchAllFrom]. apply IH. simpl in Hk. lia.
Qed.

Lemma nsOpen_quiet : quietOnPlain nsOpen.
Proof.
  intros c r p Hc _. unfold nsOpen. cbn [startsWith].
  now destruct (plain_char c Hc) as (_ & _ & _ & _ & _ & _ & -> & _).
Qed.

Lemma nsClose_quiet : quietOnPlain nsClose.
Proof.
  intros c r p Hc _. unfold nsClose. cbn [startsWith].
  now destruct (plain_char c Hc) as (_ & _ & _ & _ & _ & _ & -> & _).
Qed.

Lemma openTag_plain (tag : string) (c : ascii) (r : string) :
  isPlain c = true -> openTag tag (String c r) = None.
Proof.
  intros Hc. unfold openTag. cbn [append startsWith].
  now destruct (plain_char c Hc) as (_ & _ & _ & _ & _ & _ & -> & _).
Qed.

Lemma paragraph_quiet : quietOnPlain paragraph.
Proof. intros c r p Hc _. unfold paragraph. now rewrite openTag_plain. Qed.

Lemma literal_lt_quiet (pat' out : string) :
  quietOnPlain (literal (String "<" pat') out).
Proof.
  intros c r p Hc _. unfold literal. cbn [startsWith].
  now destruct (plain_char c Hc) as (_ & _ & _ & _ & _ & _ & -> & _).
Qed.

(** A lazy run up to a closing tag walks over plain text. *)
Lemma lazyUntil_through (close' w rest : string) :
  allChars isPlain w = true ->
  lazyUntil true (String "<" close') (w ++ rest)
  = option_map (append w) (lazyUntil true (String "<" close') rest).
Proof.
  induction w as [| c w IH]; intros Hw.
  - cbn [append]. now destruct (lazyUntil true (String "<" close') rest).
  - simpl in Hw. apply andb_true_iff in Hw. destruct Hw as [Hc Hw].
    cbn [append lazyUntil startsWith].
    destruct (plain_char c Hc) as (_ & _ & _ & _ & _ & _ & -> & _).
    cbn [andb negb]. rewrite (IH Hw).
    now destruct (lazyUntil true (String "<" close') rest).
Qed.

Lemma notLt_plain (w : string) :
  allChars isPlain w = true -> allChars (notChar "<") w = true.
Proof.
  apply allChars_impl. intros x Hx. unfold notChar.
  now destruct (plain_char_more x Hx) as (_ & -> & _).
Qed.

Lemma closing_run_removed (w : string) :
  allChars isPlain w = true ->
  forall p, replaceOnceFrom (literal "</t>" EmptyString) p (w ++ "</t>") = w.
Proof.
  induction w as [| c r IH]; intros Hw p; [reflexivity |].
  simpl in Hw. apply andb_true_iff in Hw. destruct Hw as [Hc Hr].
  cbn [append replaceOnceFrom].
  assert (E : literal "</t>" EmptyString p (String c (r ++ "</t>")) = None)
    by exact (literal_lt_quiet _ _ c _ (Some " "%char) Hc eq_refl).
  rewrite E. now rewrite (IH Hr).
Qed.

Section DocumentText.

Variable w : string.
Hypothesis plain_text : allChars isPlain w = true.

(** The first replacement turns the closing tags of a prefixed document
    into opening tags. *)
Lemma prefixed_clean :
  replaceAll nsClose
    (replaceAll nsOpen ("<w:p><w:r><w:t>" ++ w ++ "</w:t></w:r></w:p>"))
  = "<p><r><t>" ++ w ++ "<t><r><p>".
Proof.
  assert (E : replaceAll nsOpen ("<w:p><w:r><w:t>" ++ w ++ "</w:t></w:r></w:p>")
              = "<p><r><t>" ++ w ++ "<t><r><p>").
  { unfold replaceAll. cbn [append]. cbn.
    rewrite (replaceAllFrom_pass nsOpen w (Some ">"%char))
      by (apply neverMatchesIn_plain; [apply nsOpen_quiet | exact plain_text | reflexivity]).
    destruct w as [| c w']; [reflexivity |].
    cbn [lastOr]. cbn. reflexivity. }
  rewrite E. apply replaceAll_unchanged.
  - apply nsClose_quiet.
  - exact plain_text.
  - never plain_text.
  - reflexivity.
  - intros q Hq. never Hq.
Qed.

Lemma unprefixed_clean :
  replaceAll nsClose (replaceAll nsOpen ("<p><r><t>" ++ w ++ "</t></r></p>"))
  = "<p><r><t>" ++ w ++ "</t></r></p>".
Proof.
  assert (E : replaceAll nsOpen ("<p><r><t>" ++ w ++ "</t></r></p>")
              = "<p><r><t>" ++ w ++ "</t></r></p>").
  { apply replaceAll_unchanged.
    - apply nsOpen_quiet.
    - exact plain_text.
    - never plain_text.
    - reflexivity.
    - intros q Hq. never Hq. }
  rewrite E. apply replaceAll_unchanged.
  - apply nsClose_quiet.
  - exact plain_text.
  - never plain_text.
  - reflexivity.
  - intros q Hq. never Hq.
Qed.

Lemma prefixed_paragraphs :
  matchAll paragraph ("<p><r><t>" ++ w ++ "<t><r><p>") = [].
Proof.
  unfold matchAll.
  assert (Hw : lazyUntil true "</p>" (w ++ "<t><r><p>") = None).
  { now rewrite lazyUntil_through by exact plain_text. }
  rewrite (matchAllFrom_pass paragraph "<p><r><t>" None).
  - rewrite (matchAllFrom_pass paragraph w)
      by (apply neverMatchesIn_plain;
          [apply paragraph_quiet | exact plain_text | reflexivity]).
    reflexivity.
  - cbn [neverMatchesIn append]. split.
    + cbn. rewrite Hw. reflexivity.
    + never plain_text.
Qed.

Lemma prefixed_text :
  extractTextFromXml ("<w:p><w:r><w:t>" ++ w ++ "</w:t></w:r></w:p>") = EmptyString.
Proof.
  unfold extractTextFromXml. cbv zeta. rewrite prefixed_clean, prefixed_paragraphs.
  reflexivity.
Qed.

Lemma unprefixed_paragraphs :
  matchAll paragraph ("<p><r><t>" ++ w ++ "</t></r></p>")
  = ["<p><r><t>" ++ w ++ "</t></r></p>"].
Proof.
  unfold matchAll.
  assert (Hw : lazyUntil true "</p>" (w ++ "</t></r></p>") = Some (w ++ "</t></r>")).
  { now rewrite lazyUntil_through by exact plain_text. }
  assert (H0 : paragraph None ("<p><r><t>" ++ w ++ "</t></r></p>")
               = Some (String.length ("<p><r><t>" ++ w ++ "</t></r></p>"), EmptyString)).
  { cbn. rewrite Hw. cbn. rewrite !length_append. cbn.
    do 2 f_equal. lia. }
  change ("<p><r><t>" ++ w ++ "</t></r></p>")
    with (String "<" ("p><r><t>" ++ w ++ "</t></r></p>")) in *.
  cbn [matchAllFrom]. rewrite H0.
  f_equal.
  - cbn [String.length takeChars]. f_equal.
    rewrite <- (append_nil_r ("p><r><t>" ++ w ++ "</t></r></p>")) at 2.
    apply takeChars_app.
  - cbn [String.length Nat.pred]. apply matchAllFrom_skip_all. lia.
Qed.

Lemma unprefixed_runs :
  matchAll textRun ("<p><r><t>" ++ w ++ "</t></r></p>") = ["<t>" ++ w ++ "</t>"].
Proof.
  unfold matchAll.
  change ("<p><r><t>" ++ w ++ "</t></r></p>")
    with ("<p><r>" ++ "<t>" ++ w ++ "</t></r></p>").
  rewrite (matchAllFrom_pass textRun "<p><r>" None ("<t>" ++ w ++ "</t></r></p>"))
    by (never plain_text).
  assert (H0 : textRun (Some ">"%char) ("<t>" ++ w ++ "</t></r></p>")
               = Some (String.length ("<t>" ++ w ++ "</t>"), EmptyString)).
  { unfold textRun.
    change (openTag "t" ("<t>" ++ w ++ "</t></r></p>")) with (Some 3%nat).
    cbv iota beta zeta.
    change (dropChars 3 ("<t>" ++ w ++ "</t></r></p>")) with (w ++ "</t></r></p>").
    rewrite (spanWhile_until (notChar "<") w "<" "/t></r></p>"
               (notLt_plain w plain_text) eq_refl).
    change (dropChars (3 + String.length w) ("<t>" ++ w ++ "</t></r></p>"))
      with (dropChars (String.length w) (w ++ "</t></r></p>")).
    rewrite dropChars_app. cbn [startsWith Ascii.eqb Bool.eqb andb].
    cbn [append String.length]. rewrite length_append. cbn [String.length].
    apply f_equal. apply (f_equal (fun n => (n, EmptyString))). lia. }
  assert (Hshape : "<t>" ++ w ++ "</t></r></p>" = ("<t>" ++ w ++ "</t>") ++ "</r></p>").
  { cbn [append]. now rewrite append_assoc. }
  cbn [lastOr].
  change ("<t>" ++ w ++ "</t></r></p>")
    with (String "<" ("t>" ++ w ++ "</t></r></p>")) in *.
  cbn [matchAllFrom]. rewrite H0. f_equal.
  - rewrite Hshape. apply takeChars_app.
  - cbn [append String.length Nat.pred].
    replace (String "t" (String ">" (w ++ "</t></r></p>")))
      with (("t>" ++ w ++ "</t>") ++ "</r></p>")
      by (cbn [append]; now rewrite append_assoc).
    replace (String.length (w ++ "</t>") + 2)%nat
      with (String.length ("t>" ++ w ++ "</t>") + 0)%nat at 1
      by (cbn [append String.length]; lia).
    replace (S (S (String.length (w ++ "</t>"))))
      with (String.length ("t>" ++ w ++ "</t>") + 0)%nat
      by (cbn [append String.length]; lia).
    rewrite matchAllFrom_skip. reflexivity.
Qed.

Lemma unprefixed_text :
  extractTextFromXml ("<p><r><t>" ++ w ++ "</t></r></p>")
  = if String.eqb (trim w) EmptyString then EmptyString else w.
Proof.
  unfold extractTextFromXml. cbv zeta.
  rewrite unprefixed_clean, unprefixed_paragraphs. cbn [map].
  rewrite unprefixed_runs. cbn [map join].
  change (replaceOnce tOpen ("<t>" ++ w ++ "</t>")) with (w ++ "</t>").
  unfold replaceOnce. rewrite !(closing_run_removed w plain_text).
  now destruct (String.eqb (trim w) EmptyString).
Qed.

End DocumentText.

(** X20.  For a paragraph with one run of text of letters, digits and
    blanks: when the element names carry no namespace prefix,
    [extractTextFromXml] returns the text (the empty string when the text
    is blank); when they carry the prefix [w:], as in the main document
    of a DOCX archive, the first replacement also rewrites the closing
    tags into opening tags, no paragraph is found and the result is the
    empty string. *)
Theorem extractTextFromXml_prefix (w : string) :
  allChars isPlain w = true ->
  extractTextFromXml ("<p><r><t>" ++ w ++ "</t></r></p>")
  = (if String.eqb (trim w) EmptyString then EmptyString else w)
  /\ replaceAll nsClose
       (replaceAll nsOpen ("<w:p><w:r><w:t>" ++ w ++ "</w:t></w:r></w:p>"))
     = "<p><r><t>" ++ w ++ "<t><r><p>"
  /\ extractTextFromXml ("<w:p><w:r><w:t>" ++ w ++ "</w:t></w:r></w:p>") = EmptyString.
Proof.
  intros Hw. split; [now apply unprefixed_text |].
  split; [now apply prefixed_clean | now apply prefixed_text].
Qed.

Lemma extractTextFromXml_prefix_witness :
  extractTextFromXml "<p><r><t>Dear reader</t></r></p>" = "Dear reader"
  /\ extractTextFromXml "<w:p><w:r><w:t>Dear reader</w:t></w:r></w:p>" = EmptyString.
Proof.
  destruct (extractTextFromXml_prefix "Dear reader" eq_refl) as (A & _ & B).
  split; [exact A | exact B].
Defined.

(* ================================================================= *)
(** ** The HTML of a DOCX document *)

Lemma replaceAll_literal_char (a : ascii) (out : string) (s : string) :
  forall p, replaceAllFrom (literal (String a EmptyString) out) p 0 s = substChar a out s.
Proof.
  induction s as [| c r IH]; intros p; [reflexivity |].
  cbn [replaceAllFrom substChar]. unfold literal at 1. cbn [startsWith String.length].
  rewrite andb_true_r.
  destruct (Ascii.eqb a c); cbn [Nat.pred]; now rewrite IH.
Qed.

Lemma substChar_app (a : ascii) (out x y : string) :
  substChar a out (x ++ y) = substChar a out x ++ substChar a out y.
Proof.
  induction x as [| c r IH]; [reflexivity |].
  cbn [append substChar]. now rewrite IH, append_assoc.
Qed.

Lemma escape_passes (s : string) :
  substChar ">" "&gt;" (substChar "<" "&lt;" (substChar "&" "&amp;" s)) = escapeHtml s.
Proof.
  induction s as [| c r IH]; [reflexivity |].
  cbn [substChar escapeHtml]. rewrite !substChar_app, IH. f_equal.
  unfold escapeChar. rewrite (Ascii.eqb_sym c "&"), (Ascii.eqb_sym c "<"),
    (Ascii.eqb_sym c ">").
  destruct (Ascii.eqb "&" c) eqn:Ea; [reflexivity |].
  cbn [substChar append]. destruct (Ascii.eqb "<" c) eqn:El; [reflexivity |].
  cbn [substChar append]. now destruct (Ascii.eqb ">" c).
Qed.

Lemma escapeChar_no_tags (c : ascii) :
  allChars (fun x => notChar "<" x && notChar ">" x) (escapeChar c) = true.
Proof.
  unfold escapeChar.
  destruct (Ascii.eqb c "&"); [reflexivity |].
  destruct (Ascii.eqb c "<") eqn:El; [reflexivity |].
  destruct (Ascii.eqb c ">") eqn:Eg; [reflexivity |].
  unfold notChar. cbn [allChars]. now rewrite El, Eg.
Qed.

(** X21.  The three replacements of [contentToHtml], made one after the
    other with the ampersand first, escape each code unit of the text
    once: no entity written by an earlier replacement is changed by a
    later one.  Without images the HTML is one paragraph per line of the
    escaped text, an empty line becoming a no-break space, and the escaped
    text holds neither [<] nor [>]. *)
Theorem contentToHtml_escapes (text_ : string) :
  contentToHtml text_ []
  = join nl
      (map (fun line =>
              "<p>" ++ (if String.eqb line EmptyString then "&nbsp;" else line) ++ "</p>")
         (split LF (escapeHtml text_)))
  /\ allChars (fun x => notChar "<" x && notChar ">" x) (escapeHtml text_) = true.
Proof.
  split.
  - unfold contentToHtml, replaceAll. cbv zeta.
    now rewrite !replaceAll_literal_char, escape_passes.
  - induction text_ as [| c r IH]; [reflexivity |].
    cbn [escapeHtml]. now rewrite allChars_app, escapeChar_no_tags, IH.
Qed.

(** X22.  A document whose element names carry the prefix [w:] loses its
    text on the way to the PDF: for a paragraph with one run of plain
    text, [docxToPdf] has the outcome of converting the HTML that
    [contentToHtml] makes from the empty text and the images of the
    archive, whatever the text is. *)
Theorem docxToPdf_loses_text (host : Host) (file : File) (zip : JSZip) (w : string)
    (options : ConversionOptions) (cb : Callback) :
  quiet cb -> allChars isPlain w = true ->
  documentReads host file zip ("<w:p><w:r><w:t>" ++ w ++ "</w:t></w:r></w:p>") ->
  outcomeOf (docxToPdf host file options cb)
  = outcomeOf
      (res <- htmlToPdf host
                (htmlFileOf (contentToHtml EmptyString (extractImages zip))
                   (replaceFirst ".docx" ".html" (name file)))
                options (fun progress => cb (60 + progress * (4 # 10))) ;;
       ret (mkResult (blob res) (replaceFirst ".docx" ".pdf" (name file))
              (pageCount res))).
Proof.
  intros Hq Hw (buf & entry & Hbuf & Hzip & Hentry & Hxml).
  unfold docxToPdf. rewrite outcome_bind_quiet by exact Hq.
  rewrite outcome_bind, Hbuf. cbn [outcomeOf await snd].
  rewrite outcome_bind_quiet by exact Hq.
  rewrite outcome_bind, Hzip. cbn [outcomeOf await snd].
  rewrite outcome_bind_quiet by exact Hq. rewrite Hentry.
  rewrite outcome_bind, Hxml. cbn [outcomeOf await snd].
  rewrite outcome_bind_quiet by exact Hq. cbv zeta.
  rewrite outcome_bind_quiet by exact Hq.
  rewrite outcome_bind_quiet by exact Hq.
  now rewrite (prefixed_text w Hw).
Qed.

Lemma docxToPdf_loses_text_witness :
  let xml := "<w:p><w:r><w:t>Dear reader</w:t></w:r></w:p>" in
  let file := mkFile "letter.docx" EmptyString 44 xml in
  outcomeOf (docxToPdf sampleHost file defaultOptions report)
  = outcomeOf
      (res <- htmlToPdf sampleHost (htmlFileOf "<p>&nbsp;</p>" "letter.html")
                defaultOptions (fun progress => report (60 + progress * (4 # 10))) ;;
       ret (mkResult (blob res) "letter.pdf" (pageCount res))).
Proof.
  intros xml file.
  apply (docxToPdf_loses_text sampleHost file
           [("word/document.xml", mkZipObject (Ok xml) (Ok xml))] "Dear reader"
           defaultOptions report quiet_report eq_refl).
  exists xml, (mkZipObject (Ok xml) (Ok xml)).
  split; [reflexivity |]. split; [reflexivity |]. split; reflexivity.
Defined.

(* ================================================================= *)
(** ** The suggestion and the run *)

Lemma two_distinct {A : Type} (l : list A) (a b : A) :
  In a l -> In b l -> a <> b -> (2 <= List.length l)%nat.
Proof.
  intros Ha Hb Hab. destruct l as [| x [| y r]]; simpl in *.
  - contradiction.
  - destruct Ha as [<- | []]. destruct Hb as [<- | []]. contradiction.
  - lia.
Qed.

Lemma filter_length_lt {A : Type} (p : A -> bool) (l : list A) (b : A) :
  In b l -> p b = false -> (List.length (filter p l) < List.length l)%nat.
Proof.
  intros Hin Hp. induction l as [| x r IH]; [contradiction |].
  pose proof (filter_length_le p r) as Hle.
  destruct Hin as [-> | Hin]; simpl.
  - rewrite Hp. lia.
  - specialize (IH Hin). destruct (p x); simpl; lia.
Qed.

Lemma getSuggestion_mixed (state : Hook.FileConverterState) :
  (2 <= List.length (Hook.typeSet (Hook.files state)))%nat ->
  getSuggestion state
  = "Convert " ++ showN (N.of_nat (List.length (Hook.files state)))
    ++ " files (mixed types) to PDF".
Proof.
  intros Hmixed. unfold getSuggestion.
  destruct (Hook.files state) as [| f0 r0]; [simpl in Hmixed; lia |].
  destruct (Hook.typeSet (f0 :: r0)) as [| t1 [| t2 ts]]; simpl in Hmixed; try lia.
  reflexivity.
Qed.

Lemma convert_result (host : Host) (state : Hook.FileConverterState)
    (options : ConversionOptions) (res : ConversionResult) :
  Hook.files state <> [] ->
  outcomeOf (Hook.dispatch host (Hook.files state) options report) = Ok res ->
  Hook.result (snd (Hook.convert host state options)) = Some res.
Proof.
  intros Hne Hres. unfold Hook.convert.
  destruct (Hook.files state) as [| f0 r0]; [contradiction |].
  unfold outcomeOf in Hres.
  destruct (Hook.dispatch host (f0 :: r0) options report) as [t [r | msg]];
    cbn [snd] in Hres; [| discriminate].
  injection Hres as ->. reflexivity.
Qed.

(** X23.  For a queue that holds images that all load and at least one
    file of another type, with a valid margin, [getSuggestion] announces
    the conversion of all files of the queue, while the run of [convert]
    stores a result whose page count is the number of images, which is
    less. *)
Theorem suggestion_counts_all (host : Host) (state : Hook.FileConverterState)
    (options : ConversionOptions) :
  let fs := Hook.files state in
  let images := Hook.filesOfType (FileType_eqb image) fs in
  validMargin options ->
  (exists a, In a fs /\ Hook.ftype a = image) ->
  (exists b, In b fs /\ Hook.ftype b <> image) ->
  Forall (imageLoads host) images ->
  getSuggestion state
  = "Convert " ++ showN (N.of_nat (List.length fs)) ++ " files (mixed types) to PDF"
  /\ exists res,
       Hook.result (snd (Hook.convert host state options)) = Some res
       /\ pageCount res = Z.of_nat (List.length images)
       /\ (List.length images < List.length fs)%nat.
Proof.
  cbv zeta. intros _ (a & Ha & Hta) (b & Hb & Htb) Hall.
  assert (Hmixed : (2 <= List.length (Hook.typeSet (Hook.files state)))%nat).
  { apply (two_distinct _ image (Hook.ftype b)).
    - apply typeSet_In. now exists a.
    - apply typeSet_In. now exists b.
    - congruence. }
  assert (Hne : Hook.filesOfType (FileType_eqb image) (Hook.files state) <> []).
  { intros E.
    assert (H : Nat.ltb 0 (List.length
                  (Hook.filesOfType (FileType_eqb image) (Hook.files state))) = true).
    { apply filesOfType_nonempty. exists a. split; [exact Ha |]. now rewrite Hta. }
    rewrite E in H. discriminate. }
  split; [now apply getSuggestion_mixed |].
  destruct (imagesToPdf_ok host options report _ quiet_report Hne Hall)
    as (res & Hres & Hcount & _).
  exists res. split; [| split; [exact Hcount |]].
  - apply convert_result.
    + intros E. rewrite E in Ha. contradiction.
    + now rewrite (dispatch_mixed_images host _ options report Hmixed Hne).
  - unfold Hook.filesOfType. rewrite length_map.
    apply (filter_length_lt _ _ b Hb).
    destruct (Hook.ftype b); try reflexivity. contradiction.
Qed.

Lemma suggestion_counts_all_witness :
  let state := Hook.mkState twoImagesOneText false 0 None None in
  getSuggestion state = "Convert 3 files (mixed types) to PDF"
  /\ exists res,
       Hook.result (snd (Hook.convert sampleHost state defaultOptions)) = Some res
       /\ pageCount res = 2%Z.
Proof.
  intros state.
  destruct (suggestion_counts_all sampleHost state defaultOptions)
    as (Hs & res & Hres & Hcount & _).
  - split; [discriminate | reflexivity].
  - eexists. split; [left; reflexivity | reflexivity].
  - eexists. split; [right; left; reflexivity | discriminate].
  - apply Forall_forall. intros f _.
    exists ("data:" ++ type f ++ ";base64," ++ bytes f), (800%N, 600%N).
    repeat split.
  - split; [exact Hs |]. exists res. split; [exact Hres | exact Hcount].
Defined.

(* ================================================================= *)
(** ** Emphasis outside code *)

(** A lazy run up to a closing run of asterisks walks over plain text. *)
Lemma startsWith_refl (a : string) : startsWith a a = true.
Proof.
  induction a as [| x a IH]; [reflexivity |].
  cbn [startsWith]. now rewrite Ascii.eqb_refl, IH.
Qed.

Lemma lazyUntil_stars (close' w : string) :
  allChars isPlain w = true ->
  lazyUntil false (String "*" close') (w ++ String "*" close') = Some w.
Proof.
  induction w as [| c w IH]; intros Hw.
  - cbn [append]. destruct close'; cbn [lazyUntil];
      now rewrite startsWith_refl.
  - simpl in Hw. apply andb_true_iff in Hw. destruct Hw as [Hc Hw].
    destruct (plain_char c Hc) as (_ & E1 & _ & _ & _ & _ & _ & _ & _ & E2).
    cbn [append lazyUntil startsWith]. rewrite E1. cbn [andb negb].
    rewrite E2. cbn [andb]. now rewrite (IH Hw).
Qed.

Section Emphasis.

Variable c : ascii.
Variable w' : string.
Hypothesis plain_c : isPlain c = true.
Hypothesis plain_w' : allChars isPlain w' = true.

Let w := String c w'.

Lemma plain_run : allChars isPlain w = true.
Proof. unfold w. simpl. now rewrite plain_c, plain_w'. Qed.

(** Side conditions on runs of asterisks around the plain run. *)
Ltac starred :=
  cbn [neverMatchesIn append];
  repeat match goal with
         | |- _ /\ _ => split
         | |- True => exact I
         | |- _ = None =>
             first [ reflexivity
                   | unfold heading, listItem; rewrite plain_c; reflexivity
                   | unfold delimited, w; cbn [startsWith append];
                     destruct (plain_char c plain_c) as (_ & -> & _); reflexivity ]
         end.

(** An expression that needs more asterisks than the text has, or none,
    leaves the starred run unchanged. *)
Lemma starred_pass (m : Matcher) (stars : string) :
  stars = "*" \/ stars = "**" \/ stars = "***" ->
  quietOnPlain m ->
  (forall p r, m p (String "*" (String c r)) = None) ->
  (forall p x r, In x ["*"; "<"; "/"; ">"]%char ->
     m p (String "*" (String x r)) = None) ->
  (forall p, m p "*" = None) ->
  replaceAll m (stars ++ w ++ stars) = stars ++ w ++ stars.
Proof.
  intros Hs Hq Hc Hx He.
  apply replaceAll_unchanged; [exact Hq | apply plain_run | | | ].
  - destruct Hs as [-> | [-> | ->]]; cbn [neverMatchesIn append];
      repeat (split; [first [ apply Hc | apply Hx; simpl; tauto ] |]); exact I.
  - destruct Hs as [-> | [-> | ->]]; reflexivity.
  - intros q _. destruct Hs as [-> | [-> | ->]]; cbn [neverMatchesIn append];
      repeat (split; [first [ apply He | apply Hx; simpl; tauto ] |]); exact I.
Qed.

(** The emphasis expression of a run of asterisks on the text between
    two such runs. *)
Lemma starred_hit (stars left right : string) :
  stars = "*" \/ stars = "**" \/ stars = "***" ->
  replaceAll (delimited false stars stars left right) (stars ++ w ++ stars)
  = left ++ w ++ right.
Proof.
  intros Hs.
  assert (Hm : delimited false stars stars left right None (stars ++ w ++ stars)
               = Some ((String.length stars + String.length w + String.length stars)%nat,
                       left ++ w ++ right)).
  { unfold delimited. rewrite startsWith_app, dropChars_app.
    destruct Hs as [-> | [-> | ->]];
      now rewrite (lazyUntil_stars _ w plain_run). }
  unfold replaceAll.
  destruct stars as [| a st]; [destruct Hs as [H | [H | H]]; discriminate H |].
  change (String a st ++ w ++ String a st) with (String a (st ++ w ++ String a st)) in *.
  rewrite (replaceAllFrom_some _ _ _ _ _ _ Hm).
  rewrite replaceAllFrom_skip_all.
  - now rewrite append_nil_r.
  - rewrite !length_append. simpl. lia.
Qed.

(** The passes on an emphasis element. *)
Lemma tagged_pass (m : Matcher) (left right : string) :
  (left = "<em>" /\ right = "</em>")
  \/ (left = "<strong>" /\ right = "</strong>")
  \/ (left = "<strong><em>" /\ right = "</em></strong>") ->
  quietOnPlain m ->
  (forall p x r,
     In x ["<"; "/"; ">"; "e"; "m"; "s"; "t"; "r"; "o"; "n"; "g"]%char ->
     atLineStart p = false \/ p = None ->
     m p (String x r) = None) ->
  replaceAll m (left ++ w ++ right) = left ++ w ++ right.
Proof.
  intros Hs Hq Hx.
  apply replaceAll_unchanged; [exact Hq | apply plain_run | | | ].
  - destruct Hs as [[-> ->] | [[-> ->] | [-> ->]]]; cbn [neverMatchesIn append];
      repeat (split; [apply Hx; [simpl; tauto | first [right; reflexivity | left; reflexivity]] |]);
      exact I.
  - destruct Hs as [[-> ->] | [[-> ->] | [-> ->]]]; reflexivity.
  - intros q Hq0.
    destruct Hs as [[-> ->] | [[-> ->] | [-> ->]]]; cbn [neverMatchesIn append];
      repeat (split; [apply Hx; [simpl; tauto | left; first [exact Hq0 | reflexivity]] |]);
      exact I.
Qed.

Lemma emphasis_run (stars left right : string) :
  (stars = "*" /\ left = "<em>" /\ right = "</em>")
  \/ (stars = "**" /\ left = "<strong>" /\ right = "</strong>")
  \/ (stars = "***" /\ left = "<strong><em>" /\ right = "</em></strong>") ->
  markdownToHtml (stars ++ w ++ stars) = "<p>" ++ (left ++ w ++ right) ++ "</p>".
Proof.
  intros Hcase.
  assert (Hs : stars = "*" \/ stars = "**" \/ stars = "***") by tauto.
  assert (Ht : (left = "<em>" /\ right = "</em>")
               \/ (left = "<strong>" /\ right = "</strong>")
               \/ (left = "<strong><em>" /\ right = "</em></strong>")) by tauto.
  destruct (plain_char c plain_c) as (Ec1 & Ec2 & _ & _ & Eh & _).
  unfold markdownToHtml.
  rewrite !(starred_pass (heading _ _) stars Hs)
    by (first [ apply heading_quiet
              | intros; unfold heading;
                match goal with
                | |- context [atLineStart ?p] => destruct (atLineStart p)
                end; reflexivity ]).
  assert (Hstars :
            replaceAll (delimited false "*" "*" "<em>" "</em>")
              (replaceAll (delimited false "**" "**" "<strong>" "</strong>")
                 (replaceAll
                    (delimited false "***" "***" "<strong><em>" "</em></strong>")
                    (stars ++ w ++ stars)))
            = left ++ w ++ right).
  { assert (Hin : forall (x : ascii) (P : Prop),
               In x ["<"; "/"; ">"; "e"; "m"; "s"; "t"; "r"; "o"; "n"; "g"]%char ->
               (x <> "*"%char -> P) -> P).
    { intros x P Hx HP. apply HP. intros ->. simpl in Hx.
      repeat (destruct Hx as [Hx | Hx]; [discriminate Hx |]). contradiction. }
    assert (Hquiet : forall st l r,
               forall p x s,
                 In x ["<"; "/"; ">"; "e"; "m"; "s"; "t"; "r"; "o"; "n"; "g"]%char ->
                 atLineStart p = false \/ p = None ->
                 delimited false (String "*" st) (String "*" st) l r p (String x s) = None).
    { intros st l r p x s Hx _. unfold delimited. cbn [startsWith].
      apply (Hin x _ Hx). intros Hne.
      assert (E : Ascii.eqb "*" x = false) by (apply Ascii.eqb_neq; congruence).
      now rewrite E. }
    assert (Hmiss : forall st l r pre,
               (st = "*" /\ pre = "*") \/ (st = "**" /\ (pre = "*" \/ pre = "**")) ->
               replaceAll (delimited false (String "*" st) (String "*" st) l r)
                 (pre ++ w ++ pre)
               = pre ++ w ++ pre).
    { intros st l r pre Hpre.
      apply replaceAll_unchanged;
        [ apply delimited_star_quiet | apply plain_run | | | intros q _ ];
        destruct Hpre as [[-> ->] | [-> [-> | ->]]]; first [reflexivity | starred]. }
    destruct Hcase as [(-> & -> & ->) | [(-> & -> & ->) | (-> & -> & ->)]].
    - rewrite !Hmiss by tauto. apply starred_hit. tauto.
    - rewrite Hmiss by tauto. rewrite starred_hit by tauto.
      apply tagged_pass; [tauto | apply delimited_star_quiet | apply Hquiet].
    - rewrite starred_hit by tauto.
      rewrite (tagged_pass (delimited false "**" "**" _ _));
        [| tauto | apply delimited_star_quiet | apply Hquiet ].
      apply tagged_pass; [tauto | apply delimited_star_quiet | apply Hquiet]. }
  rewrite Hstars.
  rewrite (tagged_pass (delimited true _ _ _ _) left right Ht)
    by (first [ apply delimited_tick_quiet
              | intros p x r Hx _; simpl in Hx;
                repeat (destruct Hx as [<- | Hx]; [reflexivity |]); contradiction ]).
  rewrite (tagged_pass inlineCode left right Ht)
    by (first [ apply inlineCode_quiet
              | intros p x r Hx _; simpl in Hx;
                repeat (destruct Hx as [<- | Hx]; [reflexivity |]); contradiction ]).
  rewrite (tagged_pass link left right Ht)
    by (first [ apply link_quiet
              | intros p x r Hx _; simpl in Hx;
                repeat (destruct Hx as [<- | Hx]; [reflexivity |]); contradiction ]).
  rewrite (tagged_pass listItem left right Ht)
    by (first [ apply listItem_quiet
              | intros p x r Hx [Hp | ->]; [unfold listItem; now rewrite Hp |];
                simpl in Hx;
                repeat (destruct Hx as [<- | Hx]; [reflexivity |]); contradiction ]).
  change (nl ++ nl) with (String LF (String LF EmptyString)).
  change nl with (String LF EmptyString).
  rewrite !(tagged_pass (literal (String LF _) _) left right Ht)
    by (first [ apply literal_nl_quiet
              | intros p x r Hx _; simpl in Hx;
                repeat (destruct Hx as [<- | Hx]; [reflexivity |]); contradiction ]).
  replace ("<p>" ++ (left ++ w ++ right) ++ "</p>")
    with (("<p>" ++ left) ++ w ++ (right ++ "</p>"))
    by (now rewrite !append_assoc).
  apply replaceAll_unchanged.
  - apply listRun_quiet.
  - apply plain_run.
  - destruct Ht as [[-> ->] | [[-> ->] | [-> ->]]]; never plain_c.
  - destruct Ht as [[-> ->] | [[-> ->] | [-> ->]]]; reflexivity.
  - intros q Hq. destruct Ht as [[-> ->] | [[-> ->] | [-> ->]]]; never Hq.
Qed.

End Emphasis.

(** X24.  Text of letters, digits and blanks between two single, double
    or triple asterisks becomes an [em] element, a [strong] element, or
    an [em] inside a [strong], inside the wrapping paragraph; with no
    text between them, two asterisks alone become an empty [em]
    element. *)
Theorem markdownToHtml_emphasis (w : string) :
  allChars isPlain w = true ->
  markdownToHtml ("*" ++ w ++ "*") = "<p><em>" ++ w ++ "</em></p>"
  /\ markdownToHtml ("**" ++ w ++ "**") = "<p><strong>" ++ w ++ "</strong></p>"
  /\ markdownToHtml ("***" ++ w ++ "***")
     = "<p><strong><em>" ++ w ++ "</em></strong></p>".
Proof.
  intros Hw. destruct w as [| c w'].
  - vm_compute. repeat split.
  - simpl in Hw. apply andb_true_iff in Hw. destruct Hw as [Hc Hw'].
    split; [| split].
    + rewrite (emphasis_run c w' Hc Hw' "*" "<em>" "</em>") by tauto.
      cbn [append]. now rewrite !append_assoc.
    + rewrite (emphasis_run c w' Hc Hw' "**" "<strong>" "</strong>") by tauto.
      cbn [append]. now rewrite !append_assoc.
    + rewrite (emphasis_run c w' Hc Hw' "***" "<strong><em>" "</em></strong>") by tauto.
      cbn [append]. now rewrite !append_assoc.
Qed.

Lemma markdownToHtml_emphasis_witness :
  markdownToHtml "**very important**" = "<p><strong>very important</strong></p>".
Proof.
  apply (proj1 (proj2 (markdownToHtml_emphasis "very important" eq_refl))).
Defined.

(* ================================================================= *)
(** ** The images of a DOCX archive *)

Lemma endsWith_inv (s p : string) :
  endsWith s p = true -> exists stem, s = stem ++ p.
Proof.
  induction s as [| c r IH]; cbn [endsWith]; intros H.
  - rewrite orb_false_r in H. apply String.eqb_eq in H. subst p.
    now exists EmptyString.
  - apply orb_true_iff in H. destruct H as [H | H].
    + apply String.eqb_eq in H. subst p. now exists EmptyString.
    + destruct (IH H) as (stem & ->). now exists (String c stem).
Qed.

Lemma toLowerCase_app_inv (a b : string) :
  forall s, toLowerCase s = a ++ b ->
    exists a' b', s = a' ++ b' /\ toLowerCase a' = a /\ toLowerCase b' = b.
Proof.
  induction a as [| x a IH]; intros s H.
  - exists EmptyString, s. now repeat split.
  - destruct s as [| c r]; [discriminate H |].
    cbn [toLowerCase append] in H. injection H as Hc Hr.
    destruct (IH r Hr) as (a' & b' & -> & Ha & Hb).
    exists (String c a'), b'. cbn [toLowerCase append]. now rewrite Hc, Ha.
Qed.

Lemma lowerChar_dot (c : ascii) : lowerChar c = "."%char -> c = "."%char.
Proof.
  destruct c as [b0 b1 b2 b3 b4 b5 b6 b7].
  destruct b0, b1, b2, b3, b4, b5, b6, b7; intros H;
    first [ reflexivity | discriminate H ].
Qed.

Lemma noDot_lower (s : string) : noDot (toLowerCase s) = true -> noDot s = true.
Proof.
  induction s as [| c r IH]; [reflexivity |].
  cbn [toLowerCase noDot]. intros H. apply andb_true_iff in H. destruct H as [Hc Hr].
  rewrite (IH Hr), andb_true_r.
  destruct (Ascii.eqb c ".") eqn:E; [| reflexivity].
  apply Ascii.eqb_eq in E. subst c. discriminate Hc.
Qed.

(** A path that ends, in any letter case, with a dot and a name without
    dot has that name, up to letter case, as its last dot segment. *)
Lemma last_segment_of_extension (path e : string) :
  noDot e = true ->
  endsWith (toLowerCase path) ("." ++ e) = true ->
  exists seg, pop (split "." path) = Some seg /\ toLowerCase seg = e.
Proof.
  intros He H. apply endsWith_inv in H. destruct H as (stem & H).
  apply toLowerCase_app_inv in H. destruct H as (a' & b' & -> & _ & Hb).
  destruct b' as [| d seg]; [discriminate Hb |].
  cbn [toLowerCase append] in Hb. injection Hb as Hd Hseg.
  apply lowerChar_dot in Hd. subst d.
  exists seg. split; [| exact Hseg].
  assert (Hn : noDot seg = true) by (apply noDot_lower; now rewrite Hseg).
  destruct (split_last_segment a' seg Hn) as (f1 & f2 & r & Hs & Hp).
  change (a' ++ String "." seg) with (a' ++ "." ++ seg). now rewrite Hs.
Qed.

(** X25.  Every entry of the map that [extractImages] returns belongs to
    a file of the archive under [word/media/] whose content decoded to
    base64, and its value is a data URL of that content whose media type
    is one of [image/png], [image/jpeg], [image/gif] and [image/webp]: the
    extension is read in lower case and [jpg] is written [jpeg]. *)
Theorem extractImages_entries (zip : JSZip) (path url : string) :
  In (path, url) (extractImages zip) ->
  startsWith "word/media/" path = true
  /\ exists entry data mime,
       zipFile path zip = Some entry
       /\ asBase64 entry = Ok data
       /\ In mime ["png"; "jpeg"; "gif"; "webp"]
       /\ url = "data:image/" ++ mime ++ ";base64," ++ data.
Proof.
  unfold extractImages. intros H. apply in_flat_map in H.
  destruct H as (imagePath & Hin & H). apply filter_In in Hin.
  destruct Hin as [_ Hok]. apply andb_true_iff in Hok. destruct Hok as [Hmedia Hext].
  destruct (zipFile imagePath zip) as [entry |] eqn:Ez; [| contradiction].
  destruct (asBase64 entry) as [data | msg] eqn:Ed; [| contradiction].
  destruct H as [H | []]. injection H as <- <-.
  split; [exact Hmedia |]. exists entry, data.
  assert (Hseg : exists seg e,
             pop (split "." imagePath) = Some seg /\ toLowerCase seg = e
             /\ In e ["png"; "jpg"; "jpeg"; "gif"; "webp"]).
  { unfold hasRasterExtension in Hext.
    repeat (apply orb_true_iff in Hext; destruct Hext as [Hext | Hext]);
      match type of Hext with
      | endsWith _ (String "." ?e) = true =>
          destruct (last_segment_of_extension imagePath e eq_refl Hext)
            as (seg & Hp & Hl);
          exists seg, e; split; [exact Hp |]; split; [exact Hl |]; simpl; tauto
      end. }
  destruct Hseg as (seg & e & Hp & Hl & He). rewrite Hp, Hl.
  simpl in He.
  destruct He as [<- | [<- | [<- | [<- | [<- | []]]]]]; cbn [String.eqb Ascii.eqb Bool.eqb];
    eexists; (split; [exact Ez |]); (split; [exact Ed |]);
    (split; [| reflexivity]); simpl; tauto.
Qed.

Lemma extractImages_entries_witness :
  let zip := [("word/document.xml", mkZipObject (Ok "<p></p>") (Ok "PHA+PC9wPg=="));
              ("word/media/Photo.1.JPG", mkZipObject (Ok "jpg") (Ok "anBn"))] in
  extractImages zip = [("word/media/Photo.1.JPG", "data:image/jpeg;base64,anBn")]
  /\ startsWith "word/media/" "word/media/Photo.1.JPG" = true.
Proof.
  intros zip. split; [reflexivity |].
  exact (proj1 (extractImages_entries zip "word/media/Photo.1.JPG"
                  "data:image/jpeg;base64,anBn" (or_introl eq_refl))).
Defined.

(* ================================================================= *)
(** ** Lines and paragraphs *)

Lemma replaceAll_quiet_on (P : ascii -> bool) (m : Matcher) (s : string) :
  (forall p c r, allChars P (String c r) = true -> m p (String c r) = None) ->
  allChars P s = true ->
  replaceAll m s = s.
Proof.
  intros Hm Hs. unfold replaceAll. generalize (@None ascii) as p.
  induction s as [| c r IH]; intros p; [reflexivity |].
  cbn [replaceAllFrom]. rewrite (Hm p c r Hs).
  simpl in Hs. apply andb_true_iff in Hs. now rewrite IH.
Qed.

Lemma textual_char (c : ascii) :
  isTextual c = true -> isPlain c = true \/ c = LF.
Proof.
  unfold isTextual. intros H. apply orb_true_iff in H. destruct H as [H | H].
  - now left.
  - right. now apply Ascii.eqb_eq.
Qed.

Lemma textual_head (c : ascii) (r : string) :
  allChars isTextual (String c r) = true -> isPlain c = true \/ c = LF.
Proof.
  simpl. intros H. apply andb_true_iff in H. now apply textual_char.
Qed.

Lemma listItem_textual (p : option ascii) (s : string) :
  allChars isTextual s = true -> listItem p s = None.
Proof.
  intros Hs. unfold listItem. destruct (atLineStart p); [| reflexivity].
  pose proof (allChars_dropChars isTextual (String.length (spanWhile isSpace s)) s Hs)
    as Hd.
  destruct (dropChars (String.length (spanWhile isSpace s)) s) as [| c1 r1];
    [reflexivity |].
  destruct (textual_head c1 r1 Hd) as [Hc1 | ->]; [| reflexivity].
  destruct (plain_char c1 Hc1) as (-> & _).
  destruct (plain_char_more c1 Hc1) as (-> & _). reflexivity.
Qed.

(** The first ten replacements leave text without marks unchanged. *)
Lemma marks_pass (m : Matcher) (s : string) :
  (forall p c r, isPlain c = true -> m p (String c r) = None) ->
  (forall p r, m p (String LF r) = None) ->
  allChars isTextual s = true ->
  replaceAll m s = s.
Proof.
  intros Hplain Hlf Hs. apply (replaceAll_quiet_on isTextual); [| exact Hs].
  intros p c r H. destruct (textual_head c r H) as [Hc | ->].
  - now apply Hplain.
  - apply Hlf.
Qed.

Lemma substChar_break_fixed :
  substChar LF "<br>" "</p><p>" = "</p><p>".
Proof. reflexivity. Qed.

(** The two replacements of line feeds, on text without marks. *)
Lemma breaks_passes (n : nat) :
  forall s p,
    (String.length s <= n)%nat ->
    allChars isTextual s = true ->
    substChar LF "<br>"
      (replaceAllFrom (literal (String LF (String LF EmptyString)) "</p><p>") p 0 s)
    = breaks s.
Proof.
  induction n as [| n IH]; intros s p Hlen Hs.
  - destruct s; [reflexivity | simpl in Hlen; lia].
  - destruct s as [| c r]; [reflexivity |].
    simpl in Hlen.
    assert (Hr : allChars isTextual r = true).
    { simpl in Hs. now apply andb_true_iff in Hs. }
    cbn [replaceAllFrom breaks]. unfold literal at 1. cbn [startsWith String.length].
    destruct (textual_head c r Hs) as [Hc | ->].
    + destruct (plain_char c Hc) as (_ & _ & _ & _ & _ & _ & _ & _ & E & _).
      destruct (plain_char_more c Hc) as (_ & _ & _ & _ & _ & E' & _).
      rewrite E, E'. cbn [andb substChar append]. rewrite E.
      cbn [append]. f_equal. apply IH; [lia | exact Hr].
    + rewrite Ascii.eqb_refl. cbn [andb].
      destruct r as [| c2 r2].
      * reflexivity.
      * cbn [startsWith]. rewrite andb_true_r.
        rewrite (Ascii.eqb_sym c2 LF).
        destruct (Ascii.eqb LF c2) eqn:E2.
        -- cbn [Nat.pred replaceAllFrom]. rewrite substChar_app, substChar_break_fixed.
           f_equal. apply IH; [simpl in Hlen; lia |].
           simpl in Hr. now apply andb_true_iff in Hr.
        -- cbn [substChar append]. rewrite Ascii.eqb_refl. cbn [append].
           do 4 f_equal. apply IH; [lia | exact Hr].
Qed.

Lemma listRun_needs_item (s : string) :
  occurs "<li>" s = false -> forall p, replaceAllFrom listRun p 0 s = s.
Proof.
  induction s as [| c r IH]; intros H p; [reflexivity |].
  cbn [occurs] in H. apply orb_false_iff in H. destruct H as [H1 H2].
  cbn [replaceAllFrom]. unfold listRun at 1, liGroup. rewrite H1.
  now rewrite IH.
Qed.

Lemma breaks_no_item (n : nat) :
  forall s,
    (String.length s <= n)%nat ->
    allChars isTextual s = true ->
    occurs "<li>" (breaks s ++ "</p>") = false.
Proof.
  induction n as [| n IH]; intros s Hlen Hs.
  - destruct s; [reflexivity | simpl in Hlen; lia].
  - destruct s as [| c r]; [reflexivity |].
    simpl in Hlen.
    assert (Hr : allChars isTextual r = true).
    { simpl in Hs. now apply andb_true_iff in Hs. }
    cbn [breaks].
    destruct (textual_head c r Hs) as [Hc | ->].
    + destruct (plain_char_more c Hc) as (_ & _ & _ & _ & _ & E' & _).
      destruct (plain_char c Hc) as (_ & _ & _ & _ & _ & _ & El & _).
      rewrite E'. cbn [append occurs startsWith]. rewrite El. cbn [andb orb].
      apply IH; [lia | exact Hr].
    + rewrite Ascii.eqb_refl. destruct r as [| c2 r2]; [reflexivity |].
      destruct (Ascii.eqb c2 LF).
      * cbn [append occurs startsWith Ascii.eqb Bool.eqb andb orb].
        apply IH; [simpl in Hlen; lia |].
        simpl in Hr. now apply andb_true_iff in Hr.
      * cbn [append occurs startsWith Ascii.eqb Bool.eqb andb orb].
        apply IH; [lia | exact Hr].
Qed.

(** X26.  On text of letters, digits, blanks and line feeds the first
    ten replacements of [markdownToHtml] change nothing, two line feeds
    in a row become the end of a paragraph and the begin of the next,
    every other line feed becomes a line break, and the whole is wrapped
    in one paragraph element. *)
Theorem markdownToHtml_breaks (s : string) :
  allChars isTextual s = true ->
  markdownToHtml s = "<p>" ++ breaks s ++ "</p>".
Proof.
  intros Hs. unfold markdownToHtml.
  rewrite !(marks_pass (heading _ _) s)
    by (first [ exact Hs
              | intros p c r Hc; apply heading_plain; [reflexivity | exact Hc]
              | intros p r; unfold heading; destruct (atLineStart p); reflexivity ]).
  rewrite !(marks_pass (delimited false _ _ _ _) s)
    by (first [ exact Hs
              | intros p c r Hc;
                exact (delimited_star_quiet false _ _ _ _ c r (Some " "%char) Hc eq_refl)
              | intros p r; reflexivity ]).
  rewrite (marks_pass (delimited true _ _ _ _) s)
    by (first [ exact Hs
              | intros p c r Hc;
                exact (delimited_tick_quiet true _ _ _ _ c r (Some " "%char) Hc eq_refl)
              | intros p r; reflexivity ]).
  rewrite (marks_pass inlineCode s)
    by (first [ exact Hs
              | intros p c r Hc; exact (inlineCode_quiet c r (Some " "%char) Hc eq_refl)
              | intros p r; reflexivity ]).
  rewrite (marks_pass link s)
    by (first [ exact Hs
              | intros p c r Hc; exact (link_quiet c r (Some " "%char) Hc eq_refl)
              | intros p r; reflexivity ]).
  rewrite (replaceAll_quiet_on isTextual listItem s)
    by (first [ exact Hs | intros p c r H; now apply listItem_textual ]).
  change (nl ++ nl) with (String LF (String LF EmptyString)).
  change nl with (String LF EmptyString).
  unfold replaceAll at 2. rewrite replaceAll_literal_char.
  unfold replaceAll at 2.
  rewrite (breaks_passes (String.length s) s None (le_n _) Hs).
  unfold replaceAll. cbn [append replaceAllFrom].
  assert (E : listRun None (String "<" (String "p" (String ">" (breaks s ++ "</p>"))))
              = None) by reflexivity.
  rewrite E.
  assert (E1 : forall q, listRun q (String "p" (String ">" (breaks s ++ "</p>"))) = None)
    by reflexivity.
  rewrite E1.
  assert (E2 : forall q, listRun q (String ">" (breaks s ++ "</p>")) = None)
    by reflexivity.
  rewrite E2.
  now rewrite (listRun_needs_item _ (breaks_no_item (String.length s) s (le_n _) Hs)).
Qed.

Lemma markdownToHtml_breaks_witness :
  markdownToHtml "Dear reader
this is line 2

Regards" = "<p>Dear reader<br>this is line 2</p><p>Regards</p>".
Proof.
  apply (markdownToHtml_breaks "Dear reader
this is line 2

Regards").
  reflexivity.
Defined.

(* ================================================================= *)
(** ** List items *)

Lemma replaceAll_unchanged_end (m : Matcher) (pre w : string) :
  quietOnPlain m ->
  allChars isPlain w = true ->
  neverMatchesIn m None pre w ->
  atLineStart (lastOr None pre) = false ->
  replaceAll m (pre ++ w) = pre ++ w.
Proof.
  intros Hq Hw Hpre Hlast.
  rewrite <- (append_nil_r w).
  apply replaceAll_unchanged; try assumption.
  - now rewrite append_nil_r.
  - intros q _. exact I.
Qed.

Lemma lazyUntil_line (close' w rest : string) :
  allChars isPlain w = true ->
  lazyUntil false (String "<" close') (w ++ rest)
  = option_map (append w) (lazyUntil false (String "<" close') rest).
Proof.
  induction w as [| c w IH]; intros Hw.
  - cbn [append]. now destruct (lazyUntil false (String "<" close') rest).
  - simpl in Hw. apply andb_true_iff in Hw. destruct Hw as [Hc Hw].
    cbn [append lazyUntil startsWith].
    destruct (plain_char c Hc) as (_ & _ & _ & _ & _ & _ & -> & _ & _ & ->).
    cbn [andb negb]. rewrite (IH Hw).
    now destruct (lazyUntil false (String "<" close') rest).
Qed.

Lemma nonblank_plain (c : ascii) :
  isPlain c = true -> Ascii.eqb c " " = false -> isSpace c = false.
Proof.
  destruct c as [b0 b1 b2 b3 b4 b5 b6 b7].
  destruct b0, b1, b2, b3, b4, b5, b6, b7; intros H1 H2;
    first [ discriminate H1 | discriminate H2 | reflexivity ].
Qed.

(** The list-item expression at a dash, a blank and plain text that does
    not begin with a blank. *)
Lemma listItem_dash (w : string) :
  allChars isPlain w = true -> spanWhile isSpace w = EmptyString ->
  listItem None (String "-" (String " " w))
  = Some (S (S (String.length w)), "<li>" ++ w ++ "</li>").
Proof.
  intros Hw Hsp. unfold listItem. cbn [atLineStart spanWhile].
  change (isSpace "-") with false. cbv iota.
  cbn [String.length dropChars]. cbn [Ascii.eqb Bool.eqb orb andb].
  cbv iota.
  assert (E : spanWhile isSpace (String " " w) = " ").
  { cbn [spanWhile]. change (isSpace " ") with true. cbv iota. now rewrite Hsp. }
  rewrite !E. cbn [String.eqb Ascii.eqb Bool.eqb negb String.length dropChars].
  rewrite (restOfLine_plain w Hw). reflexivity.
Qed.

Lemma replaceAllFrom_skip_over (m : Matcher) (s : string) :
  forall p k rest,
    replaceAllFrom m p (String.length s + k) (s ++ rest)
    = replaceAllFrom m (lastOr p s) k rest.
Proof.
  induction s as [| x s IH]; intros p k rest; [reflexivity |].
  cbn [String.length append Nat.add replaceAllFrom lastOr]. apply IH.
Qed.

(** A match of the whole of [s] at its first code unit. *)
Lemma replaceAllFrom_hit (m : Matcher) (s rest : string) (p : option ascii)
    (out : string) :
  m p (s ++ rest) = Some (String.length s, out) ->
  s <> EmptyString ->
  replaceAllFrom m p 0 (s ++ rest) = out ++ replaceAllFrom m (lastOr p s) 0 rest.
Proof.
  intros Hm Hne. destruct s as [| x s']; [contradiction |].
  cbn [append] in *. cbn [replaceAllFrom]. rewrite Hm.
  cbn [String.length Nat.pred lastOr].
  rewrite <- (Nat.add_0_r (String.length s')). now rewrite replaceAllFrom_skip_over.
Qed.

Section ListItem.

Variable c : ascii.
Variable w' : string.
Hypothesis plain_c : isPlain c = true.
Hypothesis nonblank_c : Ascii.eqb c " " = false.
Hypothesis plain_w' : allChars isPlain w' = true.

Let w := String c w'.

Lemma plain_item : allChars isPlain w = true.
Proof. unfold w. simpl. now rewrite plain_c, plain_w'. Qed.

(** The passes before the list-item expression. *)
Lemma dash_pass (m : Matcher) :
  quietOnPlain m ->
  m None (String "-" (String " " w)) = None ->
  (forall r, m (Some "-"%char) (String " " r) = None) ->
  replaceAll m ("- " ++ w) = "- " ++ w.
Proof.
  intros Hq H0 H1. apply replaceAll_unchanged_end.
  - exact Hq.
  - apply plain_item.
  - cbn [neverMatchesIn append]. split; [exact H0 |]. split; [apply H1 | exact I].
  - reflexivity.
Qed.

Lemma listItem_hit :
  replaceAll listItem ("- " ++ w) = "<li>" ++ w ++ "</li>".
Proof.
  assert (Hsp : spanWhile isSpace w = EmptyString).
  { unfold w. cbn [spanWhile]. now rewrite (nonblank_plain c plain_c nonblank_c). }
  pose proof (listItem_dash w plain_item Hsp) as Hm.
  unfold replaceAll. change ("- " ++ w) with (String "-" (String " " w)).
  rewrite (replaceAllFrom_some _ _ _ _ _ _ Hm).
  rewrite replaceAllFrom_skip_all by (simpl; lia).
  now rewrite !append_assoc, append_nil_r.
Qed.

(** The list-wrapping expression on one item inside the paragraph. *)
Lemma listRun_hit :
  replaceAll listRun ("<p>" ++ ("<li>" ++ w ++ "</li>") ++ "</p>")
  = "<p><ul><li>" ++ w ++ "</li></ul></p>".
Proof.
  set (item := "<li>" ++ w ++ "</li>").
  assert (Hlen : String.length item = (4 + String.length w + 5)%nat).
  { unfold item. cbn [append String.length]. rewrite length_append. simpl. lia. }
  assert (Hbody : lazyUntil false "</li>" (dropChars 4 (item ++ "</p>")) = Some w).
  { unfold item. cbn [append dropChars].
    rewrite append_assoc, (lazyUntil_line _ w _ plain_item).
    change (lazyUntil false "</li>" ("</li>" ++ "</p>")) with (Some EmptyString).
    cbn [option_map]. now rewrite append_nil_r. }
  assert (Hgroup : liGroup (item ++ "</p>") = Some (String.length item)).
  { unfold liGroup.
    replace (startsWith "<li>" (item ++ "</p>")) with true by reflexivity.
    rewrite Hbody. replace (4 + String.length w + 5)%nat with (String.length item).
    rewrite dropChars_app. cbn [spanWhile]. change (isSpace "<") with false.
    cbv iota. cbn [String.length]. now rewrite Nat.add_0_r. }
  assert (Hgroups : liGroups (String.length (item ++ "</p>")) (item ++ "</p>")
                    = String.length item).
  { rewrite length_append. cbn [String.length].
    replace (String.length item + 4)%nat with (S (String.length item + 3)) by lia.
    cbn [liGroups]. rewrite Hgroup, dropChars_app.
    destruct (String.length item + 3)%nat; cbn [liGroups]; [lia |].
    change (liGroup "</p>") with (@None nat). cbv iota. lia. }
  assert (Hm : forall p, listRun p (item ++ "</p>")
                         = Some (String.length item, "<ul>" ++ item ++ "</ul>")).
  { intros p. unfold listRun. rewrite Hgroup, Hgroups, takeChars_app. reflexivity. }
  unfold replaceAll.
  rewrite (replaceAllFrom_pass listRun "<p>" None (item ++ "</p>"))
    by (cbn [neverMatchesIn append]; repeat split; reflexivity).
  rewrite (replaceAllFrom_hit listRun item "</p>" _ _ (Hm _))
    by (unfold item; discriminate).
  rewrite listRun_needs_item by reflexivity.
  unfold item. repeat (progress (cbn [append]; rewrite ?append_assoc)). reflexivity.
Qed.

Lemma dash_item :
  markdownToHtml ("- " ++ w) = "<p><ul><li>" ++ w ++ "</li></ul></p>".
Proof.
  unfold markdownToHtml.
  rewrite !(dash_pass (heading _ _))
    by (first [ reflexivity | intros; reflexivity | apply heading_quiet ]).
  rewrite !(dash_pass (delimited false _ _ _ _))
    by (first [ reflexivity | intros; reflexivity | apply delimited_star_quiet ]).
  rewrite (dash_pass (delimited true _ _ _ _))
    by (first [ reflexivity | intros; reflexivity | apply delimited_tick_quiet ]).
  rewrite (dash_pass inlineCode)
    by (first [ reflexivity | intros; reflexivity | apply inlineCode_quiet ]).
  rewrite (dash_pass link)
    by (first [ reflexivity | intros; reflexivity | apply link_quiet ]).
  rewrite listItem_hit.
  change (nl ++ nl) with (String LF (String LF EmptyString)).
  change nl with (String LF EmptyString).
  assert (Hbreak : forall pat' out,
             replaceAll (literal (String LF pat') out) ("<li>" ++ w ++ "</li>")
             = "<li>" ++ w ++ "</li>").
  { intros pat' out. apply replaceAll_unchanged.
    - apply literal_nl_quiet.
    - apply plain_item.
    - never plain_c.
    - reflexivity.
    - intros q Hq. never Hq. }
  rewrite !Hbreak. apply listRun_hit.
Qed.

End ListItem.

(** X27.  A line that consists of a dash, a blank and text of letters,
    digits and blanks that does not begin with a blank becomes a list
    item, and the item is wrapped in a list inside the paragraph that
    wraps the whole output. *)
Theorem markdownToHtml_list_item (w : string) :
  allChars isPlain w = true -> startsWith " " w = false ->
  markdownToHtml ("- " ++ w) = "<p><ul><li>" ++ w ++ "</li></ul></p>".
Proof.
  intros Hw Hb. destruct w as [| c w'].
  - vm_compute. reflexivity.
  - simpl in Hw. apply andb_true_iff in Hw. destruct Hw as [Hc Hw'].
    cbn [startsWith] in Hb. rewrite andb_true_r in Hb.
    apply (dash_item c w' Hc); [| exact Hw'].
    now rewrite Ascii.eqb_sym.
Qed.

Lemma markdownToHtml_list_item_witness :
  markdownToHtml "- buy milk" = "<p><ul><li>buy milk</li></ul></p>".
Proof.
  apply (markdownToHtml_list_item "buy milk"); reflexivity.
Defined.

(* ================================================================= *)
(** ** Two list items *)

Lemma restOfLine_until (w r : string) :
  allChars isPlain w = true -> restOfLine (w ++ String LF r) = w.
Proof.
  intros Hw. apply spanWhile_until; [| reflexivity].
  apply (allChars_impl isPlain); [| exact Hw].
  intros x Hx. now destruct (plain_char x Hx) as (_ & _ & _ & _ & _ & _ & _ & _ & _ & ->).
Qed.

(** The list-item expression at the start of a line that holds a dash, a
    blank and plain text up to the end of the line. *)
Lemma listItem_line (w rest : string) (p : option ascii) :
  allChars isPlain w = true -> spanWhile isSpace w = EmptyString ->
  w <> EmptyString ->
  atLineStart p = true ->
  rest = EmptyString \/ (exists r, rest = String LF r) ->
  listItem p (("- " ++ w) ++ rest)
  = Some (String.length ("- " ++ w), "<li>" ++ w ++ "</li>").
Proof.
  intros Hw Hsp Hne Hp Hrest. unfold listItem. rewrite Hp.
  change (("- " ++ w) ++ rest) with (String "-" (String " " (w ++ rest))).
  cbn [spanWhile]. change (isSpace "-") with false. cbv iota.
  cbn [String.length dropChars]. cbn [Ascii.eqb Bool.eqb orb andb]. cbv iota.
  assert (E : spanWhile isSpace (String " " (w ++ rest)) = " ").
  { cbn [spanWhile]. change (isSpace " ") with true. cbv iota.
    destruct w as [| x w']; [contradiction |].
    cbn [append spanWhile] in *. destruct (isSpace x); [discriminate Hsp | reflexivity]. }
  rewrite !E. cbn [String.eqb Ascii.eqb Bool.eqb negb String.length dropChars].
  assert (Er : restOfLine (w ++ rest) = w).
  { destruct Hrest as [-> | (r & ->)].
    - rewrite append_nil_r. now apply restOfLine_plain.
    - now apply restOfLine_until. }
  rewrite Er. cbn [append String.length Nat.add]. reflexivity.
Qed.

(** The list-wrapping expression at an item that is followed by
    something else than an item or white space. *)
Lemma listRun_item (w r : string) (p : option ascii) :
  allChars isPlain w = true ->
  startsWith "<li>" (String "<" r) = false ->
  listRun p (("<li>" ++ w ++ "</li>") ++ String "<" r)
  = Some (String.length ("<li>" ++ w ++ "</li>"),
          "<ul>" ++ ("<li>" ++ w ++ "</li>") ++ "</ul>").
Proof.
  intros Hw Hr.
  set (item := "<li>" ++ w ++ "</li>"). set (rest := String "<" r).
  assert (Hlen : String.length item = (4 + String.length w + 5)%nat).
  { unfold item. cbn [append String.length]. rewrite length_append. simpl. lia. }
  assert (Hbody : lazyUntil false "</li>" (dropChars 4 (item ++ rest)) = Some w).
  { unfold item. cbn [append dropChars].
    rewrite append_assoc, (lazyUntil_line _ w _ Hw).
    change (lazyUntil false "</li>" ("</li>" ++ rest)) with (Some EmptyString).
    cbn [option_map]. now rewrite append_nil_r. }
  assert (Hgroup : liGroup (item ++ rest) = Some (String.length item)).
  { unfold liGroup.
    replace (startsWith "<li>" (item ++ rest)) with true by reflexivity.
    rewrite Hbody. replace (4 + String.length w + 5)%nat with (String.length item).
    rewrite dropChars_app. unfold rest. cbn [spanWhile]. change (isSpace "<") with false.
    cbv iota. cbn [String.length]. now rewrite Nat.add_0_r. }
  assert (Hnext : liGroup rest = None).
  { unfold liGroup, rest. now rewrite Hr. }
  assert (Hgroups : liGroups (String.length (item ++ rest)) (item ++ rest)
                    = String.length item).
  { rewrite length_append. unfold rest at 1. cbn [String.length].
    replace (String.length item + S (String.length r))%nat
      with (S (String.length item + String.length r)) by lia.
    cbn [liGroups]. rewrite Hgroup, dropChars_app.
    destruct (String.length item + String.length r)%nat; cbn [liGroups]; [lia |].
    rewrite Hnext. lia. }
  unfold listRun. rewrite Hgroup, Hgroups, takeChars_app. reflexivity.
Qed.

Lemma substChar_plain (out w : string) :
  allChars isPlain w = true -> substChar LF out w = w.
Proof.
  induction w as [| c r IH]; [reflexivity |].
  cbn [allChars substChar]. intros H. apply andb_true_iff in H. destruct H as [Hc Hr].
  destruct (plain_char c Hc) as (_ & _ & _ & _ & _ & _ & _ & _ & -> & _).
  cbn [append]. now rewrite IH.
Qed.

Section TwoItems.

Variables ca cb : ascii.
Variables a' b' : string.
Hypothesis plain_ca : isPlain ca = true.
Hypothesis plain_cb : isPlain cb = true.
Hypothesis nonblank_ca : Ascii.eqb ca " " = false.
Hypothesis nonblank_cb : Ascii.eqb cb " " = false.
Hypothesis plain_a' : allChars isPlain a' = true.
Hypothesis plain_b' : allChars isPlain b' = true.

Let a := String ca a'.
Let b := String cb b'.
Let second := String LF "- ".

Lemma plain_first : allChars isPlain a = true.
Proof. unfold a. simpl. now rewrite plain_ca, plain_a'. Qed.

Lemma plain_second : allChars isPlain b = true.
Proof. unfold b. simpl. now rewrite plain_cb, plain_b'. Qed.

(** An expression that matches nowhere in the two lines. *)
Lemma two_lines_pass (m : Matcher) (pre mid post : string) :
  quietOnPlain m ->
  neverMatchesIn m None pre (a ++ mid ++ b ++ post) ->
  atLineStart (lastOr None pre) = false ->
  (forall q, atLineStart q = false -> neverMatchesIn m q mid (b ++ post)) ->
  (forall q, atLineStart q = false -> atLineStart (lastOr q mid) = false) ->
  (forall q, atLineStart q = false -> neverMatchesIn m q post EmptyString) ->
  replaceAll m (pre ++ a ++ mid ++ b ++ post) = pre ++ a ++ mid ++ b ++ post.
Proof.
  intros Hq Hpre Hlast Hmid Hlast2 Hpost. unfold replaceAll.
  rewrite (replaceAllFrom_pass m pre None _ Hpre).
  assert (H1 : atLineStart (lastOr (lastOr None pre) a) = false)
    by (apply atLineStart_lastOr; [apply plain_first | exact Hlast]).
  rewrite (replaceAllFrom_pass m a (lastOr None pre) (mid ++ b ++ post))
    by (apply neverMatchesIn_plain; [exact Hq | apply plain_first | exact Hlast]).
  rewrite (replaceAllFrom_pass m mid _ (b ++ post) (Hmid _ H1)).
  pose proof (Hlast2 _ H1) as H2.
  rewrite (replaceAllFrom_pass m b _ post)
    by (apply neverMatchesIn_plain; [exact Hq | apply plain_second | exact H2]).
  rewrite <- (append_nil_r post) at 1.
  rewrite (replaceAllFrom_pass m post _ EmptyString).
  - cbn [replaceAllFrom]. now rewrite append_nil_r.
  - apply Hpost. apply atLineStart_lastOr; [apply plain_second | exact H2].
Qed.

Lemma items_hit :
  replaceAll listItem ("- " ++ a ++ second ++ b ++ EmptyString)
  = "<li>" ++ a ++ ("</li>" ++ nl ++ "<li>") ++ b ++ "</li>".
Proof.
  assert (Hspa : spanWhile isSpace a = EmptyString).
  { unfold a. cbn [spanWhile]. now rewrite (nonblank_plain ca plain_ca nonblank_ca). }
  assert (Hspb : spanWhile isSpace b = EmptyString).
  { unfold b. cbn [spanWhile]. now rewrite (nonblank_plain cb plain_cb nonblank_cb). }
  unfold replaceAll.
  replace ("- " ++ a ++ second ++ b ++ EmptyString)
    with (("- " ++ a) ++ String LF (("- " ++ b) ++ EmptyString))
    by (unfold second; repeat (progress (cbn [append]; rewrite ?append_assoc));
        reflexivity).
  rewrite (replaceAllFrom_hit listItem ("- " ++ a) _ None ("<li>" ++ a ++ "</li>"))
    by (first [ discriminate
              | apply listItem_line;
                [ apply plain_first | exact Hspa | discriminate | reflexivity
                | right; eexists; reflexivity ] ]).
  assert (Hprev : atLineStart (lastOr None ("- " ++ a)) = false).
  { change (lastOr None ("- " ++ a)) with (lastOr (Some " "%char) a).
    apply atLineStart_lastOr; [apply plain_first | reflexivity]. }
  rewrite replaceAllFrom_none by (unfold listItem; now rewrite Hprev).
  rewrite (replaceAllFrom_hit listItem ("- " ++ b) EmptyString (Some LF)
             ("<li>" ++ b ++ "</li>"))
    by (first [ discriminate
              | apply listItem_line;
                [ apply plain_second | exact Hspb | discriminate | reflexivity
                | left; reflexivity ] ]).
  cbn [replaceAllFrom]. rewrite append_nil_r.
  repeat (progress (cbn [append]; rewrite ?append_assoc)). reflexivity.
Qed.

Lemma items_break :
  replaceAll (literal nl "<br>")
    ("<li>" ++ a ++ ("</li>" ++ nl ++ "<li>") ++ b ++ "</li>")
  = "<li>" ++ a ++ "</li><br><li>" ++ b ++ "</li>".
Proof.
  change (literal nl "<br>") with (literal (String LF EmptyString) "<br>").
  unfold replaceAll. rewrite replaceAll_literal_char.
  rewrite !substChar_app.
  rewrite (substChar_plain _ a plain_first), (substChar_plain _ b plain_second).
  reflexivity.
Qed.

Lemma items_wrapped :
  replaceAll listRun ("<p>" ++ ("<li>" ++ a ++ "</li><br><li>" ++ b ++ "</li>") ++ "</p>")
  = "<p><ul><li>" ++ a ++ "</li></ul><br><ul><li>" ++ b ++ "</li></ul></p>".
Proof.
  unfold replaceAll.
  replace ("<p>" ++ ("<li>" ++ a ++ "</li><br><li>" ++ b ++ "</li>") ++ "</p>")
    with ("<p>" ++ ("<li>" ++ a ++ "</li>")
          ++ String "<" ("br>" ++ ("<li>" ++ b ++ "</li>") ++ String "<" "/p>"))
    by (repeat (progress (cbn [append]; rewrite ?append_assoc)); reflexivity).
  rewrite (replaceAllFrom_pass listRun "<p>" None)
    by (cbn [neverMatchesIn append]; repeat split; reflexivity).
  rewrite (replaceAllFrom_hit listRun ("<li>" ++ a ++ "</li>") _ _
             ("<ul>" ++ ("<li>" ++ a ++ "</li>") ++ "</ul>"))
    by (first [ discriminate
              | apply listRun_item; [apply plain_first | reflexivity] ]).
  change (String "<" ("br>" ++ ("<li>" ++ b ++ "</li>") ++ String "<" "/p>"))
    with ("<br>" ++ ("<li>" ++ b ++ "</li>") ++ String "<" "/p>").
  rewrite (replaceAllFrom_pass listRun "<br>")
    by (cbn [neverMatchesIn append]; repeat split; reflexivity).
  rewrite (replaceAllFrom_hit listRun ("<li>" ++ b ++ "</li>") _ _
             ("<ul>" ++ ("<li>" ++ b ++ "</li>") ++ "</ul>"))
    by (first [ discriminate
              | apply listRun_item; [apply plain_second | reflexivity] ]).
  rewrite listRun_needs_item by reflexivity.
  repeat (progress (cbn [append]; rewrite ?append_assoc)). reflexivity.
Qed.

Lemma two_items :
  markdownToHtml ("- " ++ a ++ nl ++ "- " ++ b)
  = "<p><ul><li>" ++ a ++ "</li></ul><br><ul><li>" ++ b ++ "</li></ul></p>".
Proof.
  assert (Hshape : "- " ++ a ++ nl ++ "- " ++ b = "- " ++ a ++ second ++ b ++ EmptyString).
  { unfold second. cbn [append]. now rewrite append_nil_r. }
  unfold markdownToHtml. rewrite Hshape.
  assert (Hmarks : forall m,
             quietOnPlain m ->
             (forall r, m None (String "-" r) = None) ->
             (forall q r, atLineStart q = false -> m q (String " " r) = None) ->
             (forall q r, atLineStart q = false -> m q (String LF r) = None) ->
             (forall r, m (Some LF) (String "-" r) = None) ->
             replaceAll m ("- " ++ a ++ second ++ b ++ EmptyString)
             = "- " ++ a ++ second ++ b ++ EmptyString).
  { intros m Hq H0 Hb Hl Hd. apply two_lines_pass; [exact Hq | | reflexivity | | | ].
    - cbn [neverMatchesIn append]. split; [apply H0 |].
      split; [now apply Hb | exact I].
    - intros q Hq0. unfold second. cbn [neverMatchesIn append].
      split; [now apply Hl |]. split; [apply Hd |]. split; [now apply Hb | exact I].
    - intros q _. reflexivity.
    - intros q _. exact I. }
  rewrite !(Hmarks (heading _ _))
    by (first [ apply heading_quiet | intros; reflexivity
              | intros q r Hq; unfold heading; now rewrite Hq ]).
  rewrite !(Hmarks (delimited false _ _ _ _))
    by (first [ apply delimited_star_quiet | intros; reflexivity ]).
  rewrite (Hmarks (delimited true _ _ _ _))
    by (first [ apply delimited_tick_quiet | intros; reflexivity ]).
  rewrite (Hmarks inlineCode)
    by (first [ apply inlineCode_quiet | intros; reflexivity ]).
  rewrite (Hmarks link)
    by (first [ apply link_quiet | intros; reflexivity ]).
  rewrite items_hit.
  rewrite (two_lines_pass (literal (nl ++ nl) "</p><p>")
             "<li>" ("</li>" ++ nl ++ "<li>") "</li>")
    by (first [ exact (literal_nl_quiet (String LF EmptyString) "</p><p>") | reflexivity
              | intros q Hq; reflexivity
              | cbn [neverMatchesIn append]; repeat split; reflexivity
              | intros q Hq; cbn [neverMatchesIn append]; repeat split; reflexivity ]).
  rewrite items_break. apply items_wrapped.
Qed.

End TwoItems.

(** X28.  Two list items on two lines are not gathered in one list: the
    line feed between them has become a line break before the list is
    wrapped, so each item is wrapped in a list of its own, with the line
    break between the two lists. *)
Theorem markdownToHtml_two_items (a b : string) :
  allChars isPlain a = true -> allChars isPlain b = true ->
  a <> EmptyString -> b <> EmptyString ->
  startsWith " " a = false -> startsWith " " b = false ->
  markdownToHtml ("- " ++ a ++ nl ++ "- " ++ b)
  = "<p><ul><li>" ++ a ++ "</li></ul><br><ul><li>" ++ b ++ "</li></ul></p>".
Proof.
  intros Ha Hb Hane Hbne Hsa Hsb.
  destruct a as [| ca a']; [contradiction |].
  destruct b as [| cb b']; [contradiction |].
  simpl in Ha, Hb. apply andb_true_iff in Ha. apply andb_true_iff in Hb.
  destruct Ha as [Hca Ha']. destruct Hb as [Hcb Hb'].
  cbn [startsWith] in Hsa, Hsb. rewrite andb_true_r in Hsa, Hsb.
  apply (two_items ca cb a' b' Hca Hcb); first [assumption | now rewrite Ascii.eqb_sym].
Qed.

Lemma markdownToHtml_two_items_witness :
  markdownToHtml "- milk
- eggs" = "<p><ul><li>milk</li></ul><br><ul><li>eggs</li></ul></p>".
Proof.
  apply (markdownToHtml_two_items "milk" "eggs"); first [reflexivity | discriminate].
Defined.
